(* ===== verification/_CoqProject ===== *)
-Q . S2P
Prelude.v
Text.v
Model.v
Slug.v
Store.v
Tags.v
TopStores.v
StorePage.v
Pagination.v
Queries.v
Hearts.v
Auth.v
Users.v
Mail.v
Upload.v
Client.v
MapPage.v
Pages.v
