(* ===== verification/Prelude.v ===== *)
(** * Store catalogue of the Full-stack Restaurant App: the verification library

    The program is an Express application over MongoDB (Mongoose).  Its
    state is three collections: stores, reviews and users.
    - [src/models/Store.js] declares the store schema, its two pre-save
      hooks (HTML stripping of the name, slug assignment), its [2dsphere]
      and text indexes, and the aggregations [getTagsList] and
      [getTopStores].
    - [src/models/Review.js] and [src/models/User.js] declare the other
      two schemas.
    - [src/controllers/storeController.js] has the handlers that create,
      edit, list, search and heart stores.
    - [src/controllers/authController.js] and
      [src/controllers/userController.js] have the login, password-reset,
      registration and account handlers.
    - [src/handlers/mail.js] renders and sends e-mails;
      [src/handlers/passport.js] plugs passport-local-mongoose into
      passport's session.
    - [src/public/javascripts/modules] holds the browser code that calls
      the API: the heart button, the map page and the address field.
    The browser calls the handlers, the handlers call the models, and the
    models call the datastore.  The development follows that layering:
    each file requires the files it calls.

    ** Files

    - [Prelude] (this file): the scope [store_scope] with the notation
      [ensure b else e] for a handler's early return, the tactics
      [refute_eval], [ok_inv] and [solve_ranked], the hint database
      [storedb], list and option lemmas,
      a small result monad [result] with [Ok]/[Err] for fallible handlers,
      and the abstract top-N contract [topN].  [sort_take_topN] proves that
      "sort, then take n" ([sort_take]) implements that contract; every
      ranked query of the program is stated against it.
    - [Text]: strings as [list ascii]; [trim], lower case, the decimal
      rendering of a number, [String.prototype.split] on one character
      ([split_on], with its inverse [join_on]); models of the npm packages [striptags]
      ([Text.StripTags], a state machine) and [slugs] ([Text.Slugs]).
      Both packages are library code, modelled from their contract.
    - [Model]: one record per schema ([Store], [Review], [User]), the
      request body [StoreBody] and the errors [AppError].
    - [Slug]: the pre-save hooks ([strip_name_hook], [slug_hook],
      [pre_save]) against the interface [SlugIndex], which is what the
      datastore gives the hook.  It also holds the executable test of the
      slug regular expression and the slug-family invariant.
    - [Store]: the datastore [DB], the schema validation and the geo
      index check, and the handlers [createStore], [updateStore],
      [confirmOwner], [editStore], [getStoreBySlug].  Creations and
      updates form a transition system ([handle], [reachable]); two
      creations interleaved at the hook's query are
      [createStore_concurrent].
    - [Tags]: [getTagsList] ($unwind, $group as a [gmap], $sort) and
      [getStoresByTag].
    - [TopStores]: [getTopStores] ($lookup, $match, $project with [$avg],
      $sort, $limit).
    - [StorePage]: the store page of [getStoreBySlug] with
      [.populate("author reviews")], the virtual [reviews] of the store
      schema and the [autopopulate] hooks of both schemas.
    - [Pagination]: the store listing [getStores] (skip, limit, redirect).
    - [Queries]: [mapStores] ($near) and [searchStores] ($text).  Their
      rankings come from the database indexes, which are the type classes
      [GeoIndex] and [TextIndex].
    - [Hearts]: [heartStore] and [hearts].  The operator is chosen on the
      request's copy of the user, so interleavings are explicit sequences
      of steps.
    - [Auth]: [login] (passport's local strategy), [logout],
      [isLoggedIn], [forgot], [reset], [confirmedPasswords], [update].
      The effects of a reset handler are an [Outcome]: the new state, the
      responses, the mails (the options [forgot] passes to [mail.send],
      with the link built from the request's host) and the login.  The
      session of [passport.js]: [serializeUser] keeps the address,
      [deserializeUser] finds the user of it on every request.
    - [Users]: [validateRegister], [register] (with passport-local-
      mongoose's [User.register]), [updateAccount] and the login and
      register forms ([src/controllers/userController.js]), against the
      interface [EmailValidator] for [validator.isEmail], and the
      [gravatar] virtual.  The handlers
      that write users form a transition system ([user_handle],
      [user_reachable]).
    - [Mail]: [mail.js]'s [send] and [generateHTML] against the interface
      [MailRenderer] (pug, juice, html-to-text), the transport as an
      outbox, the hex token of [crypto.randomBytes], and the reset route.
    - [Upload]: multer's [fileFilter] on a memory-stored file,
      [resize]'s file name and path, [jimp.read] (an image or a
      rejection) and [resize(800, jimp.AUTO)] with [Math.round] on the
      height, and the route that chains them with [createStore]
      ([postStore]).
    - [Client]: [heart.js]'s response handler composed with [heartStore]
      (single clicks, and double clicks whose requests interleave), and
      [map.js]'s [loadPlaces] composed with [mapStores].
    - [MapPage]: the map page over time: [makeMap], the requests in
      flight, answers arriving in any order ([page_step], [page_run]), the
      markers, the fitted bounds, the popup's HTML; and [autocomplete.js],
      the address field of the store form.
    - [Pages]: the handlers that only call [res.render] ([homePage],
      [addStore], [mapPage], [hearts], [getTopStores], [account]), as
      values of [View].

    ** What the theorems show

    - Slug uniqueness.  [Store.reachable_slug_unique] proves by rule
      induction that slugs stay distinct in every reachable state when
      base slugs carry no numeric suffix.  [Store.create_slug_collision]
      shows that two creations collide otherwise (bases [b-2] then [b]),
      and [Store.concurrent_create_same_slug] that two creations whose
      hooks both query before either inserts (spec, section 5) both
      succeed with the same slug: no unique index backs the hook.  A
      creation is found by its slug, and so is every earlier store
      ([Store.createStore_lookup]); a renamed store stays at its old slug
      ([Store.updateStore_old_slug]).
    - Ranked queries.  The top stores, nearby stores and search results
      each meet the [topN] contract (a refinement), and their rows are
      characterised.  The facet list counts every tag occurrence exactly.
      The listing pages cover the sorted stores exactly once when no two
      stores share a creation time, whatever order each page's query
      gives ([Pagination.getStores_pages_cover]); the order of equal
      times is left open, as MongoDB leaves it.
    - The shape of stored data.  Every reachable state holds stores with
      distinct ids and valid GeoJSON points ([Store.reachable_store_types]).
    - Error paths, bounds and termination.  The redirect targets of the
      listing, the page-0 failure, and averages of validated reviews in
      [1, 5] or null ([TopStores.valid_reviews_top_average]).  A browser that
      follows the listing's redirects stops within two requests
      ([Pagination.browse_terminates]).  The page count equals the
      integer ceiling division ([Pagination.page_count_ceil], a lemma).
    - Hearts.  One toggle flips membership; two interleaved toggles
      count as one.  Composed with the page: sequential clicks keep the
      button in step with the datastore ([Client.clicks_in_sync]), but a
      double click leaves the page showing the wrong state
      ([Client.double_click_desync]).  The next request of the session
      lists a newly hearted store on the hearted-stores page
      ([Pages.hearted_page_after_heart]).
    - The map page shows only stores within 10 km, at their own
      coordinates, inside the fitted bounds ([Client.map_markers]).  Over
      any sequence of events every marker ever shown is a stored store
      near a point the page asked for ([MapPage.page_markers_near], by
      induction on the events); answers arriving out of order leave the
      map on a place the user has left, and markers are never removed
      ([MapPage.answer_order]).  The popup holds the stored address
      unescaped ([MapPage.popup_address_verbatim]).
    - The store page reached from a row of the top stores shows that
      store with the very reviews the row averaged, when slugs are unique
      ([StorePage.top_row_page]).
    - Uploads.  Whatever mimetype the client sends, the photo is written
      inside the uploads directory ([Upload.postStore_path_confined]); it
      is 800 pixels wide and keeps the aspect ratio to half a pixel
      ([Upload.postStore_resized]); an unreadable image fails the request
      after [req.body.photo] was set.
    - Password reset.  A password changes only through a valid, unexpired
      token and confirmed passwords.  Tokens last one hour and work once.
      After a reset, login succeeds with the new password and fails with
      any password of another hash ([Auth.reset_then_login]).  The reset
      mail goes to the address asked for and its link leads back to the
      token through the route; its host is the request's [Host] header
      ([Mail.reset_link_roundtrip]).
    - Users.  Ids and e-mail addresses stay distinct in every reachable
      state ([Users.users_reachable_unique]), and a reset token is stored
      exactly when its expiry is ([Users.user_reachable_reset_paired]).  Registration stores a user
      that [findOne] finds, and it refuses a taken address.  A session
      keeps the address, not the account: after a change of address it
      loads nobody, then whoever registers the old address
      ([Users.session_follows_address]).
    - Divergences from the spec and the comments, recorded as findings:
      the slug pattern collides, tag-only names are stored empty, updates
      skip the hooks and the ownership check, page 0 fails, invalid
      tokens produce two responses, the heart button desynchronises, a
      failed creation leaves its uploaded photo behind, the popup renders
      markup of the address, the reset link trusts the [Host] header, the
      map follows stale answers, sessions follow addresses, a review
      needs no rating, and stores created in the same millisecond may be
      listed twice or not at all.

    ** Modelling choices, bounds and fuel

    - Identifiers are [nat].  Coordinates and ratings are exact rationals
      [Q], so floating-point rounding is not modelled.  Page numbers and
      reset times are [Z].
    - Collections are lists in natural order, so [find] returns the first
      match as MongoDB's [findOne] does.
    - Every handler is structurally recursive ([foldl], [filter],
      [merge_sort]), so it needs no fuel.  The only fuel is that of
      [Pagination.browse], the browser following redirects: two requests
      are enough from every page, and [browse_terminates] proves it for
      any fuel of at least two.  The limits 10, 5 and 4 and the
      hour 3600000 are the source's constants.
    - Witnesses evaluate the definitions with [vm_compute] on small
      databases.

    ** Not modelled

    - Flash messages and the cookie mechanics of the session (the
      session is the value [serializeUser] gives).  The internals of
      express-validator ([normalizeEmail] is modelled as lower-casing) and
      of passport-local-mongoose (the salted hash is a function [hash]).
    - The pixels and encodings of jimp: an image is its width and height,
      and a buffer jimp cannot decode is [None].
    - The templates of pug, CSS inlining and SMTP delivery: they are the
      class [MailRenderer] and an outbox.
    - Rendering and the DOM: the Google Maps widgets are the record
      [MapPage.Page], an info window is the HTML it shows, and the float
      animation of the heart button is left out.  The wrap of map bounds
      across the antimeridian.  The pug templates behind [Pages.View].
    - Unicode text, and non-numeric page parameters ([NaN]).
    - The module loading of each file ([require] lines), the mail
      transport's configuration from the environment (mail.js, lines
      9-16), and the plugin options of the user schema: they configure
      libraries and compute nothing.  Review creation has no handler
      under [src/]: the review schema's validators are modelled
      ([TopStores.validate_review]) and the theorems assume stored reviews
      passed them. *)

From stdpp Require Export base list sorting sets.
From Stdlib Require Export Lia.

Declare Scope store_scope.
Delimit Scope store_scope with store.

Create HintDb storedb discriminated.
Create Rewrite HintDb storedb.

(** Refutes an equation between a closed term and a constructor it does
    not evaluate to. *)
Ltac refute_eval H := vm_compute in H; discriminate H.

(** ** Lists: filters keep what holds of every element *)

Lemma Forall_filter_keep {A} (P : A -> Prop) (Q : A -> Prop) `{!∀ x, Decision (Q x)} l :
  Forall P l -> Forall P (filter Q l).
Proof.
  induction 1 as [|x l Hx _ IH]; [done|]. rewrite filter_cons. case_decide; auto.
Qed.

(** ** Lists: splitting at the first occurrence of a separator *)

Section FirstOccurrence.
Context {A : Type}.

Lemma app_cons_first_inj (x : A) (l1 l1' r r' : list A) :
  x ∉ l1 -> x ∉ l1' -> l1 ++ x :: r = l1' ++ x :: r' -> l1 = l1' /\ r = r'.
Proof.
  revert l1'. induction l1 as [|y l1 IH]; intros [|y' l1'] H1 H1' Heq;
    simpl in *; simplify_eq.
  - done.
  - set_solver.
  - set_solver.
  - destruct (IH l1') as [-> ->]; [set_solver|set_solver|done|done].
Qed.

(** The same split read from the end of the list: a separator followed by
    a separator-free suffix determines the prefix. *)
Lemma app_cons_last_inj (x : A) (p p' d d' : list A) :
  x ∉ d -> x ∉ d' -> p ++ x :: d = p' ++ x :: d' -> p = p' /\ d = d'.
Proof.
  intros Hd Hd' Heq.
  apply (f_equal reverse) in Heq.
  rewrite !reverse_app, !reverse_cons, <-!(assoc_L app) in Heq. simpl in Heq.
  apply app_cons_first_inj in Heq; [|rewrite elem_of_reverse; done..].
  destruct Heq as [Hd1 Hp1].
  split; [apply (inj reverse); done | apply (inj reverse); done].
Qed.
End FirstOccurrence.

(** ** Ranked queries: sort by a total preorder, then keep the first [n]

    MongoDB's [$sort] followed by [$limit n] (and the cursor methods
    [.sort(...).limit(n)]) promise no order between equal keys.  The
    abstract contract [topN] says exactly what such a pipeline returns:
    a sorted list of [min n (length l)] elements of the input, such that
    every element left out ranks no higher than every element kept.  The
    executable model uses stdpp's merge sort; [sort_take_topN] shows that
    it meets the contract, so that every claim about a ranked query is
    proved against [topN] and holds for any order the datastore picks
    between ties. *)

Section TopN.
Context {A : Type} (R : relation A) `{!RelDecision R, !Total R, !Transitive R}.

Definition sort_take (n : nat) (l : list A) : list A :=
  take n (merge_sort R l).

Definition topN (n : nat) (l out : list A) : Prop :=
  StronglySorted R out /\
  length out = min n (length l) /\
  exists rest, l ≡ₚ out ++ rest /\ forall x y, x ∈ out -> y ∈ rest -> R x y.

Lemma sort_take_topN n l : topN n l (sort_take n l).
Proof.
  unfold sort_take, topN.
  pose proof (StronglySorted_merge_sort R l) as Hs.
  pose proof (merge_sort_Permutation R l) as Hp.
  rewrite <-(take_drop n (merge_sort R l)) in Hs.
  split; [by eapply StronglySorted_app_1_l|].
  split; [by rewrite length_take, Hp|].
  exists (drop n (merge_sort R l)). split.
  - by rewrite take_drop, Hp.
  - intros x y Hx Hy. by eapply StronglySorted_app_1_elem_of.
Qed.

Lemma topN_sub n l out : topN n l out -> out ⊆+ l.
Proof.
  intros (_ & _ & rest & Hp & _). rewrite Hp. apply submseteq_inserts_r. done.
Qed.

Lemma topN_elem n l out x : topN n l out -> x ∈ out -> x ∈ l.
Proof. intros H Hx. eapply elem_of_submseteq; [exact Hx|]. by eapply topN_sub. Qed.

Lemma topN_length_le n l out : topN n l out -> length out <= n.
Proof. intros (_ & Hl & _). lia. Qed.

(** With no effective limit, a ranked query is a sorted permutation. *)
Lemma topN_all n l out : length l <= n -> topN n l out -> out ≡ₚ l.
Proof.
  intros Hn (_ & Hl & rest & Hp & _).
  assert (rest = []) as ->.
  { apply Permutation_length in Hp. rewrite length_app in Hp.
    destruct rest; [done|simpl in *; lia]. }
  by rewrite Hp, app_nil_r.
Qed.
End TopN.

#[export] Hint Resolve sort_take_topN topN_sub topN_length_le : storedb.

(** ** Fallible handlers: a result monad

    A handler of the program either completes or fails with an error: a
    rejected promise in the source.  [result E] is the error monad the
    models are written in; stdpp's [x ← m; k] notation binds in it. *)

Inductive result (E A : Type) : Type :=
| Ok (a : A)
| Err (e : E).
Arguments Ok {E A} a.
Arguments Err {E A} e.

#[export] Instance result_ret {E} : MRet (result E) := fun A a => Ok a.
#[export] Instance result_bind {E} : MBind (result E) :=
  fun A B k m => match m with Ok a => k a | Err e => Err e end.

Definition guard_or {E} (b : bool) (e : E) : result E unit :=
  if b then Ok tt else Err e.

Lemma bind_Ok {E A B} (m : result E A) (k : A -> result E B) b :
  (m ≫= k) = Ok b <-> exists a, m = Ok a /\ k a = Ok b.
Proof. destruct m; simpl; naive_solver. Qed.

Lemma guard_or_Ok {E} b (e : E) : guard_or b e = Ok tt <-> b = true.
Proof. destruct b; simpl; naive_solver. Qed.

#[export] Hint Rewrite @bind_Ok @guard_or_Ok : storedb.

(** [ensure b else e] is the early return of a handler: [if (!b) throw e]. *)
Notation "'ensure' b 'else' e" := (guard_or b e) (at level 10, b at level 9, e at level 9)
  : store_scope.

(** Inverts a handler's [Ok] result once the binds are evaluated. *)
Ltac ok_inv H := cbv [mret result_ret] in H; simplify_eq.

(** A ranked query built with [sort_take] meets the [topN] contract. *)
Ltac solve_ranked := apply sort_take_topN; apply _.

(** ** Lists: elements with the same key in a list of distinct keys *)

Lemma NoDup_map_same_key {A K} (key : A -> K) (l : list A) x y :
  NoDup (map key l) -> x ∈ l -> y ∈ l -> key x = key y -> x = y.
Proof.
  induction l as [|z l IH]; simpl; [set_solver|].
  rewrite NoDup_cons. intros [Hz Hnd] Hx Hy Hk.
  apply elem_of_cons in Hx, Hy.
  assert (forall w, w ∈ l -> key w <> key z) as Hnot.
  { intros w Hw Hwz. apply Hz. rewrite <-Hwz. apply list_elem_of_In, in_map, list_elem_of_In, Hw. }
  destruct Hx as [->|Hx], Hy as [->|Hy]; auto.
  - by destruct (Hnot y Hy).
  - by destruct (Hnot x Hx).
Qed.

(** Replacing the elements that satisfy a test by one value keeps a
    property that the value and every element have. *)
Lemma Forall_map_replace {A} (P : A -> Prop) (c : A -> bool) (x' : A) l :
  Forall P l -> P x' -> Forall P (map (fun s => if c s then x' else s) l).
Proof.
  intros Hl Hx. induction Hl as [|s l Hs _ IH]; simpl; [done|].
  constructor; [by destruct (c s)|done].
Qed.

Lemma omap_cons {A B} (f : A -> option B) x l :
  omap f (x :: l) = match f x with Some y => y :: omap f l | None => omap f l end.
Proof. done. Qed.

(** ** Lists: consecutive windows of width [k] *)

Lemma concat_windows {A} (k n : nat) (l : list A) :
  concat (map (fun i => take k (drop (k * i) l)) (seq 0 n)) = take (k * n) l.
Proof.
  induction n as [|n IH]; [by rewrite Nat.mul_0_r|].
  rewrite seq_S, map_app, concat_app, IH. simpl. rewrite app_nil_r, take_take_drop.
  f_equal. lia.
Qed.

Lemma filter_all {A} (P : A -> Prop) `{!∀ x, Decision (P x)} (l : list A) :
  (forall x, x ∈ l -> P x) -> filter P l = l.
Proof.
  induction l as [|x l IH]; intros Hall; [done|].
  rewrite filter_cons_True by (apply Hall; set_solver). f_equal. apply IH. set_solver.
Qed.

(** [find] fails when no element passes the test. *)
Lemma find_None_intro {A} (f : A -> bool) (l : list A) :
  (forall x, x ∈ l -> f x = false) -> find f l = None.
Proof.
  induction l as [|x l IH]; intros Hall; [done|]. simpl.
  rewrite Hall by set_solver. apply IH. set_solver.
Qed.

(** [map] keeps distinct elements distinct when [f] is injective on them. *)
Lemma NoDup_map_inj_on {A B} (f : A -> B) (l : list A) :
  NoDup l -> (forall x y, x ∈ l -> y ∈ l -> f x = f y -> x = y) -> NoDup (map f l).
Proof.
  induction 1 as [|x l Hx Hnd IH]; intros Hinj; simpl; constructor.
  - intros (y & Hxy & Hy)%list_elem_of_In%in_map_iff. apply list_elem_of_In in Hy.
    assert (y = x) as -> by (apply Hinj; set_solver). done.
  - apply IH. intros y z Hy Hz. apply Hinj; set_solver.
Qed.

Lemma find_app_None {A} (f : A -> bool) (l1 l2 : list A) :
  find f l1 = None -> find f (l1 ++ l2) = find f l2.
Proof. induction l1 as [|x l1 IH]; simpl; [done|]. by destruct (f x). Qed.
