(* ===== verification/Text.v ===== *)
(** * Text: the string operations the store model is built from

    Strings are modelled as [text] = [list ascii] (the byte string of the
    value), so that prefixes, suffixes and separators are list operations.
    This file holds
    - the character classes and the JavaScript string methods the source
      uses: [String.prototype.trim] (Mongoose's [trim: true] setter) and
      [toLowerCase] (the ["i"] flag of the slug regular expression);
    - [show_nat], the decimal rendering of a number inside a template
      literal (["${n}"] in [Store.js]), with its injectivity;
    - models of the two npm packages [Store.js] calls: [StripTags.striptags]
      ([striptags(html, allowable_tags, tag_replacement)]) and
      [Slugs.slug] (the [slugs] package).  Neither is code of the
      repository: both are modelled from their documented contract and the
      spec (section 4.1), and only ASCII input is modelled. *)

From Stdlib Require Import Ascii String DecimalString DecimalNat.
From stdpp Require Import base list strings.
From S2P Require Import Prelude.

Abbreviation text := (list ascii).

(** A string literal as a [text]. *)
Definition txt (s : string) : text := list_ascii_of_string s.

Module Chars.
Definition code (c : ascii) : nat := nat_of_ascii c.

Definition is_digit (c : ascii) : bool := bool_decide (48 <= code c <= 57).
Definition is_upper (c : ascii) : bool := bool_decide (65 <= code c <= 90).
Definition is_lower (c : ascii) : bool := bool_decide (97 <= code c <= 122).
Definition is_alnum (c : ascii) : bool := is_digit c || is_lower c || is_upper c.

(** The ASCII part of the white space that [String.prototype.trim]
    removes: tab, line feed, vertical tab, form feed, carriage return,
    space. *)
Definition is_space (c : ascii) : bool :=
  bool_decide (9 <= code c <= 13) || bool_decide (code c = 32).

Definition dash : ascii := "-"%char.
Definition lt_sign : ascii := "<"%char.
Definition gt_sign : ascii := ">"%char.
Definition bang : ascii := "!"%char.
Definition dquote : ascii := ascii_of_nat 34.
Definition squote : ascii := "'"%char.
Definition space : ascii := " "%char.
Definition newline : ascii := "010"%char.
Definition slash : ascii := "/"%char.
Definition dot : ascii := "."%char.

(** [toLowerCase] on ASCII letters. *)
Definition to_lower (c : ascii) : ascii :=
  if is_upper c then ascii_of_nat (code c + 32) else c.
End Chars.

Import Chars.

Definition lower (s : text) : text := map to_lower s.

Fixpoint drop_while (p : ascii -> bool) (s : text) : text :=
  match s with
  | [] => []
  | c :: s' => if p c then drop_while p s' else s
  end.

(** [s.trim()]: white space removed at both ends. *)
Definition trim (s : text) : text :=
  reverse (drop_while is_space (reverse (drop_while is_space s))).

(** ** Decimal rendering of a non-negative integer, as in ["${n}"] *)

Definition show_nat (n : nat) : text :=
  list_ascii_of_string (NilEmpty.string_of_uint (Nat.to_uint n)).

(** ** [striptags(html, allowable_tags, tag_replacement)]

    The package scans its input with a three-state machine: plain text,
    inside a tag, inside a comment.  In plain text, [<] opens a tag; inside
    a tag, [>] closes it (unless inside a quoted attribute or a nested
    [<]) and the whole tag is replaced by [tag_replacement] when it is not
    allowed; [<] followed by a space or a line feed is text; [<!--] opens a
    comment, which is dropped up to the next [-->].  A tag left open at the
    end of the input is dropped.  The store model calls it with
    [allowable_tags = null] (no tag is kept), so the tag buffer only
    matters for the comment and ["< "] tests. *)

Module StripTags.
Inductive mode := Plaintext | Html | Comment.

Record scan := mkScan {
  st_mode : mode;
  tag_buffer : text;
  depth : nat;
  in_quote_char : option ascii;
  output : text
}.

Definition init : scan := mkScan Plaintext [] 0 None [].

Definition last2 (s : text) : text := drop (length s - 2) s.

Definition step (repl : text) (st : scan) (c : ascii) : scan :=
  let '(mkScan m buf d q out) := st in
  match m with
  | Plaintext =>
      if decide (c = lt_sign) then mkScan Html (buf ++ [c]) d q out
      else mkScan Plaintext buf d q (out ++ [c])
  | Html =>
      if decide (c = lt_sign) then
        (if q is Some _ then st else mkScan Html buf (S d) q out)
      else if decide (c = gt_sign) then
        (if q is Some _ then st else
         match d with
         | S d' => mkScan Html buf d' q out
         | 0 => mkScan Plaintext [] 0 None (out ++ repl)
         end)
      else if bool_decide (c = dquote) || bool_decide (c = squote) then
        let q' := match q with
                  | Some qc => if decide (c = qc) then None else q
                  | None => Some c
                  end in
        mkScan Html (buf ++ [c]) d q' out
      else if decide (c = dash) then
        mkScan (if decide (buf = [lt_sign; bang; dash]) then Comment else Html)
               (buf ++ [c]) d q out
      else if bool_decide (c = space) || bool_decide (c = newline) then
        (if decide (buf = [lt_sign]) then mkScan Plaintext [] d q (out ++ [lt_sign; space])
         else mkScan Html (buf ++ [c]) d q out)
      else mkScan Html (buf ++ [c]) d q out
  | Comment =>
      if decide (c = gt_sign) then
        mkScan (if decide (last2 buf = [dash; dash]) then Plaintext else Comment) [] d q out
      else mkScan Comment (buf ++ [c]) d q out
  end.

Definition striptags (repl : text) (html : text) : text :=
  output (foldl (step repl) init html).
End StripTags.

(** ** The [slugs] package

    Lower-cases the name, turns every maximal run of characters that are
    not ASCII letters or digits into a single [-], and drops the
    separators at both ends (spec, section 4.1, step 2). *)

Module Slugs.
(** The words of [s]: its maximal runs of letters and digits, lower-cased,
    [cur] being the reversed word read so far. *)
Fixpoint words (cur : text) (s : text) : list text :=
  match s with
  | [] => [reverse cur]
  | c :: s' =>
      if is_alnum c then words (to_lower c :: cur) s'
      else reverse cur :: words [] s'
  end.

Fixpoint join_dash (ws : list text) : text :=
  match ws with
  | [] => []
  | [w] => w
  | w :: ws' => w ++ dash :: join_dash ws'
  end.

Definition slug (s : text) : text :=
  join_dash (filter (fun w => w <> []) (words [] s)).
End Slugs.

(** ** [String.prototype.split] on one character

    ["a/b".split("/")] is [["a"; "b"]]; a separator at either end gives an
    empty segment, and the empty string gives one empty segment. *)
Fixpoint split_on (sep : ascii) (s : text) : list text :=
  match s with
  | [] => [[]]
  | c :: s' =>
      let rest := split_on sep s' in
      if bool_decide (c = sep) then [] :: rest
      else match rest with w :: ws => (c :: w) :: ws | [] => [[c]] end
  end.

(** [Array.prototype.join(sep)], the inverse of [split_on]. *)
Fixpoint join_on (sep : ascii) (ws : list text) : text :=
  match ws with
  | [] => []
  | [w] => w
  | w :: ws => w ++ sep :: join_on sep ws
  end.

(** The [n]-th segment, ["undefined"] when there is none (the value of
    [s.split(sep)[n]] inside a template literal). *)
Definition segment (sep : ascii) (n : nat) (s : text) : text :=
  default (txt "undefined") (split_on sep s !! n).

(** ** Lemmas *)

Lemma to_lower_idem c : to_lower (to_lower c) = to_lower c.
Proof. destruct c as [[] [] [] [] [] [] [] []]; reflexivity. Qed.

Lemma to_lower_digit c : is_digit c = true -> to_lower c = c.
Proof. destruct c as [[] [] [] [] [] [] [] []]; done. Qed.

Lemma is_digit_dash : is_digit dash = false.
Proof. reflexivity. Qed.

Lemma to_lower_dash : to_lower dash = dash.
Proof. reflexivity. Qed.

#[export] Hint Resolve to_lower_idem to_lower_digit : storedb.
#[export] Hint Rewrite to_lower_idem to_lower_dash : storedb.

Lemma lower_app s1 s2 : lower (s1 ++ s2) = lower s1 ++ lower s2.
Proof. apply map_app. Qed.

Lemma lower_cons c s : lower (c :: s) = to_lower c :: lower s.
Proof. reflexivity. Qed.

Lemma lower_reverse s : lower (reverse s) = reverse (lower s).
Proof.
  induction s as [|c s IH]; [done|].
  by rewrite lower_cons, !reverse_cons, lower_app, IH.
Qed.

Lemma lower_idem s : lower (lower s) = lower s.
Proof. unfold lower. rewrite map_map. apply map_ext, to_lower_idem. Qed.

Lemma lower_digits d : Forall (fun c => is_digit c = true) d -> lower d = d.
Proof.
  induction 1 as [|c d Hc _ IH]; [done|]. simpl. by rewrite to_lower_digit, IH.
Qed.

#[export] Hint Rewrite lower_app lower_cons : storedb.

(** *** Decimal rendering *)

Lemma string_of_uint_digits u :
  Forall (fun c => is_digit c = true)
         (list_ascii_of_string (NilEmpty.string_of_uint u)).
Proof. induction u; simpl; by constructor. Qed.

Lemma show_nat_digits n : Forall (fun c => is_digit c = true) (show_nat n).
Proof. apply string_of_uint_digits. Qed.

Lemma show_nat_inj n m : show_nat n = show_nat m -> n = m.
Proof.
  unfold show_nat. intros H.
  apply (f_equal string_of_list_ascii) in H.
  rewrite !string_of_list_ascii_of_string in H.
  apply (f_equal NilEmpty.uint_of_string) in H. rewrite !NilEmpty.usu in H.
  apply Unsigned.to_uint_inj. congruence.
Qed.

Lemma show_nat_nonempty n : show_nat n <> [].
Proof.
  unfold show_nat. destruct (Nat.to_uint n) eqn:E; try done.
  pose proof (Unsigned.of_to n) as Hn. rewrite E in Hn. simpl in Hn. subst n.
  discriminate E.
Qed.

Lemma dash_not_in_digits d : Forall (fun c => is_digit c = true) d -> dash ∉ d.
Proof.
  intros Hd Hin. rewrite Forall_forall in Hd.
  specialize (Hd dash Hin). by rewrite is_digit_dash in Hd.
Qed.

Lemma lower_show_nat n : lower (show_nat n) = show_nat n.
Proof. apply lower_digits, show_nat_digits. Qed.

#[export] Hint Resolve show_nat_digits show_nat_nonempty dash_not_in_digits : storedb.
#[export] Hint Rewrite lower_show_nat : storedb.

(** *** The slug is lower case *)

Lemma lower_join_dash ws :
  Forall (fun w => lower w = w) ws -> lower (Slugs.join_dash ws) = Slugs.join_dash ws.
Proof.
  induction 1 as [|w ws Hw _ IH]; [done|].
  destruct ws as [|w' ws]; [done|].
  change (Slugs.join_dash (w :: w' :: ws)) with (w ++ dash :: Slugs.join_dash (w' :: ws)).
  autorewrite with storedb. by rewrite Hw, IH.
Qed.

Lemma lower_words cur s :
  lower cur = cur -> Forall (fun w => lower w = w) (Slugs.words cur s).
Proof.
  revert cur. induction s as [|c s IH]; intros cur Hcur; simpl.
  - constructor; [|done]. by rewrite lower_reverse, Hcur.
  - destruct (is_alnum c).
    + apply IH. simpl. by rewrite to_lower_idem, Hcur.
    + constructor; [|by apply IH]. by rewrite lower_reverse, Hcur.
Qed.

Lemma slug_lower s : lower (Slugs.slug s) = Slugs.slug s.
Proof.
  apply lower_join_dash, Forall_filter_keep, lower_words. done.
Qed.

(** *** Text without [<] passes through [striptags] unchanged *)

Lemma striptags_plain repl s out :
  lt_sign ∉ s ->
  foldl (StripTags.step repl) (StripTags.mkScan StripTags.Plaintext [] 0 None out) s
  = StripTags.mkScan StripTags.Plaintext [] 0 None (out ++ s).
Proof.
  revert out. induction s as [|c s IH]; intros out Hs; cbn [foldl].
  - by rewrite app_nil_r.
  - assert (StripTags.step repl (StripTags.mkScan StripTags.Plaintext [] 0 None out) c
            = StripTags.mkScan StripTags.Plaintext [] 0 None (out ++ [c])) as ->.
    { cbn. rewrite decide_False by set_solver. done. }
    rewrite IH by set_solver. by rewrite <-(assoc_L app).
Qed.

Lemma striptags_no_tag repl s : lt_sign ∉ s -> StripTags.striptags repl s = s.
Proof. intros H. unfold StripTags.striptags, StripTags.init. by rewrite striptags_plain. Qed.

(** *** A tag left open at the end is dropped *)

Lemma striptags_step_alnum repl buf d out c :
  is_alnum c = true ->
  StripTags.step repl (StripTags.mkScan StripTags.Html buf d None out) c
  = StripTags.mkScan StripTags.Html (buf ++ [c]) d None out.
Proof.
  intros Hc. destruct c as [[] [] [] [] [] [] [] []]; try discriminate Hc; reflexivity.
Qed.

Lemma striptags_html_alnum repl buf d out t :
  Forall (fun c => is_alnum c = true) t ->
  foldl (StripTags.step repl) (StripTags.mkScan StripTags.Html buf d None out) t
  = StripTags.mkScan StripTags.Html (buf ++ t) d None out.
Proof.
  intros Ht. revert buf. induction Ht as [|c t Hc _ IH]; intros buf; cbn [foldl].
  - by rewrite app_nil_r.
  - rewrite striptags_step_alnum, IH by done. by rewrite <-(assoc_L app).
Qed.

(** A name that is one tag never closed, [<] followed by letters and
    digits, strips to nothing. *)
Lemma striptags_open_tag repl t :
  Forall (fun c => is_alnum c = true) t -> StripTags.striptags repl (lt_sign :: t) = [].
Proof.
  intros Ht. unfold StripTags.striptags, StripTags.init. cbn [foldl].
  change (StripTags.step repl (StripTags.mkScan StripTags.Plaintext [] 0 None []) lt_sign)
    with (StripTags.mkScan StripTags.Html [lt_sign] 0 None []).
  by rewrite striptags_html_alnum.
Qed.

Lemma alnum_not_space c : is_alnum c = true -> is_space c = false.
Proof. destruct c as [[] [] [] [] [] [] [] []]; done. Qed.

(** [trim] leaves [<] followed by letters and digits unchanged. *)
Lemma trim_open_tag t : Forall (fun c => is_alnum c = true) t -> trim (lt_sign :: t) = lt_sign :: t.
Proof.
  intros Ht. unfold trim. change (drop_while is_space (lt_sign :: t)) with (lt_sign :: t).
  rewrite reverse_cons. destruct (reverse t) as [|c r] eqn:E; simpl.
  - apply (f_equal reverse) in E. rewrite reverse_involutive in E. by subst t.
  - assert (is_space c = false) as ->.
    { apply alnum_not_space. rewrite list.Forall_forall in Ht. apply Ht.
      rewrite <-elem_of_reverse, E. left. }
    change (c :: r ++ [lt_sign]) with ((c :: r) ++ [lt_sign]).
    by rewrite <-E, <-reverse_cons, reverse_involutive.
Qed.

(** *** [split] and [join] *)

Lemma split_on_nonempty sep s : split_on sep s <> [].
Proof.
  induction s as [|c s IH]; simpl; [done|].
  case_bool_decide; [done|]. by destruct (split_on sep s).
Qed.

(** Splitting and joining again gives the string back. *)
Lemma join_split sep s : join_on sep (split_on sep s) = s.
Proof.
  induction s as [|c s IH]; [done|]. simpl.
  pose proof (split_on_nonempty sep s) as Hne.
  case_bool_decide as Hc.
  - subst c. destruct (split_on sep s) as [|w ws]; [done|].
    destruct ws; simpl in *; by rewrite IH.
  - destruct (split_on sep s) as [|w [|w' ws]]; [done| |]; simpl in *; by rewrite IH.
Qed.

(** No segment holds the separator. *)
Lemma split_on_sep_free sep s w : w ∈ split_on sep s -> sep ∉ w.
Proof.
  revert w. induction s as [|c s IH]; intros w; simpl.
  - rewrite list_elem_of_singleton. intros ->. set_solver.
  - case_bool_decide as Hc.
    + rewrite elem_of_cons. intros [->|Hw]; [set_solver|auto].
    + destruct (split_on sep s) as [|w0 ws] eqn:E.
      * rewrite list_elem_of_singleton. intros ->. set_solver.
      * rewrite elem_of_cons. intros [->|Hw].
        -- apply not_elem_of_cons. split; [done|]. apply IH. left.
        -- apply IH. by right.
Qed.

Lemma split_on_free sep s : sep ∉ s -> split_on sep s = [s].
Proof.
  induction s as [|c s IH]; intros Hs; [done|]. simpl.
  rewrite bool_decide_eq_false_2 by set_solver. rewrite IH by set_solver. done.
Qed.

Lemma split_on_app sep a b : sep ∉ a -> split_on sep (a ++ sep :: b) = a :: split_on sep b.
Proof.
  induction a as [|c a IH]; intros Ha; simpl; [by rewrite bool_decide_eq_true_2|].
  rewrite bool_decide_eq_false_2 by set_solver. rewrite IH by set_solver. done.
Qed.

Lemma segment_sep_free sep n s : sep ∉ txt "undefined" -> sep ∉ segment sep n s.
Proof.
  unfold segment. destruct (split_on sep s !! n) as [w|] eqn:E; simpl; [|done].
  intros _. apply (split_on_sep_free sep s). by eapply list_elem_of_lookup_2.
Qed.
