(* ===== verification/Model.v ===== *)
(** * Model: the documents of the three Mongoose models

    [src/models/Store.js], [src/models/Review.js] and [src/models/User.js]
    declare the schemas; this file gives one record per schema with the
    fields the code reads or writes, and the request bodies the store
    controller receives.  Identifiers ([ObjectId]) are modelled as [nat],
    JavaScript numbers that are not identifiers (coordinates, ratings) as
    rationals [Q], creation dates as [nat], the reset expiry ([Date.now()]
    plus an hour) as [Z] milliseconds, strings as [text].  A field that a document may lack is an [option]. *)

From Stdlib Require Import QArith ZArith.
From S2P Require Import Prelude Text.

Abbreviation oid := nat.

(** [location: { type: {type: String, default: "Point"},
                 coordinates: [{type: Number, required: ...}],
                 address: {type: String, required: ...} }] *)
Record Location := mkLocation {
  loc_type : text;
  coordinates : list Q;
  address : option text
}.

(** [storeSchema] (Store.js, lines 12-51).  Every store in the collection
    was inserted by [createStore], whose save hooks always set [slug]
    ([name] is required and hence always modified on a new document), so
    [slug] is a [text] and not an [option]. *)
Record Store := mkStore {
  store_id : oid;
  name : text;
  slug : text;
  description : option text;
  tags : list text;
  created : nat;
  location : Location;
  photo : option text;
  author : oid
}.

(** [reviewSchema] (Review.js, lines 5-30).  [rating] has validators
    [min: 1, max: 5] but is not required. *)
Record Review := mkReview {
  review_id : oid;
  review_created : nat;
  review_author : oid;
  review_store : oid;
  review_text : text;
  rating : option Q
}.

(** [userSchema] (User.js, lines 13-35).  passport-local-mongoose adds
    the salted hash of the password; [user_password] stands for it (the
    hashing is the library's and is not modelled). *)
Record User := mkUser {
  user_id : oid;
  email : text;
  user_name : text;
  resetPasswordToken : option text;
  resetPasswordExpires : option Z;
  hearts : list oid;
  user_password : option text
}.

(** The form body [req.body] posted to [createStore] and [updateStore].
    The handlers pass the whole body to Mongoose, so a body may carry any
    schema path: [body_slug] and [body_author] are paths the edit form
    does not send but a client can. *)
Record StoreBody := mkBody {
  body_name : option text;
  body_description : option text;
  body_tags : option (list text);
  body_coordinates : option (list Q);
  body_address : option text;
  body_photo : option text;
  body_slug : option text;
  body_author : option oid
}.

(** The errors a handler can end in. *)
Inductive AppError :=
| ValidationError (paths : list text)  (** Mongoose rejects these paths *)
| NullDeref                      (** a property read on [null] (TypeError) *)
| OwnerError                     (** [confirmOwner] throws *)
| GeoKeyError                    (** the [2dsphere] index rejects the location *)
| QueryError                     (** MongoDB rejects the query *)
| DuplicateKeyError              (** a [unique] index rejects the write (E11000) *)
| MissingUsernameError           (** passport-local-mongoose: no username *)
| UserExistsError                (** passport-local-mongoose: the username is taken *)
| MissingPasswordError           (** passport-local-mongoose: no password *)
| FileTypeError                  (** multer's [fileFilter] refuses the file *)
| ImageReadError.                (** [jimp.read] rejects the buffer *)
