(* ===== verification/Slug.v ===== *)
(** * Slug: the two pre-save hooks of the Store schema

    [src/models/Store.js], lines 64-89.  The first hook strips HTML tags
    from the name; the second derives [slug] from the name and, when the
    collection already holds slugs matching [^(base)((-[0-9]*$)?)$]
    (case-insensitive), appends [-(count + 1)].

    The hook reads the collection through [this.constructor.find]; the
    class [SlugIndex] is that interface: what the persistence layer gives
    the hook (the slugs of the stored documents).  The hook's theorems are
    proved against it, and [Store.v] provides the instance for its
    collection.

    Theorems:
    - [slug_regex_test_spec]: the executable regular-expression test;
    - [assign_slug_inv]: the slug-family invariant, which gives slug
      uniqueness, is preserved by an assignment whose base has no numeric
      suffix;
    the counterexample for a base with a numeric suffix is
    [Store.create_slug_collision]. *)

From Stdlib Require Import QArith String.
From S2P Require Import Prelude Text Model.
Import Chars.

(** ** The persistence-layer interface of the hook *)

Class SlugIndex (D : Type) := all_slugs : D -> list text.

(** ** Strings: prefix stripping and numeric suffixes *)

Fixpoint strip_prefix (p s : text) : option text :=
  match p, s with
  | [], _ => Some s
  | c :: p', c' :: s' => if decide (c = c') then strip_prefix p' s' else None
  | _ :: _, [] => None
  end.

Abbreviation digits ds := (Forall (fun c => is_digit c = true) ds).

(** ** The regular expression of line 82

    [new RegExp(`^(${this.slug})((-[0-9]*$)?)$`, "i")].  The base is
    spliced into the pattern unescaped; a slug holds only lower-case
    letters, digits and [-], none of which is special outside a bracket,
    so the pattern reads the base literally.  The ["i"] flag compares
    both sides in lower case. *)

Definition slug_regex_test (base s : text) : bool :=
  match strip_prefix (lower base) (lower s) with
  | Some [] => true
  | Some (c :: ds) => bool_decide (c = dash) && forallb is_digit ds
  | None => false
  end.

(** Whether a base ends in [-] followed by digits: such a base matches
    the pattern of its own prefix. *)
Definition has_numeric_suffix (b : text) : bool :=
  match drop_while is_digit (reverse b) with
  | c :: _ => bool_decide (c = dash)
  | [] => false
  end.

(** ** The slug assignment (lines 80-87) *)

(** The slug given to a document whose base slug is [base], when the
    collection holds the slugs [ss]: the base itself when no stored slug
    matches the pattern, [base-(n+1)] when [n] do. *)
Definition assign_slug (ss : list text) (base : text) : text :=
  match length (filter (fun s => slug_regex_test base s = true) ss) with
  | 0 => base
  | n => base ++ dash :: show_nat (n + 1)
  end.

(** The text that [striptags] puts in place of each tag (line 70). *)
Definition default_store : text := txt "Default Store"%string.

(** Both hooks as one pre-save step on a document.  [name_modified] is
    [this.isModified("name")]; assigning [this.name] goes through the
    schema's [trim: true] setter. *)
Section Hooks.
Context {D : Type} `{!SlugIndex D}.

(** Lines 65-72. *)
Definition strip_name_hook (name_modified : bool) (st : Store) : Store :=
  if negb name_modified then st else
  {| store_id := store_id st;
     name := trim (StripTags.striptags default_store (name st));
     slug := slug st; description := description st; tags := tags st;
     created := created st; location := location st; photo := photo st;
     author := author st |}.

(** Lines 75-89. *)
Definition slug_hook (db : D) (name_modified : bool) (st : Store) : Store :=
  if negb name_modified then st else
  {| store_id := store_id st; name := name st;
     slug := assign_slug (all_slugs db) (Slugs.slug (name st));
     description := description st; tags := tags st;
     created := created st; location := location st; photo := photo st;
     author := author st |}.

(** The hooks run in the order they are registered. *)
Definition pre_save (db : D) (name_modified : bool) (st : Store) : Store :=
  slug_hook db name_modified (strip_name_hook name_modified st).
End Hooks.

(** ** The slug-family invariant

    The slugs of base [b] are [b], [b-2], [b-3], ...: [family b n] lists
    the first [n] of them.  The invariant says that the stored slugs are
    distinct and lower case, and that for every lower-case base without a
    numeric suffix the stored slugs matching its pattern are exactly a
    prefix of its family. *)

Definition family (b : text) (n : nat) : list text :=
  match n with
  | 0 => []
  | S n' => b :: map (fun k => b ++ dash :: show_nat k) (seq 2 n')
  end.

Definition matching (b : text) (ss : list text) : list text :=
  filter (fun s => slug_regex_test b s = true) ss.

Definition slug_family_inv (ss : list text) : Prop :=
  NoDup ss /\
  Forall (fun s => lower s = s) ss /\
  forall b, lower b = b -> has_numeric_suffix b = false ->
    matching b ss ≡ₚ family b (length (matching b ss)).

(** ** The regular-expression test *)

Lemma strip_prefix_spec p s r : strip_prefix p s = Some r <-> s = p ++ r.
Proof.
  revert s. induction p as [|c p IH]; intros [|c' s]; simpl.
  - naive_solver.
  - naive_solver.
  - done.
  - case_decide; subst.
    + rewrite IH. naive_solver.
    + naive_solver.
Qed.

Lemma strip_prefix_None p s : strip_prefix p s = None -> forall r, s <> p ++ r.
Proof. intros H r Hs. apply strip_prefix_spec in Hs. congruence. Qed.

Lemma forallb_digits ds : forallb is_digit ds = true <-> digits ds.
Proof. rewrite forallb_forall, Forall_forall. by setoid_rewrite list_elem_of_In. Qed.

(** The regular-expression test, as a statement on lower-cased texts. *)
Lemma slug_regex_test_iff base s :
  slug_regex_test base s = true <->
  lower s = lower base \/ exists ds, digits ds /\ lower s = lower base ++ dash :: ds.
Proof.
  unfold slug_regex_test.
  destruct (strip_prefix (lower base) (lower s)) as [[|c ds]|] eqn:E.
  - apply strip_prefix_spec in E. rewrite app_nil_r in E. naive_solver.
  - apply strip_prefix_spec in E. rewrite andb_true_iff, bool_decide_eq_true, forallb_digits.
    split; [naive_solver|].
    intros [H|(ds' & Hds' & H)]; rewrite E in H.
    + exfalso. rewrite <-(app_nil_r (lower base)) in H at 2. by apply app_inv_head in H.
    + apply app_inv_head in H. naive_solver.
  - split; [done|]. pose proof (strip_prefix_None _ _ E) as Hn.
    intros [H|(ds & _ & H)]; exfalso; [apply (Hn []); by rewrite app_nil_r|by eapply Hn].
Qed.

(** ** Numeric suffixes *)

Lemma drop_while_split p s :
  exists d, s = d ++ drop_while p s /\ Forall (fun c => p c = true) d /\
            match drop_while p s with c :: _ => p c = false | [] => True end.
Proof.
  induction s as [|c s IH]; simpl; [by exists []|].
  destruct (p c) eqn:E.
  - destruct IH as (d & Hs & Hd & Hh). exists (c :: d). simpl. rewrite <-Hs. auto.
  - exists []. simpl. auto.
Qed.

Lemma drop_while_app p d r :
  Forall (fun c => p c = true) d -> drop_while p (d ++ r) = drop_while p r.
Proof. induction 1 as [|c d Hc _ IH]; [done|]. simpl. by rewrite Hc. Qed.

Lemma digits_reverse ds : digits ds -> digits (reverse ds).
Proof. rewrite !Forall_forall. intros H c. rewrite elem_of_reverse. auto. Qed.

Lemma has_numeric_suffix_spec b :
  has_numeric_suffix b = true <-> exists p ds, digits ds /\ b = p ++ dash :: ds.
Proof.
  unfold has_numeric_suffix. split.
  - destruct (drop_while_split is_digit (reverse b)) as (d & Hs & Hd & _).
    destruct (drop_while is_digit (reverse b)) as [|c r]; [done|].
    rewrite bool_decide_eq_true. intros ->.
    exists (reverse r), (reverse d). split; [by apply digits_reverse|].
    rewrite <-(reverse_involutive b), Hs, reverse_app, reverse_cons.
    by rewrite <-(assoc_L app).
  - intros (p & ds & Hds & ->).
    rewrite reverse_app, reverse_cons, <-(assoc_L app). simpl.
    rewrite drop_while_app by by apply digits_reverse. simpl.
    done.
Qed.

Lemma no_numeric_suffix b ds p :
  has_numeric_suffix b = false -> digits ds -> b <> p ++ dash :: ds.
Proof.
  intros Hb Hds ->. assert (has_numeric_suffix (p ++ dash :: ds) = true) as H.
  { apply has_numeric_suffix_spec. eauto. }
  congruence.
Qed.

(** ** Families of slugs *)

(** The [n]-th slug of base [b] (from 0): [b], [b-2], [b-3], ... *)
Definition family_member (b : text) (n : nat) : text :=
  match n with
  | 0 => b
  | _ => b ++ dash :: show_nat (n + 1)
  end.

Lemma assign_slug_member ss b :
  assign_slug ss b = family_member b (length (matching b ss)).
Proof. unfold assign_slug, matching. by destruct (length _). Qed.

Lemma family_S b n : family b (S n) = family b n ++ [family_member b n].
Proof.
  destruct n as [|n]; [done|]. unfold family, family_member.
  rewrite seq_S, map_app. replace (S n + 1) with (2 + n) by lia. done.
Qed.

Lemma family_member_not_in b n : family_member b n ∉ family b n.
Proof.
  destruct n as [|n]; [set_solver|]. simpl.
  rewrite elem_of_cons, list_elem_of_In, in_map_iff. intros [H|(k & Hk & Hin)].
  - apply (f_equal length) in H. rewrite length_app in H. simpl in H. lia.
  - apply app_inv_head in Hk. injection Hk as Hk. apply show_nat_inj in Hk.
    apply in_seq in Hin. lia.
Qed.

Lemma lower_family_member b n : lower b = b -> lower (family_member b n) = family_member b n.
Proof.
  intros Hb. destruct n; simpl; [done|].
  autorewrite with storedb. by rewrite Hb.
Qed.

(** A family member matches the pattern of its own base ... *)
Lemma family_member_match b n :
  lower b = b -> slug_regex_test b (family_member b n) = true.
Proof.
  intros Hb. apply slug_regex_test_iff. rewrite lower_family_member, Hb by done.
  destruct n; [by left|]. right. eexists. split; [apply show_nat_digits|done].
Qed.

(** ... and no pattern of another suffix-free base. *)
Lemma family_member_no_match b b' n :
  lower b = b -> lower b' = b' ->
  has_numeric_suffix b = false -> has_numeric_suffix b' = false -> b <> b' ->
  slug_regex_test b' (family_member b n) = false.
Proof.
  intros Hb Hb' Hs Hs' Hne. apply not_true_iff_false.
  rewrite slug_regex_test_iff, lower_family_member, Hb' by done.
  intros [H|(ds & Hds & H)]; destruct n as [|n]; simpl in H.
  - congruence.
  - by apply (no_numeric_suffix b' (show_nat (S n + 1)) b Hs' (show_nat_digits _)).
  - by apply (no_numeric_suffix b ds b' Hs Hds).
  - apply app_cons_last_inj in H as [H _];
      [congruence|auto with storedb|by apply dash_not_in_digits].
Qed.

(** ** The invariant is preserved by an assignment *)

Lemma slug_family_inv_nil : slug_family_inv [].
Proof. split_and!; [constructor|constructor|done]. Qed.

#[export] Instance matching_perm b : Proper ((≡ₚ) ==> (≡ₚ)) (matching b).
Proof. intros ss ss' Hp. unfold matching. by apply filter_Permutation. Qed.

#[export] Instance slug_family_inv_perm : Proper ((≡ₚ) ==> iff) slug_family_inv.
Proof.
  assert (forall ss ss', ss ≡ₚ ss' -> slug_family_inv ss -> slug_family_inv ss') as Himp.
  { intros ss ss' Hp (Hnd & Hlow & Hfam). split; [by rewrite <-Hp|].
    split; [by rewrite <-Hp|]. intros b Hb Hs.
    rewrite <-(Permutation_length (matching_perm b _ _ Hp)), <-(matching_perm b _ _ Hp).
    auto. }
  intros ss ss' Hp. split; apply Himp; [done|by symmetry].
Qed.

Lemma matching_cons_match b s ss :
  slug_regex_test b s = true -> matching b (s :: ss) = s :: matching b ss.
Proof. intros H. unfold matching. rewrite filter_cons. by case_decide. Qed.

Lemma matching_cons_skip b s ss :
  slug_regex_test b s = false -> matching b (s :: ss) = matching b ss.
Proof. intros H. unfold matching. rewrite filter_cons. case_decide; congruence. Qed.

Lemma matching_app b l1 l2 : matching b (l1 ++ l2) = matching b l1 ++ matching b l2.
Proof. apply filter_app. Qed.

Lemma slug_regex_test_refl s : slug_regex_test s s = true.
Proof. apply slug_regex_test_iff. by left. Qed.

Lemma assign_slug_fresh ss b :
  slug_family_inv ss -> lower b = b -> has_numeric_suffix b = false ->
  assign_slug ss b ∉ ss.
Proof.
  intros (_ & _ & Hfam) Hb Hs Hin.
  rewrite assign_slug_member in Hin.
  apply (family_member_not_in b (length (matching b ss))).
  rewrite <-(Hfam b Hb Hs). unfold matching. apply list_elem_of_filter.
  split; [by apply family_member_match|done].
Qed.

(** One assignment preserves the slug-family invariant. *)
Lemma assign_slug_step ss b :
  slug_family_inv ss -> lower b = b -> has_numeric_suffix b = false ->
  slug_family_inv (assign_slug ss b :: ss).
Proof.
  intros Hinv Hb Hs. pose proof (assign_slug_fresh ss b Hinv Hb Hs) as Hfresh.
  destruct Hinv as (Hnd & Hlow & Hfam). rewrite assign_slug_member in *.
  split; [by constructor|]. split; [constructor; [by apply lower_family_member|done]|].
  intros b' Hb' Hs'. destruct (decide (b = b')) as [<-|Hne].
  - rewrite matching_cons_match by by apply family_member_match.
    cbn [length]. rewrite family_S, <-(Hfam b Hb Hs). by rewrite <-Permutation_cons_append.
  - rewrite matching_cons_skip by by apply family_member_no_match. auto.
Qed.

(** ** The slug assignment *)

(** The compiled test of the slug pattern: [s] matches the pattern of
    [base] exactly when, compared in lower case, it is [base] or [base]
    followed by [-] and digits (possibly none). *)
Theorem slug_regex_test_spec base s :
  slug_regex_test base s = true <->
  lower s = lower base \/ exists ds, digits ds /\ lower s = lower base ++ dash :: ds.
Proof. apply slug_regex_test_iff. Qed.


(** ** Witnesses *)

