(* ===== verification/Store.v ===== *)
(** * Store: the collections and the handlers that write stores

    The datastore state [DB] holds the three collections in natural
    (insertion) order and the next fresh identifier.  The handlers of
    [src/controllers/storeController.js] that change or read single
    stores are modelled whole: [createStore] (lines 61-70, with the
    [save] of [Store.js]: validation, the two pre-save hooks, insertion
    under the [2dsphere] index), [updateStore] (lines 112-131,
    [findOneAndUpdate] with update validators and no save hooks),
    [confirmOwner] and [editStore] (lines 97-110), [getStoreBySlug]
    (lines 133-139).

    Theorems: the creation and update requests form a transition system
    ([handle], [reachable]); [reachable_slug_unique] shows by rule induction that slugs
    stay unique when every created name has a base slug without a
    numeric suffix, and [create_slug_collision] that a base [b-2]
    followed by a base [b] collide otherwise.  Whatever the requests,
    [reachable_store_types] shows that stored stores keep distinct ids
    and valid GeoJSON points.  A creation is then found by its slug
    ([createStore_lookup]); an update keeps the old slug
    ([updateStore_old_slug]); a tag-only name is stored empty
    ([create_tag_only_name]); a non-author can update a store and take
    it over ([update_without_owner]).  [createStore_concurrent] runs two
    creations whose slug hooks both await their query before either
    insert (spec, section 5): both succeed, with the same slug
    ([concurrent_create_same_slug]). *)

From Stdlib Require Import QArith String.
From S2P Require Import Prelude Text Model Slug.
Local Open Scope store_scope.
Import Chars.

Record DB := mkDB {
  stores : list Store;
  reviews : list Review;
  users : list User;
  next_oid : oid
}.

Definition empty_db : DB := mkDB [] [] [] 0.

(** What the slug hook sees of the collection: [Store.find({slug: re})]
    tests every stored slug. *)
#[export] Instance db_slug_index : SlugIndex DB := fun db => map slug (stores db).

(** ** The datastore's checks *)

(** The [2dsphere] index (Store.js, lines 60-62) rejects a document whose
    location is not a GeoJSON point [[lng, lat]] with the longitude in
    [-180, 180] and the latitude in [-90, 90]. *)
Definition geo_point_ok (l : Location) : bool :=
  match coordinates l with
  | [lng; lat] =>
      bool_decide (loc_type l = txt "Point"%string) &&
      Qle_bool (-180) lng && Qle_bool lng 180 &&
      Qle_bool (-90) lat && Qle_bool lat 90
  | _ => false
  end.

(** Mongoose's [required] on a string: present and not empty. *)
Definition required_text (v : option text) : bool :=
  match v with Some (_ :: _) => true | _ => false end.

(** [required: "Please enter a store name!"], [required: "You must supply
    an address"]; the author is always set by the handler. *)
Definition validate_store (st : Store) : result AppError unit :=
  let errs := (if required_text (Some (name st)) then [] else [txt "name"%string]) ++
              (if required_text (address (location st)) then []
               else [txt "location.address"%string]) in
  match errs with [] => Ok tt | _ => Err (ValidationError errs) end.

Definition insert_store (db : DB) (st : Store) : result AppError DB :=
  if geo_point_ok (location st) then
    Ok {| stores := stores db ++ [st]; reviews := reviews db; users := users db;
          next_oid := S (next_oid db) |}
  else Err GeoKeyError.

Definition find_store (db : DB) (id : oid) : option Store :=
  find (fun st => Nat.eqb (store_id st) id) (stores db).

Definition replace_store (db : DB) (st' : Store) : DB :=
  {| stores := map (fun st => if Nat.eqb (store_id st) (store_id st') then st' else st)
                   (stores db);
     reviews := reviews db; users := users db; next_oid := next_oid db |}.

(** [User.findById], [findByIdAndUpdate]: the user collection. *)
Definition find_user (db : DB) (uid : oid) : option User :=
  find (fun u => Nat.eqb (user_id u) uid) (users db).

Definition replace_user (db : DB) (u' : User) : DB :=
  {| stores := stores db; reviews := reviews db;
     users := map (fun u => if Nat.eqb (user_id u) (user_id u') then u' else u) (users db);
     next_oid := next_oid db |}.

(** ** [createStore] *)

(** [new Store(req.body)] after [req.body.author = req.user._id]: the
    schema's [trim] setters, the [created] and [location.type]
    defaults. *)
Definition store_of_body (id user now : nat) (body : StoreBody) : Store :=
  {| store_id := id;
     name := trim (default [] (body_name body));
     slug := default [] (body_slug body);
     description := trim <$> body_description body;
     tags := default [] (body_tags body);
     created := now;
     location := {| loc_type := txt "Point"%string;
                    coordinates := default [] (body_coordinates body);
                    address := body_address body |};
     photo := body_photo body;
     author := user |}.

(** [await new Store(req.body).save()]: Mongoose validates, then runs the
    pre-save hooks ([name] is modified on a new document), then inserts. *)
Definition createStore (db : DB) (user now : nat) (body : StoreBody)
    : result AppError (DB * Store) :=
  let doc := store_of_body (next_oid db) user now body in
  validate_store doc;;
  let doc' := pre_save db true doc in
  db' ← insert_store db doc';
  mret (db', doc').

(** Two [createStore] requests in flight at once (spec, section 5): each
    builds and validates its document ([new Store] gives each its own
    id), the slug hook of each awaits its query of the collection, and
    both queries are answered before either insert runs; then the two
    inserts run, in order. *)
Definition createStore_concurrent (db : DB) (user1 now1 : nat) (body1 : StoreBody)
    (user2 now2 : nat) (body2 : StoreBody) : result AppError (DB * Store * Store) :=
  let doc1 := store_of_body (next_oid db) user1 now1 body1 in
  let doc2 := store_of_body (S (next_oid db)) user2 now2 body2 in
  validate_store doc1;;
  validate_store doc2;;
  let doc1' := pre_save db true doc1 in
  let doc2' := pre_save db true doc2 in
  db1 ← insert_store db doc1';
  db2 ← insert_store db1 doc2';
  mret (db2, doc1', doc2').

(** ** [updateStore] *)

(** The update [findOneAndUpdate] applies: every path of the body is set,
    the location object is replaced, [name] is the stripped name. *)
Definition apply_update (st : Store) (nm : text) (body : StoreBody) : Store :=
  {| store_id := store_id st;
     name := nm;
     slug := default (slug st) (body_slug body);
     description := match body_description body with
                    | Some d => Some (trim d) | None => description st end;
     tags := default (tags st) (body_tags body);
     created := created st;
     location := {| loc_type := txt "Point"%string;
                    coordinates := default [] (body_coordinates body);
                    address := body_address body |};
     photo := match body_photo body with Some p => Some p | None => photo st end;
     author := default (author st) (body_author body) |}.

(** Update validators run on the paths of the update only: [name] is
    always in it, [location.address] when the body has an address. *)
Definition validate_update (nm : text) (body : StoreBody) : result AppError unit :=
  let errs := (if required_text (Some nm) then [] else [txt "name"%string]) ++
              (match body_address body with
               | Some a => if required_text (Some a) then [] else [txt "location.address"%string]
               | None => []
               end) in
  match errs with [] => Ok tt | _ => Err (ValidationError errs) end.

Definition updateStore (db : DB) (id : oid) (body : StoreBody)
    : result AppError (DB * Store) :=
  (* line 114: [req.body.location.type = "Point"] reads [req.body.location] *)
  ensure (bool_decide (is_Some (body_address body) \/ is_Some (body_coordinates body)))
    else NullDeref;;
  (* line 117 *)
  let nm := trim (StripTags.striptags default_store (default [] (body_name body))) in
  validate_update nm body;;
  match find_store db id with
  | None => Err NullDeref                  (* [store.name] on [null], line 126 *)
  | Some st =>
      let st' := apply_update st nm body in
      if geo_point_ok (location st') then mret (replace_store db st', st')
      else Err GeoKeyError
  end.

(** ** [confirmOwner], [editStore], [getStoreBySlug] *)

Definition confirmOwner (st : Store) (user : oid) : result AppError unit :=
  ensure (Nat.eqb (author st) user) else OwnerError.

Definition editStore (db : DB) (id user : oid) : result AppError Store :=
  match find_store db id with
  | None => Err NullDeref                  (* [store.author] on [null] *)
  | Some st => confirmOwner st user;; mret st
  end.

(** [Store.findOne({slug})]: the first store in natural order; [None] is
    the [next()] to the 404 handler. *)
Definition getStoreBySlug (db : DB) (s : text) : option Store :=
  find (fun st => bool_decide (slug st = s)) (stores db).

(** ** The requests that write the store collection, as a transition system *)

Inductive request :=
| ReqCreate (user now : nat) (body : StoreBody)
| ReqUpdate (id : oid) (body : StoreBody).

Definition handle (db : DB) (r : request) : result AppError (DB * Store) :=
  match r with
  | ReqCreate user now body => createStore db user now body
  | ReqUpdate id body => updateStore db id body
  end.

(** The states reached from the empty datastore by requests, handled one
    at a time, that satisfy [admissible]. *)
Inductive reachable (admissible : DB -> request -> Prop) : DB -> Prop :=
| reach_init : reachable admissible empty_db
| reach_step db r db' st :
    reachable admissible db -> admissible db r -> handle db r = Ok (db', st) ->
    reachable admissible db'.

(** The base slug [createStore] derives from a body. *)
Definition base_of_body (body : StoreBody) : text :=
  Slugs.slug (trim (StripTags.striptags default_store (trim (default [] (body_name body))))).

(** Requests under which slugs stay unique: a created store's base slug
    has no numeric suffix, an update carries no [slug]. *)
Definition slug_safe (db : DB) (r : request) : Prop :=
  match r with
  | ReqCreate _ _ body => has_numeric_suffix (base_of_body body) = false
  | ReqUpdate _ body => body_slug body = None
  end.

(** The invariant of the collection. *)
(** The shape every stored store has, whatever the requests: distinct
    ids below the next fresh id and a location the [2dsphere] index
    accepted. *)
Definition store_shape (db : DB) : Prop :=
  NoDup (map store_id (stores db)) /\
  Forall (fun st => store_id st < next_oid db) (stores db) /\
  Forall (fun st => geo_point_ok (location st) = true) (stores db).

Definition store_inv (db : DB) : Prop :=
  slug_family_inv (all_slugs db) /\ store_shape db.

(** ** Lemmas on the handlers *)

Lemma find_user_Some db uid u : find_user db uid = Some u -> u ∈ users db /\ user_id u = uid.
Proof.
  unfold find_user. intros H. apply find_some in H as [Hin Heq].
  apply Nat.eqb_eq in Heq. split; [by apply list_elem_of_In|done].
Qed.

Lemma find_user_replace db u u' :
  find_user db (user_id u') = Some u ->
  find_user (replace_user db u') (user_id u') = Some u'.
Proof.
  unfold find_user, replace_user. simpl. induction (users db) as [|v us IH]; simpl; [done|].
  destruct (Nat.eqb_spec (user_id v) (user_id u')) as [E|E]; simpl.
  - by rewrite Nat.eqb_refl.
  - apply Nat.eqb_neq in E. rewrite E. apply IH.
Qed.


Lemma createStore_Ok db user now body db' st :
  createStore db user now body = Ok (db', st) ->
  validate_store (store_of_body (next_oid db) user now body) = Ok tt /\
  st = pre_save db true (store_of_body (next_oid db) user now body) /\
  geo_point_ok (location st) = true /\
  db' = {| stores := stores db ++ [st]; reviews := reviews db; users := users db;
           next_oid := S (next_oid db) |}.
Proof.
  unfold createStore. destruct (validate_store _) as [[]|] eqn:Hv; simpl; [|done].
  unfold insert_store. destruct (geo_point_ok _) eqn:Hg; simpl; [|done].
  intros H; ok_inv H. by split_and!.
Qed.

Lemma createStore_concurrent_Ok db user1 now1 body1 user2 now2 body2 db2 s1 s2 :
  createStore_concurrent db user1 now1 body1 user2 now2 body2 = Ok (db2, s1, s2) ->
  slug s1 = assign_slug (all_slugs db) (base_of_body body1) /\
  slug s2 = assign_slug (all_slugs db) (base_of_body body2) /\
  store_id s1 = next_oid db /\ store_id s2 = S (next_oid db) /\
  stores db2 = stores db ++ [s1; s2].
Proof.
  unfold createStore_concurrent.
  destruct (validate_store (store_of_body (next_oid db) _ _ _)) as [[]|]; simpl; [|done].
  destruct (validate_store _) as [[]|]; simpl; [|done].
  unfold insert_store. destruct (geo_point_ok (location (pre_save db true (store_of_body (next_oid db) _ _ _))));
    simpl; [|done].
  destruct (geo_point_ok _); simpl; [|done].
  intros H; ok_inv H. split_and!; [done..|]. simpl. by rewrite <-app_assoc.
Qed.

Lemma pre_save_fields db d :
  slug (pre_save db true d) = assign_slug (all_slugs db) (Slugs.slug (name (strip_name_hook true d))) /\
  name (pre_save db true d) = trim (StripTags.striptags default_store (name d)) /\
  store_id (pre_save db true d) = store_id d /\
  location (pre_save db true d) = location d /\
  author (pre_save db true d) = author d.
Proof. done. Qed.

Lemma pre_save_location db d : location (pre_save db true d) = location d.
Proof. done. Qed.

Lemma createStore_slug db user now body db' st :
  createStore db user now body = Ok (db', st) ->
  slug st = assign_slug (all_slugs db) (base_of_body body) /\ store_id st = next_oid db /\
  stores db' = stores db ++ [st] /\ next_oid db' = S (next_oid db).
Proof. intros (_ & -> & _ & ->)%createStore_Ok. by split_and!. Qed.

(** A document that validates, at a valid point, is created. *)
Lemma createStore_intro db user now body :
  validate_store (store_of_body (next_oid db) user now body) = Ok tt ->
  geo_point_ok (location (store_of_body (next_oid db) user now body)) = true ->
  createStore db user now body =
  Ok ({| stores := stores db ++ [pre_save db true (store_of_body (next_oid db) user now body)];
         reviews := reviews db; users := users db; next_oid := S (next_oid db) |},
      pre_save db true (store_of_body (next_oid db) user now body)).
Proof.
  intros Hv Hg. unfold createStore. rewrite Hv. simpl. unfold insert_store.
  by rewrite pre_save_location, Hg.
Qed.

Lemma find_store_Some db id st :
  find_store db id = Some st -> st ∈ stores db /\ store_id st = id.
Proof.
  unfold find_store. intros H. apply find_some in H as [Hin Heq].
  apply Nat.eqb_eq in Heq. split; [by apply list_elem_of_In|done].
Qed.

Lemma find_store_replace db id st st' :
  find_store db id = Some st -> store_id st' = id -> find_store (replace_store db st') id = Some st'.
Proof.
  unfold find_store, replace_store. simpl. intros Hf <-. revert Hf.
  induction (stores db) as [|s ss IH]; simpl; [done|].
  destruct (Nat.eqb_spec (store_id s) (store_id st')) as [E|E]; simpl.
  - by rewrite Nat.eqb_refl.
  - apply Nat.eqb_neq in E. rewrite E. apply IH.
Qed.

Lemma updateStore_Ok db id body db' st' :
  updateStore db id body = Ok (db', st') ->
  exists st, find_store db id = Some st /\
    st' = apply_update st (trim (StripTags.striptags default_store (default [] (body_name body)))) body /\
    geo_point_ok (location st') = true /\ db' = replace_store db st'.
Proof.
  unfold updateStore, guard_or. destruct (bool_decide _); simpl; [|done].
  destruct (validate_update _ _) as [[]|]; simpl; [|done].
  destruct (find_store db id) as [st|]; [|done].
  destruct (geo_point_ok _) eqn:Hg; [|done].
  intros H; ok_inv H. eauto 10.
Qed.

(** Replacing a store by one with the same identifier and slug changes
    neither the identifiers nor the slugs of the collection. *)
Lemma replace_store_keys db st st' :
  NoDup (map store_id (stores db)) -> st ∈ stores db ->
  store_id st' = store_id st -> slug st' = slug st ->
  map store_id (stores (replace_store db st')) = map store_id (stores db) /\
  all_slugs (replace_store db st') = all_slugs db.
Proof.
  intros Hnd Hin Hid Hsl. unfold all_slugs, db_slug_index. simpl. rewrite !map_map.
  assert (forall s, s ∈ stores db -> store_id s = store_id st' -> s = st) as Hsame.
  { intros s Hs Heq. apply (NoDup_map_same_key store_id (stores db)); auto. congruence. }
  split; apply map_ext_in; intros s Hs%list_elem_of_In;
    destruct (Nat.eqb_spec (store_id s) (store_id st')) as [Heq|]; try done;
    rewrite (Hsame s Hs Heq); congruence.
Qed.

(** ** The invariant is preserved *)

Lemma store_inv_empty : store_inv empty_db.
Proof. split; [apply slug_family_inv_nil|split_and!; constructor]. Qed.

Lemma base_of_body_pre_save db user now body :
  Slugs.slug (name (strip_name_hook true (store_of_body (next_oid db) user now body)))
  = base_of_body body.
Proof. done. Qed.

Lemma geo_point_ok_spec l :
  geo_point_ok l = true <->
  loc_type l = txt "Point"%string /\
  exists lng lat, coordinates l = [lng; lat] /\ (-180 <= lng <= 180)%Q /\ (-90 <= lat <= 90)%Q.
Proof.
  unfold geo_point_ok. destruct (coordinates l) as [|lng [|lat [|]]]; simpl;
    try (split; [done|naive_solver]).
  rewrite !andb_true_iff, !Qle_bool_iff, bool_decide_eq_true. naive_solver.
Qed.

Lemma replace_store_ids db st' :
  map store_id (stores (replace_store db st')) = map store_id (stores db).
Proof.
  unfold replace_store. simpl. rewrite map_map. apply map_ext. intros s.
  destruct (Nat.eqb_spec (store_id s) (store_id st')); congruence.
Qed.

Lemma create_store_shape db user now body db' st :
  store_shape db -> createStore db user now body = Ok (db', st) -> store_shape db'.
Proof.
  intros (Hids & Hlt & Hgeo) Hc.
  destruct (createStore_Ok _ _ _ _ _ _ Hc) as (_ & Hst & Hg & ->).
  assert (store_id st = next_oid db) as Hid by (rewrite Hst; done).
  unfold store_shape in *; simpl. rewrite !map_app. simpl. split_and!.
  - apply NoDup_app. split_and!; [done| |by apply NoDup_singleton].
    intros x Hx ->%list_elem_of_singleton. rewrite Forall_forall in Hlt.
    apply list_elem_of_In, in_map_iff in Hx as (s & Hs & Hin%list_elem_of_In).
    specialize (Hlt s Hin). lia.
  - apply Forall_app. split; [|constructor; [lia|done]].
    eapply Forall_impl; [exact Hlt|]. simpl. lia.
  - apply Forall_app. split; [done|by constructor].
Qed.

Lemma update_store_shape db id body db' st' :
  store_shape db -> updateStore db id body = Ok (db', st') -> store_shape db'.
Proof.
  intros (Hids & Hlt & Hgeo) Hu.
  destruct (updateStore_Ok _ _ _ _ _ Hu) as (st & Hf & -> & Hg & ->).
  apply find_store_Some in Hf as [Hin Hid].
  split_and!; [by rewrite replace_store_ids| |].
  - apply Forall_map_replace; [done|]. simpl. rewrite Forall_forall in Hlt. auto.
  - by apply Forall_map_replace.
Qed.

Lemma create_store_inv db user now body db' st :
  store_inv db -> has_numeric_suffix (base_of_body body) = false ->
  createStore db user now body = Ok (db', st) -> store_inv db'.
Proof.
  intros [Hslug Hshape] Hsuf Hc. split; [|by eapply create_store_shape].
  destruct (createStore_Ok _ _ _ _ _ _ Hc) as (_ & Hst & _ & ->).
  assert (slug st = assign_slug (all_slugs db) (base_of_body body)) as Hsl.
  { rewrite Hst. apply pre_save_fields. }
  unfold all_slugs, db_slug_index in *; simpl. rewrite map_app. simpl.
  rewrite Permutation_app_comm. simpl. rewrite Hsl.
  apply assign_slug_step; [done|apply slug_lower|done].
Qed.

Lemma update_store_inv db id body db' st' :
  store_inv db -> body_slug body = None ->
  updateStore db id body = Ok (db', st') -> store_inv db'.
Proof.
  intros [Hslug Hshape] Hns Hu. split; [|by eapply update_store_shape].
  destruct Hshape as (Hids & _ & _).
  destruct (updateStore_Ok _ _ _ _ _ Hu) as (st & Hf & -> & _ & ->).
  apply find_store_Some in Hf as [Hin Hid].
  destruct (replace_store_keys db st (apply_update st
              (trim (StripTags.striptags default_store (default [] (body_name body)))) body))
    as [_ Hs]; try done.
  { simpl. by rewrite Hns. }
  by rewrite Hs.
Qed.

Lemma reachable_store_shape adm db : reachable adm db -> store_shape db.
Proof.
  induction 1 as [|db r db' st _ IH Hadm Hh]; [split_and!; constructor|].
  destruct r; simpl in *; eauto using create_store_shape, update_store_shape.
Qed.

(** ** Slug uniqueness *)

Lemma reachable_store_inv db : reachable slug_safe db -> store_inv db.
Proof.
  induction 1 as [|db r db' st _ IH Hadm Hh]; [apply store_inv_empty|].
  destruct r; simpl in *; eauto using create_store_inv, update_store_inv.
Qed.

(** C1: in every state reached by creations whose base slug has no
    numeric suffix and by updates that do not set [slug], no two stores
    share a slug (spec, section 8, property 1, under the condition the
    code needs). *)
Theorem reachable_slug_unique db :
  reachable slug_safe db -> NoDup (map slug (stores db)).
Proof. intros H. apply (reachable_store_inv db H). Qed.

(** C7: whatever requests are handled, every stored store has the shape
    the schema and the [2dsphere] index give it: ids are distinct and
    below the next fresh id, and the location is a GeoJSON [Point] with
    two coordinates, the longitude in [-180, 180] and the latitude in
    [-90, 90]. *)
Theorem reachable_store_types adm db :
  reachable adm db ->
  NoDup (map store_id (stores db)) /\
  forall st, st ∈ stores db -> store_id st < next_oid db /\
    loc_type (location st) = txt "Point"%string /\
    exists lng lat, coordinates (location st) = [lng; lat] /\
      (-180 <= lng <= 180)%Q /\ (-90 <= lat <= 90)%Q.
Proof.
  intros (Hids & Hlt & Hgeo)%reachable_store_shape. split; [done|].
  intros st Hst. rewrite Forall_forall in Hlt, Hgeo. split; [auto|].
  by apply geo_point_ok_spec, Hgeo.
Qed.

(** When slugs are unique, [getStoreBySlug] finds every store by its
    own slug. *)
Lemma getStoreBySlug_unique db st :
  NoDup (map slug (stores db)) -> st ∈ stores db -> getStoreBySlug db (slug st) = Some st.
Proof.
  intros Hnd Hin. unfold getStoreBySlug.
  destruct (find _ _) as [st'|] eqn:Hf.
  - apply find_some in Hf as [Hin' Heq%bool_decide_eq_true].
    f_equal. apply (NoDup_map_same_key slug (stores db)); auto. by apply list_elem_of_In.
  - exfalso. eapply find_none in Hf; [|by apply list_elem_of_In].
    rewrite bool_decide_eq_false in Hf. auto.
Qed.

(** ** Functional behaviour of [createStore] *)

(** C32: creating a store from a state of the invariant, with a base
    without numeric suffix, gives it a slug no stored store has; the new
    store is then found by its slug, and every store stored before is
    still found by its own. *)
Theorem createStore_lookup db user now body db' st :
  store_inv db -> has_numeric_suffix (base_of_body body) = false ->
  createStore db user now body = Ok (db', st) ->
  slug st ∉ map slug (stores db) /\ getStoreBySlug db' (slug st) = Some st /\
  forall st0, st0 ∈ stores db -> getStoreBySlug db' (slug st0) = Some st0.
Proof.
  intros Hinv Hsuf Hc. pose proof (create_store_inv _ _ _ _ _ _ Hinv Hsuf Hc) as [[Hnd _] _].
  destruct (createStore_slug _ _ _ _ _ _ Hc) as (_ & _ & Hst & _).
  unfold all_slugs, db_slug_index in Hnd. split_and!.
  - rewrite Hst, map_app in Hnd. apply NoDup_app in Hnd as (_ & Hd & _). intros Hin.
    apply (Hd (slug st) Hin). simpl. left.
  - apply getStoreBySlug_unique; [done|rewrite Hst; set_solver].
  - intros st0 Hin. apply getStoreBySlug_unique; [done|rewrite Hst; set_solver].
Qed.

(** C39: a name that is empty or white space only is rejected with a
    validation error on [name] before the hooks run, and nothing is
    stored. *)
Theorem createStore_empty_name db user now body :
  trim (default [] (body_name body)) = [] ->
  exists paths, createStore db user now body = Err (ValidationError paths) /\
                txt "name"%string ∈ paths.
Proof.
  intros H. unfold createStore, validate_store. simpl. rewrite H. simpl.
  eexists. split; [reflexivity|]. set_solver.
Qed.

(** A location that is not a valid [[lng, lat]] point makes the
    insertion fail, even when validation passes. *)
Theorem createStore_geo_error db user now body :
  validate_store (store_of_body (next_oid db) user now body) = Ok tt ->
  geo_point_ok (location (store_of_body (next_oid db) user now body)) = false ->
  createStore db user now body = Err GeoKeyError.
Proof.
  intros Hv Hg. unfold createStore. rewrite Hv. simpl. unfold insert_store.
  assert (location (pre_save db true (store_of_body (next_oid db) user now body))
          = location (store_of_body (next_oid db) user now body)) as -> by done.
  by rewrite Hg.
Qed.

(** ** Functional behaviour of [updateStore] *)

(** C33: an update whose body carries no [slug] keeps the store's slug,
    whatever the new name: from a state of the invariant, the renamed
    store is still found at its old slug (the spec says the slug is
    recomputed when the name changes). *)
Theorem updateStore_old_slug db id body db' st' :
  store_inv db -> body_slug body = None ->
  updateStore db id body = Ok (db', st') ->
  exists st, find_store db id = Some st /\ slug st' = slug st /\
    getStoreBySlug db' (slug st) = Some st'.
Proof.
  intros Hinv Hns Hu. pose proof (update_store_inv _ _ _ _ _ Hinv Hns Hu) as [[Hnd _] _].
  destruct (updateStore_Ok _ _ _ _ _ Hu) as (st & Hf & Hst' & _ & ->).
  assert (slug st' = slug st) as Hsl by (rewrite Hst'; cbn [apply_update slug]; by rewrite Hns).
  exists st. split_and!; [done|done|]. rewrite <-Hsl.
  apply getStoreBySlug_unique; [exact Hnd|].
  apply (find_store_Some _ id), find_store_replace with st; [done|].
  destruct (find_store_Some _ _ _ Hf) as [_ <-]. by rewrite Hst'.
Qed.

(** [editStore] serves the edit form only to the author of the store;
    anyone else gets [OwnerError], a missing store [NullDeref]. *)
Theorem editStore_owner db id user :
  match find_store db id with
  | None => editStore db id user = Err NullDeref
  | Some st => editStore db id user = if Nat.eqb (author st) user then Ok st else Err OwnerError
  end.
Proof.
  unfold editStore. destruct (find_store db id) as [st|]; [|done].
  unfold confirmOwner, guard_or. by destruct (Nat.eqb _ _).
Qed.

(** ** Concrete runs *)

(** The state after handling [r]; a failed request leaves it unchanged. *)
Definition run (db : DB) (r : request) : DB :=
  match handle db r with Ok (db', _) => db' | Err _ => db end.

Definition handled (db : DB) (r : request) : bool :=
  match handle db r with Ok _ => true | Err _ => false end.

Lemma reachable_run adm db r :
  reachable adm db -> adm db r -> handled db r = true -> reachable adm (run db r).
Proof.
  unfold run, handled. intros Hr Ha. destruct (handle db r) as [[db' st]|] eqn:Hh; [|done].
  intros _. by eapply reach_step.
Qed.

(** The edit form's body for a store named [nm] at a fixed point. *)
Definition form_body (nm : string) : StoreBody :=
  {| body_name := Some (txt nm); body_description := None; body_tags := None;
     body_coordinates := Some [(-798 # 10)%Q; (432 # 10)%Q];
     body_address := Some (txt "1 King St"%string); body_photo := None;
     body_slug := None; body_author := None |}.

Definition create_named (user now : nat) (nm : string) : request :=
  ReqCreate user now (form_body nm).

Definition with_slug (b : StoreBody) (s : string) : StoreBody :=
  {| body_name := body_name b; body_description := body_description b;
     body_tags := body_tags b; body_coordinates := body_coordinates b;
     body_address := body_address b; body_photo := body_photo b;
     body_slug := Some (txt s); body_author := body_author b |}.

Definition with_author (b : StoreBody) (a : oid) : StoreBody :=
  {| body_name := body_name b; body_description := body_description b;
     body_tags := body_tags b; body_coordinates := body_coordinates b;
     body_address := body_address b; body_photo := body_photo b;
     body_slug := body_slug b; body_author := Some a |}.

(** ** What the code does where the spec says otherwise *)

(** C3: the slug pattern of a base [b] matches [b-2].  When the collection
    holds no slug of either pattern, creating a store whose base is [b-2]
    (a name like ["A 2"]) and then one whose base is [b] (["A"]) gives both
    the slug [b-2]: the count of matches is 1, so the suffix is [-2].
    [getStoreBySlug] then answers the first store for that slug, so the
    second cannot be reached by its slug. *)
Theorem create_slug_collision db user1 now1 body1 user2 now2 body2 db1 s1 db2 s2 :
  base_of_body body1 = family_member (base_of_body body2) 1 ->
  matching (base_of_body body1) (all_slugs db) = [] ->
  matching (base_of_body body2) (all_slugs db) = [] ->
  createStore db user1 now1 body1 = Ok (db1, s1) ->
  createStore db1 user2 now2 body2 = Ok (db2, s2) ->
  slug s1 = base_of_body body1 /\ slug s2 = base_of_body body1 /\
  getStoreBySlug db2 (slug s2) = Some s1 /\ s1 <> s2.
Proof.
  intros Hb H1 H2 (Hs1 & Hid1 & Hst1 & Hn1)%createStore_slug (Hs2 & Hid2 & Hst2 & _)%createStore_slug.
  assert (slug s1 = base_of_body body1) as E1 by (by rewrite Hs1, assign_slug_member, H1).
  assert (slug s2 = base_of_body body1) as E2.
  { rewrite Hs2, assign_slug_member, Hb. f_equal.
    unfold all_slugs, db_slug_index in *. rewrite Hst1, map_app, matching_app, H2. simpl.
    rewrite matching_cons_match; [done|]. rewrite E1, Hb.
    apply family_member_match. unfold base_of_body. apply slug_lower. }
  split_and!; [done|done| |].
  - unfold getStoreBySlug. rewrite Hst2, Hst1, <-app_assoc, find_app_None.
    + simpl. by rewrite bool_decide_eq_true_2 by congruence.
    + apply find_None_intro. intros st Hst. apply bool_decide_eq_false_2. intros Heq.
      assert (slug st ∈ matching (base_of_body body1) (all_slugs db)) as Hm.
      { apply list_elem_of_filter. split.
        - rewrite Heq, E2. apply slug_regex_test_refl.
        - unfold all_slugs, db_slug_index. by apply list_elem_of_fmap_2. }
      rewrite H1 in Hm. set_solver.
  - intros ->. rewrite Hid2, Hn1 in Hid1. lia.
Qed.

(** C4: the slug hook's query and the insert are two steps, and the schema
    declares no unique index on [slug] (spec, section 5).  Two creations
    whose names have the same base slug, that validate and lie at valid
    points, both succeed when their hooks query the collection before
    either insert: the two stores, with distinct ids, receive the same
    slug, and the collection holds it twice. *)
Theorem concurrent_create_same_slug db user1 now1 body1 user2 now2 body2 :
  base_of_body body1 = base_of_body body2 ->
  validate_store (store_of_body (next_oid db) user1 now1 body1) = Ok tt ->
  validate_store (store_of_body (S (next_oid db)) user2 now2 body2) = Ok tt ->
  geo_point_ok (location (store_of_body (next_oid db) user1 now1 body1)) = true ->
  geo_point_ok (location (store_of_body (S (next_oid db)) user2 now2 body2)) = true ->
  exists db2 s1 s2,
    createStore_concurrent db user1 now1 body1 user2 now2 body2 = Ok (db2, s1, s2) /\
    store_id s1 <> store_id s2 /\ slug s1 = slug s2 /\ ~ NoDup (map slug (stores db2)).
Proof.
  intros Hb Hv1 Hv2 Hg1 Hg2.
  destruct (createStore_concurrent db user1 now1 body1 user2 now2 body2) as [[[db2 s1] s2]|e] eqn:E.
  - destruct (createStore_concurrent_Ok _ _ _ _ _ _ _ _ _ _ E) as (H1 & H2 & Hi1 & Hi2 & Hst).
    assert (slug s1 = slug s2) as Es by congruence.
    exists db2, s1, s2. split_and!; [done|lia|done|].
    rewrite Hst, map_app. simpl. rewrite Es. intros (_ & _ & Hd)%NoDup_app.
    apply NoDup_cons in Hd as [Hd _]. set_solver.
  - exfalso. revert E. unfold createStore_concurrent. rewrite Hv1, Hv2. simpl.
    unfold insert_store. rewrite !pre_save_location, Hg1, Hg2. simpl. discriminate.
Qed.

(** C37: validation runs before the pre-save hooks, so a name that is one
    tag never closed, [<] followed by letters and digits, passes
    [required] and is stored empty, with the slug of the empty base. *)
Theorem create_tag_only_name db user now body t lng lat :
  body_name body = Some (lt_sign :: t) -> Forall (fun c => is_alnum c = true) t ->
  required_text (body_address body) = true ->
  body_coordinates body = Some [lng; lat] -> (-180 <= lng <= 180)%Q -> (-90 <= lat <= 90)%Q ->
  exists db' st, createStore db user now body = Ok (db', st) /\ name st = [] /\
    slug st = assign_slug (all_slugs db) [].
Proof.
  intros Hn Ht Ha Hc Hlng Hlat.
  assert (name (store_of_body (next_oid db) user now body) = lt_sign :: t) as Hname.
  { unfold store_of_body. cbn [name]. rewrite Hn. by apply trim_open_tag. }
  rewrite createStore_intro.
  - eexists _, _. split; [reflexivity|].
    destruct (pre_save_fields db (store_of_body (next_oid db) user now body)) as (Hs & Hnm & _).
    rewrite Hs, Hnm. cbn [strip_name_hook negb name]. rewrite Hname, striptags_open_tag by done.
    by split.
  - unfold validate_store. rewrite Hname. unfold store_of_body. cbn [location address].
    by rewrite Ha.
  - apply geo_point_ok_spec. unfold store_of_body. cbn [location loc_type coordinates].
    rewrite Hc. split; [done|]. eauto.
Qed.

(** C38: [updateStore] has no ownership check: a user who is refused the
    edit form of a store ([OwnerError]) can still post a valid update to
    it, and a body that names them as author makes them the author of the
    store. *)
Theorem update_without_owner db id user st body n a lng lat :
  find_store db id = Some st -> author st <> user ->
  body_name body = Some n -> lt_sign ∉ n -> trim n <> [] ->
  body_address body = Some a -> a <> [] ->
  body_coordinates body = Some [lng; lat] -> (-180 <= lng <= 180)%Q -> (-90 <= lat <= 90)%Q ->
  body_author body = Some user ->
  editStore db id user = Err OwnerError /\
  exists db' st', updateStore db id body = Ok (db', st') /\ author st' = user /\
    find_store db' id = Some st'.
Proof.
  intros Hf Hau Hn Hlt Htr Ha Hne Hc Hlng Hlat Hba. split.
  - unfold editStore, confirmOwner, guard_or. rewrite Hf.
    apply Nat.eqb_neq in Hau. by rewrite Hau.
  - assert (validate_update (trim n) body = Ok tt) as Hv.
    { unfold validate_update. rewrite Ha. destruct (trim n); [done|]. by destruct a. }
    assert (geo_point_ok (location (apply_update st (trim n) body)) = true) as Hg.
    { apply geo_point_ok_spec. cbn [apply_update location loc_type coordinates].
      rewrite Hc. split; [done|]. eauto. }
    unfold updateStore, guard_or. rewrite bool_decide_eq_true_2 by (rewrite Ha; left; eauto).
    rewrite Hn. change (default [] (Some n)) with n. rewrite striptags_no_tag, Hv by done. simpl.
    rewrite Hf. simpl in Hg |- *. rewrite Hg. eexists _, _. split; [reflexivity|]. split.
    + cbn [apply_update author]. by rewrite Hba.
    + apply (find_store_replace _ _ st); [done|].
      destruct (find_store_Some _ _ _ Hf) as [_ <-]. done.
Qed.

(** ** Witnesses *)

Definition db_cafe2 : DB :=
  run (run empty_db (create_named 1 10 "Cafe")) (create_named 2 20 "Cafe").

Lemma db_cafe2_reachable : reachable slug_safe db_cafe2.
Proof. repeat apply reachable_run; try apply reach_init; vm_compute; reflexivity. Qed.

Lemma reachable_slug_unique_witness :
  reachable slug_safe db_cafe2 /\ NoDup (map slug (stores db_cafe2)).
Proof.
  split; [exact db_cafe2_reachable|exact (reachable_slug_unique db_cafe2 db_cafe2_reachable)].
Defined.

Lemma reachable_store_types_witness :
  reachable slug_safe db_cafe2 /\ NoDup (map store_id (stores db_cafe2)).
Proof.
  split; [exact db_cafe2_reachable|].
  exact (proj1 (reachable_store_types slug_safe db_cafe2 db_cafe2_reachable)).
Defined.

Definition db_a : DB := run empty_db (create_named 1 10 "Cafe").

Lemma create_slug_collision_witness :
  exists db1 s1 db2 s2,
    createStore empty_db 1 10 (form_body "A 2") = Ok (db1, s1) /\
    createStore db1 2 20 (form_body "A") = Ok (db2, s2) /\
    getStoreBySlug db2 (slug s2) = Some s1 /\ s1 <> s2.
Proof.
  destruct (createStore empty_db 1 10 (form_body "A 2")) as [[db1 s1]|] eqn:E1; [|refute_eval E1].
  destruct (createStore db1 2 20 (form_body "A")) as [[db2 s2]|] eqn:E2.
  - destruct (create_slug_collision empty_db 1 10 (form_body "A 2") 2 20 (form_body "A")
                db1 s1 db2 s2) as (_ & _ & H3 & H4); [reflexivity..|exact E1|exact E2|].
    exists db1, s1, db2, s2. split_and!; [reflexivity|exact E2|exact H3|exact H4].
  - vm_compute in E1. injection E1 as <- _. refute_eval E2.
Defined.

Lemma concurrent_create_same_slug_witness :
  exists db2 s1 s2,
    createStore_concurrent empty_db 1 10 (form_body "Cafe") 2 20 (form_body "Cafe") = Ok (db2, s1, s2) /\
    slug s1 = slug s2.
Proof.
  destruct (concurrent_create_same_slug empty_db 1 10 (form_body "Cafe") 2 20 (form_body "Cafe"))
    as (db2 & s1 & s2 & H & _ & Hs & _); [reflexivity..|].
  exists db2, s1, s2. split; [exact H|exact Hs].
Defined.

Lemma createStore_lookup_witness :
  exists db' st, createStore db_cafe2 3 30 (form_body "Cafe") = Ok (db', st) /\
    getStoreBySlug db' (slug st) = Some st /\ slug st = txt "cafe-3"%string.
Proof.
  destruct (createStore db_cafe2 3 30 (form_body "Cafe")) as [[db' st]|] eqn:E; [|refute_eval E].
  exists db', st. split; [reflexivity|].
  destruct (createStore_lookup db_cafe2 3 30 (form_body "Cafe") db' st) as (_ & H & _).
  - exact (reachable_store_inv _ db_cafe2_reachable).
  - reflexivity.
  - exact E.
  - split; [exact H|]. vm_compute in E. injection E as _ <-. reflexivity.
Defined.

Lemma updateStore_old_slug_witness :
  exists db' st', updateStore db_cafe2 1 (form_body "Bistro") = Ok (db', st') /\
    getStoreBySlug db' (txt "cafe-2"%string) = Some st' /\ name st' = txt "Bistro"%string.
Proof.
  destruct (updateStore db_cafe2 1 (form_body "Bistro")) as [[db' st']|] eqn:E; [|refute_eval E].
  exists db', st'. split; [reflexivity|].
  destruct (updateStore_old_slug db_cafe2 1 (form_body "Bistro") db' st') as (st & Hf & _ & H).
  - exact (reachable_store_inv _ db_cafe2_reachable).
  - reflexivity.
  - exact E.
  - vm_compute in Hf. injection Hf as <-. split; [exact H|].
    vm_compute in E. injection E as _ <-. reflexivity.
Defined.

Lemma create_tag_only_name_witness :
  exists db' st, createStore empty_db 1 10 (form_body "<b") = Ok (db', st) /\ name st = [] /\
    slug st = [].
Proof.
  destruct (create_tag_only_name empty_db 1 10 (form_body "<b") [Ascii.ascii_of_nat 98]
              (-798 # 10)%Q (432 # 10)%Q) as (db' & st & H & Hn & Hs).
  - reflexivity.
  - repeat constructor.
  - reflexivity.
  - reflexivity.
  - split; unfold Qle; simpl; lia.
  - split; unfold Qle; simpl; lia.
  - exists db', st. split_and!; [exact H|exact Hn|]. rewrite Hs. reflexivity.
Defined.

Lemma update_without_owner_witness :
  editStore db_a 0 2 = Err OwnerError /\
  exists db' st', updateStore db_a 0 (with_author (form_body "Cafe") 2) = Ok (db', st') /\
    author st' = 2.
Proof.
  destruct (find_store db_a 0) as [st|] eqn:Hf; [|refute_eval Hf].
  destruct (update_without_owner db_a 0 2 st (with_author (form_body "Cafe") 2)
              (txt "Cafe"%string) (txt "1 King St"%string) (-798 # 10)%Q (432 # 10)%Q)
    as [He (db' & st' & Hu & Ha & _)].
  - exact Hf.
  - vm_compute in Hf. injection Hf as <-. discriminate.
  - reflexivity.
  - vm_compute. set_solver.
  - discriminate.
  - reflexivity.
  - discriminate.
  - reflexivity.
  - split; unfold Qle; simpl; lia.
  - split; unfold Qle; simpl; lia.
  - reflexivity.
  - split; [exact He|]. exists db', st'. split; [exact Hu|exact Ha].
Defined.

Lemma createStore_empty_name_witness :
  exists paths, createStore db_cafe2 3 30 (form_body "   ") = Err (ValidationError paths) /\
                txt "name"%string ∈ paths.
Proof. apply createStore_empty_name. reflexivity. Defined.
