(* ===== verification/Tags.v ===== *)
(** * Tags: the tag facet aggregation and the stores-by-tag query

    [getTagsList] ([src/models/Store.js], lines 92-100) is the pipeline
    [$unwind: "$tags"], [$group: {_id: "$tags", count: {$sum: 1}}],
    [$sort: {count: -1}]; each stage is one definition here ([unwind],
    [group_count], the sort by [count_desc]).  [$group] builds a map from
    tag to count ([gmap]); its output order is unspecified, as is the
    order between equal counts after [$sort], so the theorems hold for any
    such order.  [getStoresByTag] (storeController.js, lines 141-148)
    runs the aggregation and the query [{tags: tag || {$exists: true}}].

    Theorems: every row counts the occurrences of its tag over all stores
    ([getTagsList_count]), every tag in use has a row ([getTagsList_complete]),
    rows are distinct and sorted by count; the tag query returns exactly the
    stores carrying the tag, and without a tag every store, tagless ones
    included. *)

From Stdlib Require Import QArith String.
From stdpp Require Import gmap.
From S2P Require Import Prelude Text Model Store.

(** ** The aggregation pipeline *)

(** [$unwind: "$tags"]: one document per (store, tag) occurrence; a store
    with no tag produces none. *)
Definition unwind (sts : list Store) : list (Store * text) :=
  sts ≫= (fun st => (fun t => (st, t)) <$> tags st).

(** [$group: {_id: "$tags", count: {$sum: 1}}] *)
Definition group_step (m : gmap text nat) (t : text) : gmap text nat :=
  <[t := S (default 0 (m !! t))]> m.

Definition group_count (ts : list text) : gmap text nat :=
  foldl group_step ∅ ts.

(** An output row [{_id: tag, count: n}]. *)
Record TagCount := mkTagCount { tag_id : text; count : nat }.

#[export] Instance TagCount_eq_dec : EqDecision TagCount.
Proof. solve_decision. Defined.

(** [$sort: {count: -1}] *)
Definition count_desc (a b : TagCount) : Prop := count b <= count a.

#[export] Instance count_desc_dec : RelDecision count_desc.
Proof. intros a b. unfold count_desc. apply _. Defined.
#[export] Instance count_desc_total : Total count_desc.
Proof. intros a b. unfold count_desc. lia. Qed.
#[export] Instance count_desc_trans : Transitive count_desc.
Proof. intros a b c. unfold count_desc. lia. Qed.

Definition getTagsList (db : DB) : list TagCount :=
  merge_sort count_desc
    ((fun '(t, n) => mkTagCount t n) <$>
       map_to_list (group_count (snd <$> unwind (stores db)))).

(** ** [getStoresByTag] *)

(** [{tags: tag}] matches a store whose tags array holds [tag];
    [{tags: {$exists: true}}] matches every store, since Mongoose stores
    an array path as [[]] by default. *)
Definition tag_query (tag : option text) (st : Store) : bool :=
  match tag with
  | Some t => bool_decide (t ∈ tags st)
  | None => true
  end.

Definition getStoresByTag (db : DB) (tag : option text) : list TagCount * list Store :=
  (getTagsList db, filter (fun st => tag_query tag st = true) (stores db)).

(** ** The count of a tag *)

(** The number of times [t] is listed over all stores. *)
Definition tag_occurrences (t : text) (sts : list Store) : nat :=
  length (filter (fun t' => t' = t) (sts ≫= tags)).

(** ** Lemmas on the pipeline stages *)

Lemma snd_unwind sts : snd <$> unwind sts = sts ≫= tags.
Proof.
  induction sts as [|st sts IH]; [done|]. simpl.
  rewrite fmap_app, IH. f_equal.
  rewrite <-list_fmap_compose. apply list_fmap_id.
Qed.

(** Adding [k] occurrences to an optional count. *)
Definition add_count (o : option nat) (k : nat) : option nat :=
  match o, k with
  | None, 0 => None
  | None, _ => Some k
  | Some c, _ => Some (c + k)
  end.

Lemma group_foldl_lookup ts m t :
  foldl group_step m ts !! t = add_count (m !! t) (length (filter (fun t' => t' = t) ts)).
Proof.
  revert m. induction ts as [|t' ts IH]; intros m; simpl.
  - by destruct (m !! t) as [c|]; [simpl; rewrite Nat.add_0_r|].
  - rewrite IH, filter_cons. unfold group_step.
    destruct (decide (t' = t)) as [->|Hne].
    + rewrite lookup_insert_eq. simpl.
      destruct (m !! t); simpl; f_equal; lia.
    + by rewrite lookup_insert_ne.
Qed.

Lemma group_count_lookup ts t :
  group_count ts !! t =
  match length (filter (fun t' => t' = t) ts) with 0 => None | n => Some n end.
Proof. unfold group_count. rewrite group_foldl_lookup, lookup_empty. by destruct (length _). Qed.

Lemma elem_of_getTagsList db tc :
  tc ∈ getTagsList db <->
  group_count (stores db ≫= tags) !! tag_id tc = Some (count tc).
Proof.
  unfold getTagsList. rewrite merge_sort_Permutation, list_elem_of_fmap, snd_unwind.
  split.
  - intros ([t n] & -> & Hin). by apply elem_of_map_to_list in Hin.
  - intros H. exists (tag_id tc, count tc). split; [by destruct tc|].
    by apply elem_of_map_to_list.
Qed.

(** ** Correctness of the facet list *)

(** C13: a row [{_id: t, count: n}] is in the facet list exactly when [n] is
    the number of times [t] is listed over all stores (a store listing
    it twice counts twice) and [n] is positive: every tag in use has its
    row, with its count, and no other row exists. *)
Theorem getTagsList_rows db t n :
  mkTagCount t n ∈ getTagsList db <-> n = tag_occurrences t (stores db) /\ 0 < n.
Proof.
  rewrite elem_of_getTagsList, group_count_lookup. unfold tag_occurrences. simpl.
  destruct (length _); split; intros H; try done; try lia.
  - injection H as <-. lia.
  - destruct H as [-> _]. done.
Qed.

(** The facet list has one row per tag and is sorted by decreasing
    count. *)
Theorem getTagsList_distinct_sorted db :
  NoDup (tag_id <$> getTagsList db) /\ StronglySorted count_desc (getTagsList db).
Proof.
  split; [|apply StronglySorted_merge_sort; apply _].
  unfold getTagsList. rewrite merge_sort_Permutation, <-list_fmap_compose.
  rewrite (list_fmap_ext _ fst); [apply NoDup_fst_map_to_list|]. by intros ? [] ?.
Qed.

(** ** The stores-by-tag query *)

(** With a tag, [getStoresByTag] returns the stores that list it, in
    natural order. *)
Theorem getStoresByTag_tag db t st :
  st ∈ (getStoresByTag db (Some t)).2 <-> st ∈ stores db /\ t ∈ tags st.
Proof.
  simpl. rewrite list_elem_of_filter. unfold tag_query.
  rewrite bool_decide_eq_true. tauto.
Qed.

(** Without a tag, [getStoresByTag] returns every store, including the
    stores that have no tag at all. *)
Theorem getStoresByTag_none db : (getStoresByTag db None).2 = stores db.
Proof. simpl. by apply filter_all. Qed.

(** ** The facet list on the example of the spec *)

Definition with_tags (b : StoreBody) (ts : list string) : StoreBody :=
  {| body_name := body_name b; body_description := body_description b;
     body_tags := Some (txt <$> ts); body_coordinates := body_coordinates b;
     body_address := body_address b; body_photo := body_photo b;
     body_slug := body_slug b; body_author := body_author b |}.

Definition tagged_db : DB :=
  foldl run empty_db
    [ReqCreate 1 10 (with_tags (form_body "One") ["vegan"%string]);
     ReqCreate 1 20 (with_tags (form_body "Two") ["vegan"%string; "cafe"%string]);
     ReqCreate 1 30 (with_tags (form_body "Three") ["cafe"%string]);
     ReqCreate 1 40 (form_body "Four")].

(** Stores tagged [vegan], [vegan, cafe], [cafe] and one untagged store
    give the rows [vegan: 2] and [cafe: 2] in some order (spec, section 8,
    property 6), and the query without a tag returns all four stores. *)
Theorem getTagsList_example :
  getTagsList tagged_db ≡ₚ [mkTagCount (txt "vegan") 2; mkTagCount (txt "cafe") 2] /\
  length (getStoresByTag tagged_db None).2 = 4.
Proof. split; [apply (bool_decide_unpack _)|]; vm_compute; reflexivity. Qed.
