(* ===== verification/TopStores.v ===== *)
(** * TopStores: the rating aggregation

    [getTopStores] ([src/models/Store.js], lines 102-135; the handler
    [getTopStores] of storeController.js, lines 222-225, renders its
    result) is the pipeline
    - [$lookup] the reviews whose [store] is the store's [_id];
    - [$match] the stores with a second review (["reviews.1": {$exists: true}]);
    - [$project] [averageRating: {$avg: "$reviews.rating"}] with photo,
      name, reviews and slug;
    - [$sort: {averageRating: -1}] and [$limit: 10].
    [$avg] ignores reviews without a numeric rating and is [null] when none
    has one; in the BSON order [null] sorts below every number.  Ratings
    are rationals [Q] here (JavaScript numbers in the code), so the mean
    is exact: the model shows what the pipeline computes up to floating-
    point rounding.

    Theorems: the result meets the abstract top-10 contract [topN]
    ([getTopStores_topN]); every row is a stored store with at least two
    reviews and the mean of their ratings ([getTopStores_rows]); with
    ratings in [1, 5] the average lies in [1, 5] ([getTopStores_bounds]);
    [validate_review] is the review schema's validation (Review.js, lines
    5-30), where the rating is optional, so with validated reviews the
    average is in [1, 5] or [null] ([valid_reviews_top_average]); the
    example of the spec. *)

From Stdlib Require Import QArith Lqa String.
From S2P Require Import Prelude Text Model Store.

(** ** The pipeline stages *)

(** [$lookup: {from: "reviews", localField: "_id", foreignField: "store"}] *)
Definition lookup_reviews (revs : list Review) (st : Store) : list Review :=
  filter (fun r => review_store r = store_id st) revs.

(** [$match: {"reviews.1": {$exists: true}}] *)
Definition has_second_review (rs : list Review) : bool :=
  match rs with _ :: _ :: _ => true | _ => false end.

Definition qnat (n : nat) : Q := inject_Z (Z.of_nat n).

(** [$avg] over numbers: their mean, [null] for none. *)
Definition mean (qs : list Q) : option Q :=
  match qs with
  | [] => None
  | _ => Some (fold_right Qplus 0%Q qs / qnat (length qs))%Q
  end.

(** [$avg: "$reviews.rating"]: reviews without a rating are ignored. *)
Definition average_rating (rs : list Review) : option Q := mean (omap rating rs).

(** The validators of [reviewSchema] (Review.js, lines 5-30): [required]
    on the text (author and store are always ids here), [min: 1] and
    [max: 5] on a rating that is present.  The rating is not [required]
    and is any number. *)
Definition validate_review (r : Review) : result AppError unit :=
  let errs := (if required_text (Some (review_text r)) then [] else [txt "text"%string]) ++
              (match rating r with
               | Some q => if Qle_bool 1 q && Qle_bool q 5 then [] else [txt "rating"%string]
               | None => []
               end) in
  match errs with [] => Ok tt | _ => Err (ValidationError errs) end.

(** The projected document. *)
Record TopStore := mkTopStore {
  top_id : oid;
  averageRating : option Q;
  top_photo : option text;
  top_name : text;
  top_reviews : list Review;
  top_slug : text
}.

Definition project (st : Store) (rs : list Review) : TopStore :=
  {| top_id := store_id st; averageRating := average_rating rs; top_photo := photo st;
     top_name := name st; top_reviews := rs; top_slug := slug st |}.

(** BSON order on an optional number: [null] first. *)
Definition rating_le (a b : option Q) : Prop :=
  match a, b with
  | None, _ => True
  | Some _, None => False
  | Some x, Some y => (x <= y)%Q
  end.

(** [$sort: {averageRating: -1}] *)
Definition rating_desc (a b : TopStore) : Prop := rating_le (averageRating b) (averageRating a).

#[export] Instance rating_le_dec : RelDecision rating_le.
Proof.
  intros [x|] [y|]; simpl; try apply _.
  destruct (Qlt_le_dec y x) as [H|H]; [right; by apply Qlt_not_le|by left].
Defined.

#[export] Instance rating_desc_dec : RelDecision rating_desc.
Proof. intros a b. unfold rating_desc. apply _. Defined.

#[export] Instance rating_desc_total : Total rating_desc.
Proof.
  intros a b. unfold rating_desc.
  destruct (averageRating a) as [x|], (averageRating b) as [y|]; simpl; auto.
  destruct (Qlt_le_dec x y) as [H|H]; [right; by apply Qlt_le_weak|by left].
Qed.

#[export] Instance rating_desc_trans : Transitive rating_desc.
Proof.
  intros a b c. unfold rating_desc.
  destruct (averageRating a) as [x|], (averageRating b) as [y|], (averageRating c) as [z|];
    simpl; try done. intros H1 H2. by apply (Qle_trans _ y).
Qed.

(** The documents that reach [$sort]. *)
Definition top_candidates (db : DB) : list TopStore :=
  (fun p => project p.1 p.2) <$>
    filter (fun p => has_second_review p.2 = true)
      ((fun st => (st, lookup_reviews (reviews db) st)) <$> stores db).

Definition getTopStores (db : DB) : list TopStore :=
  sort_take rating_desc 10 (top_candidates db).

(** ** Rows of the pipeline *)

Lemma has_second_review_spec rs : has_second_review rs = true <-> 2 <= length rs.
Proof. destruct rs as [|? [|? ?]]; simpl; split; intros; try done; lia. Qed.

Lemma elem_of_top_candidates db t :
  t ∈ top_candidates db <->
  exists st, st ∈ stores db /\ 2 <= length (lookup_reviews (reviews db) st) /\
             t = project st (lookup_reviews (reviews db) st).
Proof.
  unfold top_candidates. rewrite list_elem_of_fmap. setoid_rewrite list_elem_of_filter.
  setoid_rewrite list_elem_of_fmap. setoid_rewrite has_second_review_spec.
  split.
  - intros ([st rs] & -> & Hlen & st' & Heq & Hin). simplify_eq. eauto.
  - intros (st & Hin & Hlen & ->). eexists (st, _). eauto.
Qed.

(** The documents that reach [$sort], store by store. *)
Lemma top_candidates_eq db :
  top_candidates db =
  (fun st => project st (lookup_reviews (reviews db) st)) <$>
    filter (fun st => 2 <= length (lookup_reviews (reviews db) st)) (stores db).
Proof.
  unfold top_candidates. induction (stores db) as [|st sts IH]; [done|].
  rewrite fmap_cons, !filter_cons. simpl.
  case_decide as H1; case_decide as H2; rewrite ?fmap_cons, IH;
    try done; apply has_second_review_spec in H1 || rewrite has_second_review_spec in H1; lia.
Qed.

(** C14: [getTopStores] meets the top-10 contract over the stores with
    two or more reviews, each projected with the mean of the ratings its
    reviews carry: at most ten rows, sorted by decreasing average
    ([null] last), and every such store left out has an average no
    higher than every row kept. *)
Theorem getTopStores_topN db :
  topN rating_desc 10
    ((fun st => mkTopStore (store_id st) (mean (omap rating (lookup_reviews (reviews db) st)))
                  (photo st) (name st) (lookup_reviews (reviews db) st) (slug st)) <$>
       filter (fun st => 2 <= length (lookup_reviews (reviews db) st)) (stores db))
    (getTopStores db).
Proof. unfold getTopStores. rewrite top_candidates_eq. solve_ranked. Qed.

(** The rows of the pipeline. *)
Lemma getTopStores_row db t :
  t ∈ getTopStores db ->
  exists st, st ∈ stores db /\ top_id t = store_id st /\
    top_reviews t = lookup_reviews (reviews db) st /\
    2 <= length (top_reviews t) /\
    averageRating t = mean (omap rating (top_reviews t)).
Proof.
  intros Ht. apply (topN_elem _ _ _ _ _ (sort_take_topN _ _ _)) in Ht.
  apply elem_of_top_candidates in Ht as (st & Hin & Hlen & ->). eexists; eauto.
Qed.

(** Every row of [getTopStores] is a stored store with its own reviews,
    at least two of them, and the mean of their ratings. *)
Theorem getTopStores_rows db t :
  t ∈ getTopStores db ->
  exists st, st ∈ stores db /\ top_id t = store_id st /\
    top_reviews t = lookup_reviews (reviews db) st /\
    2 <= length (top_reviews t) /\
    averageRating t = mean (omap rating (top_reviews t)).
Proof. apply getTopStores_row. Qed.


(** ** Bounds of the average *)

Lemma qnat_S n : (qnat (S n) == qnat n + 1)%Q.
Proof. unfold qnat. rewrite Nat2Z.inj_succ, <-Z.add_1_r, inject_Z_plus. reflexivity. Qed.

Lemma qnat_pos n : (0 < qnat (S n))%Q.
Proof. unfold qnat, Qlt. simpl. lia. Qed.

Lemma sum_bounds lo hi qs :
  Forall (fun q => lo <= q <= hi)%Q qs ->
  (qnat (length qs) * lo <= fold_right Qplus 0 qs <= qnat (length qs) * hi)%Q.
Proof.
  induction 1 as [|q qs Hq _ IH]; simpl.
  - unfold qnat. change (inject_Z (Z.of_nat 0)) with 0%Q. lra.
  - rewrite qnat_S. lra.
Qed.

Lemma mean_bounds lo hi qs m :
  Forall (fun q => lo <= q <= hi)%Q qs -> mean qs = Some m -> (lo <= m <= hi)%Q.
Proof.
  intros Hb Hm. destruct qs as [|q qs']; [done|]. injection Hm as <-.
  pose proof (sum_bounds lo hi _ Hb) as [Hlo Hhi].
  pose proof (qnat_pos (length qs')) as Hpos. simpl length in *.
  split.
  - apply Qle_shift_div_l; [done|]. rewrite Qmult_comm. done.
  - apply Qle_shift_div_r; [done|]. rewrite Qmult_comm. done.
Qed.

Lemma omap_rating_all rs :
  (forall r, r ∈ rs -> exists q, rating r = Some q /\ (1 <= q <= 5)%Q) ->
  length (omap rating rs) = length rs /\ Forall (fun q => 1 <= q <= 5)%Q (omap rating rs).
Proof.
  induction rs as [|r rs IH]; intros H; [split; [done|constructor]|].
  destruct (H r) as (q & Hq & Hb); [set_solver|]. rewrite omap_cons, Hq.
  destruct IH as [IHl IHf]; [intros; apply H; set_solver|].
  cbn [length]. split; [by rewrite IHl|by constructor].
Qed.

(** When every review carries a rating in [1, 5] (the schema's [min]
    and [max]), every row of [getTopStores] has an average, and it lies
    in [1, 5]: the two-review filter rules out an empty [$avg]. *)
Theorem getTopStores_bounds db :
  (forall r, r ∈ reviews db -> exists q, rating r = Some q /\ (1 <= q <= 5)%Q) ->
  forall t, t ∈ getTopStores db -> exists a, averageRating t = Some a /\ (1 <= a <= 5)%Q.
Proof.
  intros Hr t Ht. destruct (getTopStores_row db t Ht) as (st & _ & _ & Hrev & Hlen & Havg).
  destruct (omap_rating_all (top_reviews t)) as [Hl Hf].
  { intros r Hin. apply Hr. rewrite Hrev in Hin. by apply list_elem_of_filter in Hin as [_ ?]. }
  destruct (omap rating (top_reviews t)) as [|q qs] eqn:E; [simpl in Hl; lia|].
  rewrite Havg. eexists. split; [reflexivity|].
  eapply mean_bounds; [exact Hf|]. reflexivity.
Qed.

Lemma validate_review_rating r q :
  validate_review r = Ok tt -> rating r = Some q -> (1 <= q <= 5)%Q.
Proof.
  unfold validate_review. intros Hv Hq. rewrite Hq in Hv.
  destruct (Qle_bool 1 q) eqn:H1, (Qle_bool q 5) eqn:H5;
    [|destruct (required_text _); discriminate Hv..].
  apply Qle_bool_iff in H1, H5. lra.
Qed.

Lemma omap_rating_valid rs :
  (forall r, r ∈ rs -> validate_review r = Ok tt) ->
  Forall (fun q => 1 <= q <= 5)%Q (omap rating rs).
Proof.
  intros Hv. apply list.Forall_forall. intros q (r & Hr & Hq)%list_elem_of_omap.
  exact (validate_review_rating r q (Hv r Hr) Hq).
Qed.

(** C36: when every stored review passed the schema's validators, every
    row of [getTopStores] has no average or an average in [1, 5]: the
    rating is not required, so a store whose reviews carry no rating is a
    row with [averageRating] [null], which the spec's integer rating in
    [1, 5] rules out. *)
Theorem valid_reviews_top_average db :
  (forall r, r ∈ reviews db -> validate_review r = Ok tt) ->
  forall t, t ∈ getTopStores db ->
  averageRating t = None \/ exists a, averageRating t = Some a /\ (1 <= a <= 5)%Q.
Proof.
  intros Hv t Ht. destruct (getTopStores_row db t Ht) as (st & _ & _ & Hrev & _ & Havg).
  destruct (averageRating t) as [a|] eqn:Ha; [right|by left].
  exists a. split; [done|]. apply (mean_bounds 1 5 (omap rating (top_reviews t))); [|congruence].
  apply omap_rating_valid. intros r Hr. apply Hv. rewrite Hrev in Hr.
  by apply list_elem_of_filter in Hr as [_ ?].
Qed.

(** ** The example of the spec *)

Definition review_of (id store : oid) (q : Q) : Review :=
  mkReview id 100 9 store (txt "ok"%string) (Some q).

(** Store A (id 0) rated [5, 5], store B (id 1) rated [4]. *)
Definition rated_db : DB :=
  let db := foldl run empty_db [create_named 1 10 "A"; create_named 1 20 "B"] in
  {| stores := stores db;
     reviews := [review_of 10 0 5; review_of 11 0 5; review_of 12 1 4];
     users := users db; next_oid := next_oid db |}.

(** With store A rated [5, 5] and store B rated [4], [getTopStores]
    returns A alone with average 5; B, with one review, is left out
    (spec, section 8, property 5). *)
Theorem getTopStores_example :
  map (fun t => (top_name t, option_map Qred (averageRating t))) (getTopStores rated_db)
  = [(txt "A"%string, Some 5%Q)].
Proof. vm_compute. reflexivity. Qed.

(** ** Witnesses *)

Lemma getTopStores_rows_witness :
  exists t st, t ∈ getTopStores rated_db /\ st ∈ stores rated_db /\
               top_id t = store_id st /\ 2 <= length (top_reviews t).
Proof.
  destruct (getTopStores rated_db) as [|t rest] eqn:E; [refute_eval E|].
  assert (t ∈ getTopStores rated_db) as Ht by (rewrite E; left).
  destruct (getTopStores_rows _ _ Ht) as (st & Hin & Hid & _ & Hlen & _).
  exists t, st. split_and!; [set_solver|done..].
Defined.

Lemma getTopStores_bounds_witness :
  exists t a, t ∈ getTopStores rated_db /\ averageRating t = Some a /\ (1 <= a <= 5)%Q.
Proof.
  destruct (getTopStores rated_db) as [|t rest] eqn:E; [refute_eval E|].
  assert (t ∈ getTopStores rated_db) as Ht by (rewrite E; left).
  destruct (getTopStores_bounds rated_db) with t as (a & Ha & Hb); [|exact Ht|].
  - intros r Hr.
    change (reviews rated_db) with [review_of 10 0 5; review_of 11 0 5; review_of 12 1 4] in Hr.
    rewrite !elem_of_cons, elem_of_nil in Hr.
    destruct Hr as [->|[->|[->|[]]]];
      eexists; (split; [reflexivity|]); lra.
  - exists t, a. split; [set_solver|split; [exact Ha|exact Hb]].
Defined.

(** Store A with two reviews that have no rating. *)
Definition unrated_db : DB :=
  let db := run empty_db (create_named 1 10 "A") in
  {| stores := stores db;
     reviews := [mkReview 10 100 9 0 (txt "ok"%string) None; mkReview 11 100 9 0 (txt "fine"%string) None];
     users := users db; next_oid := next_oid db |}.

Lemma valid_reviews_top_average_witness :
  exists t, t ∈ getTopStores unrated_db /\ averageRating t = None.
Proof.
  destruct (getTopStores unrated_db) as [|t rest] eqn:E; [refute_eval E|].
  assert (t ∈ getTopStores unrated_db) as Ht by (rewrite E; left).
  destruct (valid_reviews_top_average unrated_db) with t as [Hn|(a & Ha & _)]; [|exact Ht| |].
  - intros r Hr. change (reviews unrated_db) with
      [mkReview 10 100 9 0 (txt "ok"%string) None; mkReview 11 100 9 0 (txt "fine"%string) None] in Hr.
    rewrite !elem_of_cons, elem_of_nil in Hr. destruct Hr as [->|[->|[]]]; reflexivity.
  - exists t. split; [left|exact Hn].
  - exfalso. revert Ha. vm_compute in E. injection E as <- _. intros H. vm_compute in H. discriminate H.
Defined.
