(* ===== verification/StorePage.v ===== *)
(** * StorePage: the page of one store, with its author and reviews

    [src/controllers/storeController.js], [getStoreBySlug] (lines
    133-139): [Store.findOne({slug}).populate("author reviews")], then
    [next()] (the 404 handler) when there is no store, and otherwise
    [res.render("store", {store, title: store.name})].
    [src/models/Store.js] declares the virtual [reviews] (lines 136-141:
    the reviews whose [store] is the store's [_id]) and populates it on
    every [find] and [findOne] (lines 143-149); [src/models/Review.js]
    populates the [author] of every review it finds (lines 32-39).  A
    reference to a missing document populates to [null].

    Theorems: the reviews the page shows are the ones the rating
    aggregation joins ([store_reviews_lookup]); following the link of a
    row of [getTopStores] to [/store/<slug>] shows that store, with the
    very reviews whose mean the row displays, when slugs are unique
    ([top_row_page]). *)

From Stdlib Require Import QArith String.
From S2P Require Import Prelude Text Model Store TopStores.

(** [storeSchema.virtual("reviews", {ref: "Review", localField: "_id",
    foreignField: "store"})] *)
Definition store_reviews (db : DB) (st : Store) : list Review :=
  filter (fun r => review_store r = store_id st) (reviews db).

(** A review with its [author] populated. *)
Record ReviewView := mkReviewView { rv_review : Review; rv_author : option User }.

(** [reviewSchema.pre("find", autopopulate)]: [this.populate("author")]. *)
Definition autopopulate_review (db : DB) (r : Review) : ReviewView :=
  mkReviewView r (find_user db (review_author r)).

(** The store document the view receives. *)
Record StorePage := mkStorePage {
  sp_store : Store;
  sp_author : option User;
  sp_reviews : list ReviewView
}.

(** [.populate("author reviews")], the reviews found by [Review.find],
    whose hook populates their authors. *)
Definition populate (db : DB) (st : Store) : StorePage :=
  mkStorePage st (find_user db (author st)) (autopopulate_review db <$> store_reviews db st).

Inductive PageResult :=
| NextHandler
| RenderStore (title : text) (page : StorePage).

(** [getStoreBySlug]'s handler. *)
Definition renderStoreBySlug (db : DB) (s : text) : PageResult :=
  match getStoreBySlug db s with
  | None => NextHandler
  | Some st => RenderStore (name st) (populate db st)
  end.

(** ** Lemmas *)

(** The virtual [reviews] and the [$lookup] of [getTopStores] join the
    same reviews, in the same order. *)
Lemma store_reviews_lookup db st : store_reviews db st = lookup_reviews (reviews db) st.
Proof. reflexivity. Qed.

Lemma populate_reviews db st : rv_review <$> sp_reviews (populate db st) = store_reviews db st.
Proof. simpl. rewrite <-list_fmap_compose. apply list_fmap_id. Qed.

(** A row of [getTopStores] is the projection of a stored store and its
    reviews. *)
Lemma getTopStores_project db t :
  t ∈ getTopStores db ->
  exists st, st ∈ stores db /\ t = project st (lookup_reviews (reviews db) st).
Proof.
  intros Ht. apply (topN_elem _ _ _ _ _ (sort_take_topN _ _ _)) in Ht.
  apply elem_of_top_candidates in Ht as (st & Hin & _ & ->). eauto.
Qed.

(** ** Theorems *)

(** C28: a row of the top stores links to [/store/<slug>]: when slugs are
    unique, that page shows the row's store, titled with its name, with
    exactly the reviews the row averaged, so the page and the ranking
    agree on the rating. *)
Theorem top_row_page db t :
  NoDup (map slug (stores db)) ->
  t ∈ getTopStores db ->
  exists st, renderStoreBySlug db (top_slug t) = RenderStore (name st) (populate db st) /\
    store_id st = top_id t /\
    rv_review <$> sp_reviews (populate db st) = top_reviews t /\
    averageRating t = average_rating (rv_review <$> sp_reviews (populate db st)).
Proof.
  intros Hnd Ht. destruct (getTopStores_project db t Ht) as (st & Hin & ->).
  exists st. unfold renderStoreBySlug. cbn [project top_slug top_id top_reviews averageRating].
  rewrite (getStoreBySlug_unique db st Hnd Hin), populate_reviews, store_reviews_lookup.
  done.
Qed.

(** ** Witnesses *)

Lemma top_row_page_witness :
  exists t st, t ∈ getTopStores rated_db /\
    renderStoreBySlug rated_db (top_slug t) = RenderStore (name st) (populate rated_db st) /\
    rv_review <$> sp_reviews (populate rated_db st) = top_reviews t.
Proof.
  destruct (getTopStores rated_db) as [|t ts] eqn:E; [refute_eval E|].
  destruct (top_row_page rated_db t) as (st & H1 & _ & H3 & _).
  - apply NoDup_ListNoDup. vm_compute. repeat constructor; simpl; intuition discriminate.
  - rewrite E. left.
  - exists t, st. split_and!; [left|exact H1|exact H3].
Defined.
