(* ===== verification/Pagination.v ===== *)
(** * Pagination: the store listing, four stores a page

    [getStores] ([src/controllers/storeController.js], lines 73-95):
    [page = req.params.page || 1], [skip = page * limit - limit] with
    [limit = 4]; the query [Store.find().skip(skip).limit(limit)
    .sort({created: "desc"})] (MongoDB sorts before it skips) and
    [Store.count()]; [pages = Math.ceil(count / limit)]; when the page
    holds no store and [skip] is not 0 the handler redirects to
    [/stores/page/${pages}], otherwise it renders the page.

    The route parameter is a string: [||] replaces only a missing one,
    so ["0"] stays 0 and gives a negative [skip], which MongoDB rejects.
    Page numbers are integers [Z] (a numeric route parameter);
    non-numeric parameters ([NaN]) are not modelled.

    MongoDB sorts by [created] and leaves the order of equal values open,
    in each query anew: [getStores_with] takes the list the sorted query
    produced, [query_order] says which lists it may be, and [getStores]
    is the handler with one of them, the stable sort.

    Theorems: each rendered page is the window of four stores at [skip]
    of the stores sorted by creation date, newest first; the handler
    redirects exactly when the page is past the end; the redirect lands
    on a page that renders (when there is a store); when no two stores
    share a creation time, the pages [1 .. pages] cover the sorted list
    exactly once whatever order each query gives
    ([getStores_pages_cover]); an empty listing redirects to page 0,
    which fails.  [browse] is a browser that follows
    redirects with fuel: two requests always reach a rendered page or an
    error ([browse_terminates]).  [Math.ceil] on the quotient is the
    integer ceiling division ([page_count_ceil]). *)

From Stdlib Require Import QArith Qround ZArith Lqa Lia String.
From S2P Require Import Prelude Text Model Store.

Definition page_limit : Z := 4.

(** [.sort({created: "desc"})] *)
Definition created_desc (a b : Store) : Prop := created b <= created a.

#[export] Instance created_desc_dec : RelDecision created_desc.
Proof. intros a b. unfold created_desc. apply _. Defined.
#[export] Instance created_desc_total : Total created_desc.
Proof. intros a b. unfold created_desc. lia. Qed.
#[export] Instance created_desc_trans : Transitive created_desc.
Proof. intros a b c. unfold created_desc. lia. Qed.

Definition sorted_stores (db : DB) : list Store := merge_sort created_desc (stores db).

(** [Math.ceil(count / limit)] *)
Definition page_count (count : nat) : Z :=
  Qceiling (inject_Z (Z.of_nat count) / inject_Z page_limit).

Inductive StoresView :=
| RenderStores (sts : list Store) (page pages : Z) (count : nat)
| RedirectToPage (page : Z).

(** [req.params.page || 1] *)
Definition page_of_param (param : option Z) : Z := default 1%Z param.

(** [.skip(skip).limit(limit)] after the sort. *)
Definition page_window (skip : Z) (l : list Store) : list Store :=
  take (Z.to_nat page_limit) (drop (Z.to_nat skip) l).

(** The handler, given the list the query's [.sort({created: "desc"})]
    produced.  MongoDB orders the stores by [created] and leaves the order
    of equal [created] values open, and open again in each query. *)
Definition getStores_with (sorted : list Store) (db : DB) (param : option Z)
    : result AppError StoresView :=
  let page := page_of_param param in
  let skip := (page * page_limit - page_limit)%Z in
  if bool_decide (skip < 0)%Z then Err QueryError
  else
    let sts := page_window skip sorted in
    let count := length (stores db) in
    let pages := page_count count in
    if bool_decide (sts = []) && negb (Z.eqb skip 0) then mret (RedirectToPage pages)
    else mret (RenderStores sts page pages count).

(** [getStores] with one order of the stores, the stable sort by
    [created]. *)
Definition getStores (db : DB) (param : option Z) : result AppError StoresView :=
  getStores_with (sorted_stores db) db param.

(** The orders a query may produce: the stores, by [created], newest
    first. *)
Definition query_order (db : DB) (l : list Store) : Prop :=
  l ≡ₚ stores db /\ Sorted created_desc l.

(** The stores a response shows: none for a redirect or an error. *)
Definition shown (r : result AppError StoresView) : list Store :=
  match r with Ok (RenderStores sts _ _ _) => sts | _ => [] end.

(** A browser that follows the redirects of the listing, at most [fuel]
    requests; [None] when the fuel runs out on a redirect. *)
Fixpoint browse (fuel : nat) (db : DB) (p : Z) : option (result AppError StoresView) :=
  match fuel with
  | 0 => None
  | S fuel' =>
      match getStores db (Some p) with
      | Ok (RedirectToPage q) => browse fuel' db q
      | r => Some r
      end
  end.

(** A final answer: a rendered page or an error, not a redirect. *)
Definition final (r : result AppError StoresView) : Prop :=
  forall q, r <> Ok (RedirectToPage q).

(** ** Arithmetic of the page count *)

Lemma page_count_eq c : page_count c = (- (- (Z.of_nat c * 1) / 4))%Z.
Proof. reflexivity. Qed.

(** The page count is the least [n] with [count <= 4 * n]. *)
Lemma page_count_bounds c :
  (4 * page_count c - 4 < Z.of_nat c <= 4 * page_count c)%Z.
Proof.
  rewrite page_count_eq, Z.mul_1_r.
  pose proof (Z.div_mod (- Z.of_nat c) 4 ltac:(lia)).
  pose proof (Z.mod_pos_bound (- Z.of_nat c) 4 ltac:(lia)). lia.
Qed.

Lemma length_sorted_stores db : length (sorted_stores db) = length (stores db).
Proof. unfold sorted_stores. by rewrite merge_sort_Permutation. Qed.

Lemma page_window_nil skip l :
  (0 <= skip)%Z -> page_window skip l = [] <-> (length l <= Z.to_nat skip)%nat.
Proof.
  intros Hs. unfold page_window, page_limit. simpl Z.to_nat.
  rewrite <-length_zero_iff_nil, length_take, length_drop. lia.
Qed.

(** ** The handler on every page number *)

(** A page number of 0 or below makes the query fail. *)
Lemma getStores_nonpositive_step db p : (p <= 0)%Z -> getStores db (Some p) = Err QueryError.
Proof.
  intros Hp. unfold getStores, getStores_with, page_of_param, page_limit. simpl default.
  by rewrite bool_decide_eq_true_2 by lia.
Qed.

(** The handler on a page [p >= 1], for any sorted list of all the
    stores. *)
Lemma getStores_with_page l db p :
  length l = length (stores db) -> (1 <= p)%Z ->
  getStores_with l db (Some p) =
  if bool_decide (1 < p /\ Z.of_nat (length (stores db)) <= 4 * (p - 1))%Z
  then Ok (RedirectToPage (page_count (length (stores db))))
  else Ok (RenderStores (page_window (4 * (p - 1)) l) p
                        (page_count (length (stores db))) (length (stores db))).
Proof.
  intros Hl Hp. unfold getStores_with, page_of_param, page_limit. simpl default.
  rewrite bool_decide_eq_false_2 by lia.
  replace (p * 4 - 4)%Z with (4 * (p - 1))%Z by lia.
  destruct (bool_decide (page_window _ _ = [])) eqn:Hw;
    [apply bool_decide_eq_true in Hw|apply bool_decide_eq_false in Hw];
    rewrite page_window_nil, Hl in Hw by lia;
    destruct (Z.eqb_spec (4 * (p - 1)) 0); simpl;
    case_bool_decide; try reflexivity; lia.
Qed.

Lemma getStores_page db p :
  (1 <= p)%Z ->
  getStores db (Some p) =
  if bool_decide (1 < p /\ Z.of_nat (length (stores db)) <= 4 * (p - 1))%Z
  then Ok (RedirectToPage (page_count (length (stores db))))
  else Ok (RenderStores (page_window (4 * (p - 1)) (sorted_stores db)) p
                        (page_count (length (stores db))) (length (stores db))).
Proof. apply getStores_with_page, length_sorted_stores. Qed.

(** With distinct creation times, every order a query may produce is the
    stable sort. *)
Lemma query_order_unique db l :
  NoDup (map created (stores db)) -> query_order db l -> l = sorted_stores db.
Proof.
  intros Hnd [Hp Hs]. unfold sorted_stores.
  apply (Sorted_unique_strong created_desc).
  - intros x y Hx Hy Hxy Hyx. rewrite Hp in Hx. rewrite merge_sort_Permutation in Hy.
    apply (NoDup_map_same_key created (stores db)); [done|done|done|].
    unfold created_desc in *. lia.
  - exact Hs.
  - exact (Sorted_merge_sort created_desc (stores db)).
  - rewrite Hp. symmetry. apply merge_sort_Permutation.
Qed.

(** C16: on a page [p >= 1] the handler redirects to the last page exactly
    when [p > 1] and the page starts past the last store; otherwise it
    renders the four stores at [skip = 4 (p - 1)] of the stores sorted
    newest first. *)
Theorem getStores_spec db p :
  (1 <= p)%Z ->
  getStores db (Some p) =
  if bool_decide (1 < p /\ Z.of_nat (length (stores db)) <= 4 * (p - 1))%Z
  then Ok (RedirectToPage (page_count (length (stores db))))
  else Ok (RenderStores (page_window (4 * (p - 1)) (sorted_stores db)) p
                        (page_count (length (stores db))) (length (stores db))).
Proof. apply getStores_page. Qed.


(** C40: when there is at least one store, the redirect target
    [page_count count] is a page that renders, and it shows at least one
    store: the redirect cannot loop. *)
Theorem getStores_redirect_lands db :
  (0 < length (stores db))%nat ->
  exists sts, getStores db (Some (page_count (length (stores db)))) =
              Ok (RenderStores sts (page_count (length (stores db)))
                                   (page_count (length (stores db))) (length (stores db))) /\
              sts <> [].
Proof.
  intros Hc. pose proof (page_count_bounds (length (stores db))) as Hb.
  rewrite getStores_page by lia. rewrite bool_decide_eq_false_2 by lia.
  eexists. split; [reflexivity|].
  rewrite page_window_nil, length_sorted_stores by lia. lia.
Qed.

(** With no store at all, every page past the first redirects to page
    0, and page 0 fails: the redirect of an empty listing ends in an
    error. *)
Theorem getStores_empty_listing db p :
  stores db = [] -> (1 < p)%Z ->
  getStores db (Some p) = Ok (RedirectToPage 0) /\ getStores db (Some 0%Z) = Err QueryError.
Proof.
  intros He Hp. split; [|reflexivity].
  rewrite getStores_page by lia. rewrite He. simpl length.
  rewrite bool_decide_eq_true_2 by lia. reflexivity.
Qed.

(** C17: when no two stores have the same creation time, the pages
    [1 .. pages] that the listing links to show, one after the other,
    every store exactly once, newest first, whatever order each page's
    query gives among the orders by [created]. *)
Theorem getStores_pages_cover db (ord : nat -> list Store) :
  NoDup (map created (stores db)) ->
  (forall i, query_order db (ord i)) ->
  concat (map (fun i => shown (getStores_with (ord i) db (Some (Z.of_nat i))))
              (seq 1 (Z.to_nat (page_count (length (stores db))))))
  = sorted_stores db.
Proof.
  intros Hnd Hord. pose proof (page_count_bounds (length (stores db))) as Hb.
  set (n := Z.to_nat (page_count (length (stores db)))).
  rewrite <-seq_shift, map_map.
  rewrite (map_ext_in _ (fun j => take 4 (drop (4 * j) (sorted_stores db)))).
  - rewrite concat_windows, take_ge; [done|]. rewrite length_sorted_stores. lia.
  - intros j Hj%in_seq. rewrite (query_order_unique db (ord (S j))) by auto.
    rewrite getStores_with_page by (rewrite ?length_sorted_stores; lia).
    rewrite bool_decide_eq_false_2 by lia. simpl. unfold page_window, page_limit.
    do 2 f_equal. lia.
Qed.

(** The redirect target renders when there is a store. *)
Lemma getStores_last_page db :
  (0 < length (stores db))%nat ->
  getStores db (Some (page_count (length (stores db)))) =
  Ok (RenderStores (page_window (4 * (page_count (length (stores db)) - 1)) (sorted_stores db))
                   (page_count (length (stores db))) (page_count (length (stores db)))
                   (length (stores db))).
Proof.
  intros Hc. pose proof (page_count_bounds (length (stores db))) as Hb.
  rewrite getStores_page by lia. by rewrite bool_decide_eq_false_2 by lia.
Qed.

Lemma browse_S fuel db p :
  browse (S fuel) db p =
  match getStores db (Some p) with
  | Ok (RedirectToPage q) => browse fuel db q
  | r => Some r
  end.
Proof. done. Qed.

(** [Math.ceil(count / limit)], computed on the quotient, is the
    integer ceiling division [(count + 3) / 4]. *)
Theorem page_count_ceil c : page_count c = ((Z.of_nat c + 3) / 4)%Z.
Proof.
  pose proof (page_count_bounds c) as Hb.
  pose proof (Z.div_mod (Z.of_nat c + 3) 4 ltac:(lia)).
  pose proof (Z.mod_pos_bound (Z.of_nat c + 3) 4 ltac:(lia)). lia.
Qed.

(** C18: following the listing's redirects terminates: from any page, a
    browser with two or more requests of fuel ends on a rendered page or
    an error, never on the fuel running out.  With at least one store and
    a page [p >= 1] it ends on a rendered page. *)
Theorem browse_terminates db p fuel :
  (2 <= fuel)%nat ->
  exists r, browse fuel db p = Some r /\ final r /\
    ((0 < length (stores db))%nat -> (1 <= p)%Z -> exists sts pg pages c, r = Ok (RenderStores sts pg pages c)).
Proof.
  intros Hf. destruct fuel as [|[|fuel]]; [lia|lia|]. rewrite browse_S.
  destruct (decide (1 <= p)%Z) as [Hp|Hp].
  - rewrite getStores_page by done. case_bool_decide as Hr.
    + rewrite browse_S. destruct (decide (0 < length (stores db))%nat) as [Hc|Hc].
      * rewrite getStores_last_page by done. eexists. split; [done|].
        split; [by intros q|eauto 10].
      * assert (length (stores db) = 0%nat) as H0 by lia. rewrite H0.
        change (page_count 0) with 0%Z. rewrite getStores_nonpositive_step by lia.
        eexists. split; [done|]. split; [by intros q|lia].
    + eexists. split; [done|]. split; [by intros q|eauto 10].
  - rewrite getStores_nonpositive_step by lia. eexists. split; [done|].
    split; [by intros q|lia].
Qed.

(** ** The example of the spec *)

Definition three_stores_db : DB :=
  foldl run empty_db [create_named 1 10 "A"; create_named 1 20 "B"; create_named 1 30 "C"].

(** With three stores and four a page, page 2 is empty and past the
    end, so the handler redirects to page 1 (spec, section 8, property
    7). *)
Theorem getStores_example : getStores three_stores_db (Some 2%Z) = Ok (RedirectToPage 1%Z).
Proof. vm_compute. reflexivity. Qed.

(** ** Witnesses *)

Lemma getStores_spec_witness :
  getStores three_stores_db (Some 1%Z) =
  Ok (RenderStores (page_window 0 (sorted_stores three_stores_db)) 1 1 3).
Proof. rewrite getStores_spec by lia. vm_compute. reflexivity. Defined.


Lemma getStores_redirect_lands_witness :
  exists sts, getStores three_stores_db (Some 1%Z) = Ok (RenderStores sts 1 1 3) /\ sts <> [].
Proof. apply (getStores_redirect_lands three_stores_db). vm_compute. lia. Defined.

Lemma getStores_empty_listing_witness :
  getStores empty_db (Some 3%Z) = Ok (RedirectToPage 0) /\ getStores empty_db (Some 0%Z) = Err QueryError.
Proof. apply getStores_empty_listing; [reflexivity|lia]. Defined.

Lemma browse_terminates_witness :
  exists r, browse 2 three_stores_db 5 = Some r /\ final r.
Proof.
  destruct (browse_terminates three_stores_db 5 2) as (r & Hr & Hf & _); [lia|].
  exists r. split; [exact Hr|exact Hf].
Defined.

Lemma getStores_pages_cover_witness :
  concat (map (fun i => shown (getStores_with (sorted_stores three_stores_db) three_stores_db
                                              (Some (Z.of_nat i))))
              (seq 1 (Z.to_nat (page_count (length (stores three_stores_db))))))
  = sorted_stores three_stores_db.
Proof.
  apply (getStores_pages_cover three_stores_db (fun _ => sorted_stores three_stores_db)).
  - vm_compute. repeat constructor; set_solver.
  - intros _. split; [apply merge_sort_Permutation|exact (Sorted_merge_sort created_desc _)].
Defined.
