(* ===== verification/Queries.v ===== *)
(** * Queries: the nearby-stores and the full-text search endpoints

    [mapStores] ([src/controllers/storeController.js], lines 173-192):
    parse [lng] and [lat] with [parseFloat], query
    [{location: {$near: {$geometry: Point, $maxDistance: 10000}}}], keep
    the fields [slug name description location photo], at most 10 stores.
    [searchStores] (lines 150-171): [{$text: {$search: q}}] with the
    projection [score: {$meta: "textScore"}], sorted by that score,
    at most 5 stores.

    Both rankings are computed by the datastore's indexes: the spherical
    distance of the [2dsphere] index and the relevance score of the text
    index.  They are the interfaces [GeoIndex] and [TextIndex] (type
    classes): the handlers' theorems are proved for any instance, and the
    witnesses use small concrete ones.  A missing or unparsable parameter
    ([parseFloat] gives [NaN], [req.query.q] is [undefined]) is [None];
    MongoDB rejects such a query.

    Theorems: [mapStores] returns the (at most) ten nearest stores within
    10 km, nearest first ([mapStores_near]); [searchStores] the (at most)
    five best-scoring matching stores, best first ([searchStores_ranked]).
    A missing parameter ends in [QueryError] by definition. *)

From Stdlib Require Import QArith Qabs String.
From S2P Require Import Prelude Text Model Store.

(** ** The datastore's indexes *)

(** A point as [(longitude, latitude)]. *)
Abbreviation point := (Q * Q)%type.

(** The [2dsphere] index: the distance in metres between two points. *)
Class GeoIndex := geo_distance : point -> point -> Q.

(** The text index on [name] and [description]: the relevance score of a
    store for a search string, [None] when it does not match. *)
Class TextIndex := text_score : text -> Store -> option Q.

(** ** [mapStores] *)

Definition store_point (st : Store) : option point :=
  match coordinates (location st) with
  | [lng; lat] => Some (lng, lat)
  | _ => None
  end.

(** [.select("slug name description location photo")] (and [_id]). *)
Record MapStore := mkMapStore {
  map_id : oid;
  map_slug : text;
  map_name : text;
  map_description : option text;
  map_location : Location;
  map_photo : option text
}.

Definition select_map (st : Store) : MapStore :=
  {| map_id := store_id st; map_slug := slug st; map_name := name st;
     map_description := description st; map_location := location st;
     map_photo := photo st |}.

Definition max_distance : Q := 10000.

(** A valid query point: the [$geometry] of [$near] must be a GeoJSON
    point with longitude in [-180, 180] and latitude in [-90, 90]. *)
Definition valid_point (p : point) : bool :=
  Qle_bool (-180) p.1 && Qle_bool p.1 180 && Qle_bool (-90) p.2 && Qle_bool p.2 90.

Section Near.
Context {GI : GeoIndex}.

(** The stores within [$maxDistance] of [p], with their distance. *)
Definition near_candidates (p : point) (db : DB) : list (Q * Store) :=
  omap (fun st => match store_point st with
                  | Some q => if Qle_bool (geo_distance q p) max_distance
                              then Some (geo_distance q p, st) else None
                  | None => None
                  end) (stores db).

(** [$near] sorts by increasing distance. *)
Definition dist_asc (a b : Q * Store) : Prop := (a.1 <= b.1)%Q.

#[global] Instance dist_asc_dec : RelDecision dist_asc.
Proof.
  intros a b. unfold dist_asc.
  destruct (Qlt_le_dec b.1 a.1) as [H|H]; [right; by apply Qlt_not_le|by left].
Defined.
#[global] Instance dist_asc_total : Total dist_asc.
Proof.
  intros a b. unfold dist_asc.
  destruct (Qlt_le_dec a.1 b.1) as [H|H]; [left; by apply Qlt_le_weak|by right].
Qed.
#[global] Instance dist_asc_trans : Transitive dist_asc.
Proof. intros a b c. unfold dist_asc. apply Qle_trans. Qed.

Definition mapStores (db : DB) (lng lat : option Q) : result AppError (list MapStore) :=
  match lng, lat with
  | Some x, Some y =>
      if valid_point (x, y) then
        mret (select_map ∘ snd <$> sort_take dist_asc 10 (near_candidates (x, y) db))
      else Err QueryError
  | _, _ => Err QueryError
  end.
End Near.

(** ** [searchStores] *)

Section Search.
Context {TI : TextIndex}.

Definition search_candidates (q : text) (db : DB) : list (Q * Store) :=
  omap (fun st => (fun s => (s, st)) <$> text_score q st) (stores db).

(** [.sort({score: {$meta: "textScore"}})]: best score first. *)
Definition score_desc (a b : Q * Store) : Prop := (b.1 <= a.1)%Q.

#[global] Instance score_desc_dec : RelDecision score_desc.
Proof.
  intros a b. unfold score_desc.
  destruct (Qlt_le_dec a.1 b.1) as [H|H]; [right; by apply Qlt_not_le|by left].
Defined.
#[global] Instance score_desc_total : Total score_desc.
Proof.
  intros a b. unfold score_desc.
  destruct (Qlt_le_dec a.1 b.1) as [H|H]; [right; by apply Qlt_le_weak|by left].
Qed.
#[global] Instance score_desc_trans : Transitive score_desc.
Proof. intros a b c. unfold score_desc. intros H1 H2. by apply (Qle_trans _ b.1). Qed.

(** The response: the stores with their [score]. *)
Definition searchStores (db : DB) (q : option text) : result AppError (list (Q * Store)) :=
  match q with
  | Some s => mret (sort_take score_desc 5 (search_candidates s db))
  | None => Err QueryError
  end.
End Search.

(** ** Theorems *)

Section NearTheory.
Context {GI : GeoIndex}.

Lemma elem_of_near_candidates p db d st :
  (d, st) ∈ near_candidates p db <->
  st ∈ stores db /\ exists q, store_point st = Some q /\ d = geo_distance q p /\
                             (d <= max_distance)%Q.
Proof.
  unfold near_candidates. rewrite list_elem_of_omap. split.
  - intros (st' & Hin & Heq).
    destruct (store_point st') as [q|] eqn:Hp; [|done].
    destruct (Qle_bool _ _) eqn:Hle; [|done]. injection Heq as <- <-.
    split; [done|]. exists q. split_and!; [done|done|]. by apply Qle_bool_iff.
  - intros (Hin & q & Hp & -> & Hle). exists st. split; [done|].
    rewrite Hp. apply Qle_bool_iff in Hle. by rewrite Hle.
Qed.

(** C23: on a valid point, [mapStores] returns the [select]ed fields of a
    list of (distance, store) pairs that meets the top-10 contract for
    increasing distance over the stores within 10 km: every returned store
    is a stored store at most 10000 m away, the list is nearest first,
    holds at most 10 stores, and every store within 10 km left out is at
    least as far as every store returned (spec, section 8, property 4). *)
Theorem mapStores_near db x y res :
  mapStores db (Some x) (Some y) = Ok res ->
  exists ranked, res = select_map ∘ snd <$> ranked /\
    topN dist_asc 10 (near_candidates (x, y) db) ranked /\
    Forall (fun p => p.2 ∈ stores db /\ (p.1 <= max_distance)%Q) ranked.
Proof.
  unfold mapStores. destruct (valid_point _); [|done]. intros [= <-].
  eexists. split; [reflexivity|]. split; [solve_ranked|].
  apply Forall_forall. intros [d st] Hin%(topN_elem _ _ _ _ _ (sort_take_topN _ _ _)).
  apply elem_of_near_candidates in Hin as (Hst & q & _ & -> & Hle). done.
Qed.
End NearTheory.

Section SearchTheory.
Context {TI : TextIndex}.

Lemma elem_of_search_candidates q db s st :
  (s, st) ∈ search_candidates q db <-> st ∈ stores db /\ text_score q st = Some s.
Proof.
  unfold search_candidates. rewrite list_elem_of_omap. split.
  - intros (st' & Hin & Heq). destruct (text_score q st') eqn:E; [|done].
    injection Heq as <- <-. done.
  - intros (Hin & Hs). exists st. rewrite Hs. done.
Qed.

(** C27: [searchStores] returns a list of (score, store) pairs that meets
    the top-5 contract for decreasing relevance over the matching stores:
    each is a stored store with its score, best first, at most 5, and
    every match left out scores no higher than every store returned. *)
Theorem searchStores_ranked db q res :
  searchStores db (Some q) = Ok res ->
  topN score_desc 5 (search_candidates q db) res /\
  forall s st, (s, st) ∈ res -> st ∈ stores db /\ text_score q st = Some s.
Proof.
  simpl. intros [= <-]. split; [solve_ranked|].
  intros s st Hin%(topN_elem _ _ _ _ _ (sort_take_topN _ _ _)).
  by apply elem_of_search_candidates.
Qed.
End SearchTheory.

(** ** Witnesses, with small concrete indexes *)

(** A stand-in metric: the taxicab distance in degrees, in units of 100 km. *)
Definition taxicab_index : GeoIndex :=
  fun p q => ((Qabs (p.1 - q.1) + Qabs (p.2 - q.2)) * 100000)%Q.

(** A stand-in text index: a store matches when the search text is a
    prefix of its lower-cased name, with the length of the text as score. *)
Definition prefix_index : TextIndex :=
  fun q st => if bool_decide (prefix q (lower (name st))) then Some (inject_Z (Z.of_nat (length q)))
              else None.

Lemma mapStores_near_witness :
  exists res (ranked : list (Q * Store)),
    @mapStores taxicab_index db_cafe2 (Some (-798 # 10)%Q) (Some (432 # 10)%Q) = Ok res /\
    res = select_map ∘ snd <$> ranked /\ length ranked = 2.
Proof.
  destruct (@mapStores taxicab_index db_cafe2 (Some (-798 # 10)%Q) (Some (432 # 10)%Q))
    as [res|] eqn:E; [|refute_eval E].
  destruct (mapStores_near _ _ _ _ E) as (ranked & -> & (_ & Hlen & _) & _).
  exists (select_map ∘ snd <$> ranked), ranked. split_and!; [reflexivity|reflexivity|].
  rewrite Hlen. vm_compute. reflexivity.
Defined.

Lemma searchStores_ranked_witness :
  exists res, @searchStores prefix_index db_cafe2 (Some (txt "caf"%string)) = Ok res /\
              length res = 2 /\ Forall (fun p => p.2 ∈ stores db_cafe2) res.
Proof.
  destruct (@searchStores prefix_index db_cafe2 (Some (txt "caf"%string))) as [res|] eqn:E;
    [|refute_eval E].
  destruct (searchStores_ranked _ _ _ E) as ((_ & Hlen & _) & Hin).
  exists res. split_and!; [reflexivity| |].
  - rewrite Hlen. vm_compute. reflexivity.
  - apply Forall_forall. intros [s st] Hp. apply (Hin s st Hp).
Defined.
