(* ===== verification/Hearts.v ===== *)
(** * Hearts: the favourite-store toggle and the hearted-stores page

    [heartStore] ([src/controllers/storeController.js], lines 198-209)
    reads the logged-in user's [hearts] ([req.user], loaded when the
    request starts), picks [$pull] when the store id is among them and
    [$addToSet] otherwise, and applies that operator to the user document
    with [findByIdAndUpdate]; [hearts] (lines 211-220) lists the stores
    whose id is in [req.user.hearts].

    The decision is taken on the request's copy of the user and the write
    goes to the datastore, so two requests can interleave: [heart_race]
    runs two toggles whose reads both come before both writes.

    Theorems: one toggle flips exactly the membership of the store id
    ([heartStore_toggle]) and keeps hearts duplicate-free; two sequential
    toggles restore the hearts up to order ([heartStore_twice]); two
    interleaved toggles both add, so the store ends hearted once
    ([heart_race]); the page lists exactly the hearted stores. *)

From Stdlib Require Import QArith String.
From S2P Require Import Prelude Text Model Store.

(** The two update operators of line 202. *)
Inductive HeartOp := Pull | AddToSet.

Definition heart_operator (hs : list oid) (id : oid) : HeartOp :=
  if bool_decide (id ∈ hs) then Pull else AddToSet.

(** [$pull] removes every occurrence; [$addToSet] appends the id when it
    is absent. *)
Definition apply_heart_op (op : HeartOp) (id : oid) (hs : list oid) : list oid :=
  match op with
  | Pull => filter (fun h => h <> id) hs
  | AddToSet => if bool_decide (id ∈ hs) then hs else hs ++ [id]
  end.

Definition set_hearts (u : User) (hs : list oid) : User :=
  {| user_id := user_id u; email := email u; user_name := user_name u;
     resetPasswordToken := resetPasswordToken u;
     resetPasswordExpires := resetPasswordExpires u; hearts := hs;
     user_password := user_password u |}.

(** [User.findByIdAndUpdate(req.user._id, {[operator]: {hearts: id}},
    {new: true})]: the write, with the operator already chosen.  [None]
    is the [null] sent when no user has the id. *)
Definition heart_write (db : DB) (uid : oid) (op : HeartOp) (sid : oid) : DB * option User :=
  match find_user db uid with
  | None => (db, None)
  | Some u => let u' := set_hearts u (apply_heart_op op sid (hearts u)) in
              (replace_user db u', Some u')
  end.

(** [heartStore]: the operator is chosen from the request's copy [me] of
    the user. *)
Definition heartStore (db : DB) (me : User) (sid : oid) : DB * option User :=
  heart_write db (user_id me) (heart_operator (hearts me) sid) sid.

(** [Store.find({_id: {$in: req.user.hearts}})] *)
Definition heartedStores (db : DB) (me : User) : list Store :=
  filter (fun st => store_id st ∈ hearts me) (stores db).

(** ** The operators on the hearts list *)

Lemma elem_of_toggle hs sid h :
  h ∈ apply_heart_op (heart_operator hs sid) sid hs <->
  (h = sid /\ sid ∉ hs) \/ (h <> sid /\ h ∈ hs).
Proof.
  unfold heart_operator. destruct (decide (sid ∈ hs)) as [Hin|Hin].
  - rewrite bool_decide_eq_true_2 by done. simpl.
    rewrite list_elem_of_filter. naive_solver.
  - rewrite bool_decide_eq_false_2 by done. simpl.
    rewrite bool_decide_eq_false_2 by done. rewrite elem_of_app, list_elem_of_singleton.
    destruct (decide (h = sid)); naive_solver.
Qed.

Lemma apply_heart_op_NoDup op sid hs : NoDup hs -> NoDup (apply_heart_op op sid hs).
Proof.
  intros Hnd. destruct op; simpl; [by apply NoDup_filter|].
  case_bool_decide; [done|]. apply NoDup_app. split_and!; [done| |by apply NoDup_singleton].
  intros x Hx ->%list_elem_of_singleton. done.
Qed.

(** The write when the user exists. *)
Lemma heartStore_found db me sid u :
  find_user db (user_id me) = Some u ->
  heartStore db me sid =
  (replace_user db (set_hearts u (apply_heart_op (heart_operator (hearts me) sid) sid (hearts u))),
   Some (set_hearts u (apply_heart_op (heart_operator (hearts me) sid) sid (hearts u)))).
Proof. unfold heartStore, heart_write. by intros ->. Qed.

Lemma heart_write_Some db uid op sid db' u' :
  heart_write db uid op sid = (db', Some u') ->
  exists u, find_user db uid = Some u /\ u' = set_hearts u (apply_heart_op op sid (hearts u)) /\
            db' = replace_user db u' /\ user_id u' = uid.
Proof.
  unfold heart_write. destruct (find_user db uid) as [u|] eqn:Hf; [|done].
  intros [= <- <-]. exists u. split_and!; try done.
  unfold find_user in Hf. apply find_some in Hf as [_ Hid]. by apply Nat.eqb_eq in Hid.
Qed.

(** ** One toggle *)

(** C19: when the request's copy of the user is up to date, [heartStore]
    flips the membership of the store id and of nothing else, keeps the
    hearts free of duplicates, and the stored user is the one returned. *)
Theorem heartStore_toggle db me u sid db' u' :
  find_user db (user_id me) = Some u -> hearts me = hearts u ->
  heartStore db me sid = (db', Some u') ->
  (forall h, h ∈ hearts u' <-> (h = sid /\ sid ∉ hearts u) \/ (h <> sid /\ h ∈ hearts u)) /\
  (NoDup (hearts u) -> NoDup (hearts u')) /\
  find_user db' (user_id me) = Some u'.
Proof.
  intros Hf Hme Hh. apply heart_write_Some in Hh as (u0 & Hf0 & -> & -> & Hid).
  rewrite Hf in Hf0. injection Hf0 as <-. rewrite Hme in *. simpl. split_and!.
  - intros h. apply elem_of_toggle.
  - apply apply_heart_op_NoDup.
  - rewrite <-Hid. apply (find_user_replace _ u). by rewrite Hid.
Qed.

(** ** Two toggles *)

Lemma perm_pull_out (x : oid) l :
  NoDup l -> x ∈ l -> l ≡ₚ x :: filter (fun h => h <> x) l.
Proof.
  induction l as [|y l IH]; intros Hnd Hin; [set_solver|].
  apply NoDup_cons in Hnd as [Hy Hnd]. rewrite filter_cons.
  destruct (decide (y = x)) as [->|Hne].
  - rewrite decide_False by naive_solver. f_equiv. rewrite filter_all; [done|].
    intros z Hz ->. done.
  - rewrite decide_True by done. rewrite Permutation_swap. f_equiv.
    apply IH; [done|set_solver].
Qed.

Lemma toggle_twice hs sid :
  NoDup hs ->
  apply_heart_op (heart_operator (apply_heart_op (heart_operator hs sid) sid hs) sid) sid
                 (apply_heart_op (heart_operator hs sid) sid hs) ≡ₚ hs.
Proof.
  intros Hnd. unfold heart_operator. destruct (decide (sid ∈ hs)) as [Hin|Hin].
  - rewrite (bool_decide_eq_true_2 (sid ∈ hs)) by done. simpl.
    rewrite !bool_decide_eq_false_2 by (rewrite list_elem_of_filter; naive_solver).
    simpl. rewrite bool_decide_eq_false_2 by (rewrite list_elem_of_filter; naive_solver).
    rewrite Permutation_app_comm. symmetry. by apply perm_pull_out.
  - rewrite (bool_decide_eq_false_2 (sid ∈ hs)) by done. simpl.
    rewrite (bool_decide_eq_false_2 (sid ∈ hs)) by done.
    rewrite bool_decide_eq_true_2 by set_solver. simpl.
    rewrite filter_app, filter_cons_False, filter_nil by naive_solver. rewrite app_nil_r.
    apply reflexive_eq, filter_all. intros x Hx ->. done.
Qed.

Lemma heartStore_Some db me sid db' u' :
  heartStore db me sid = (db', Some u') ->
  exists u, find_user db (user_id me) = Some u /\
    hearts u' = apply_heart_op (heart_operator (hearts me) sid) sid (hearts u) /\
    db' = replace_user db u' /\ user_id u' = user_id me.
Proof. intros H. apply heart_write_Some in H as (u & Hf & -> & -> & Hid). eauto 10. Qed.

(** A second toggle, by a request that reloads the user after the
    first one, restores the hearts (up to order: a store hearted again
    goes to the end). *)
Theorem heartStore_twice db me u sid db1 u1 db2 u2 :
  find_user db (user_id me) = Some u -> hearts me = hearts u -> NoDup (hearts u) ->
  heartStore db me sid = (db1, Some u1) ->
  heartStore db1 u1 sid = (db2, Some u2) ->
  hearts u2 ≡ₚ hearts u.
Proof.
  intros Hf Hme Hnd H1 H2.
  destruct (heartStore_Some _ _ _ _ _ H1) as (u0 & Hf0 & Hh1 & -> & Hid1).
  rewrite Hf in Hf0. injection Hf0 as <-.
  destruct (heartStore_Some _ _ _ _ _ H2) as (u1' & Hf1 & Hh2 & _ & _).
  rewrite (find_user_replace db u u1) in Hf1 by (by rewrite Hid1). injection Hf1 as <-.
  rewrite Hh2, Hh1, Hme. by apply toggle_twice.
Qed.

Lemma apply_heart_op_idem op sid hs :
  apply_heart_op op sid (apply_heart_op op sid hs) = apply_heart_op op sid hs.
Proof.
  destruct op; simpl.
  - apply filter_all. intros x Hx%list_elem_of_filter. apply Hx.
  - destruct (decide (sid ∈ hs)) as [Hin|Hin].
    + rewrite (bool_decide_eq_true_2 (sid ∈ hs)) by done. by rewrite bool_decide_eq_true_2.
    + rewrite (bool_decide_eq_false_2 (sid ∈ hs)) by done.
      rewrite bool_decide_eq_true_2; [done|set_solver].
Qed.

(** C20: two toggles that interleave, both reading the user before either
    writes, choose the same operator; the second write changes nothing,
    so two clicks count as one and, [$addToSet] being idempotent, no
    store is hearted twice. *)
Theorem heart_race db me u sid db1 u1 db2 u2 :
  find_user db (user_id me) = Some u -> hearts me = hearts u ->
  heartStore db me sid = (db1, Some u1) ->
  heartStore db1 me sid = (db2, Some u2) ->
  hearts u2 = hearts u1 /\ (NoDup (hearts u) -> NoDup (hearts u2)).
Proof.
  intros Hf Hme H1 H2.
  destruct (heartStore_Some _ _ _ _ _ H1) as (u0 & Hf0 & Hh1 & -> & Hid1).
  rewrite Hf in Hf0. injection Hf0 as <-.
  destruct (heartStore_Some _ _ _ _ _ H2) as (u1' & Hf1 & Hh2 & _ & _).
  rewrite <-Hid1, (find_user_replace db u u1) in Hf1 by (by rewrite Hid1). injection Hf1 as <-.
  assert (hearts u2 = hearts u1) as Heq.
  { rewrite Hh2, Hh1, Hme. apply apply_heart_op_idem. }
  split; [done|]. intros Hnd. rewrite Heq, Hh1. by apply apply_heart_op_NoDup.
Qed.

(** The hearted-stores page lists exactly the stored stores whose id
    the user has hearted, in natural order. *)
Theorem heartedStores_spec db me st :
  st ∈ heartedStores db me <-> st ∈ stores db /\ store_id st ∈ hearts me.
Proof. unfold heartedStores. rewrite list_elem_of_filter. tauto. Qed.

(** ** Witnesses *)

Definition ann : User :=
  mkUser 5 (txt "ann@example.com"%string) (txt "Ann"%string) None None [] None.

Definition hearts_db : DB :=
  {| stores := stores db_cafe2; reviews := []; users := [ann]; next_oid := next_oid db_cafe2 |}.

Lemma heartStore_toggle_witness :
  exists db' u', heartStore hearts_db ann 1 = (db', Some u') /\ 1 ∈ hearts u' /\ NoDup (hearts u').
Proof.
  destruct (heartStore hearts_db ann 1) as [db' [u'|]] eqn:E; [|refute_eval E].
  destruct (heartStore_toggle hearts_db ann ann 1 db' u') as (Hm & Hnd & _);
    [reflexivity|reflexivity|exact E|].
  exists db', u'. split_and!; [reflexivity| |].
  - apply Hm. left. split; [done|set_solver].
  - apply Hnd. constructor.
Defined.


Lemma heart_race_witness :
  let '(db1, u1) := heartStore hearts_db ann 1 in
  match u1 with
  | Some u1 => match heartStore db1 ann 1 with
               | (_, Some u2) => hearts u2 = hearts u1
               | _ => False end
  | None => False
  end.
Proof.
  destruct (heartStore hearts_db ann 1) as [db1 [u1|]] eqn:E1; [|vm_compute in E1; discriminate E1].
  destruct (heartStore db1 ann 1) as [db2 [u2|]] eqn:E2.
  - apply (heart_race hearts_db ann ann 1 db1 u1 db2 u2); [reflexivity|reflexivity|exact E1|exact E2].
  - revert E2. vm_compute in E1. injection E1 as <- <-. vm_compute. discriminate.
Defined.
