(* ===== verification/Auth.v ===== *)
(** * Auth: login and the password-reset flow

    [src/controllers/authController.js]: [login] (lines 15-20) is
    passport's local strategy of passport-local-mongoose, which finds the
    user of the address and compares the stored hash; [logout] (lines
    22-26) clears the session; [isLoggedIn] (lines 28-37) guards a route.
    [forgot] (lines 39-63) looks the
    user up by e-mail, stores a fresh token and the expiry
    [Date.now() + 3600000], saves, mails the reset link and redirects to
    [/login]; [reset] (lines 65-77) shows the reset form when a user has
    the token with an expiry in the future; the POST of that form runs
    [confirmedPasswords] (lines 79-87) and then [update] (lines 89-108),
    which sets the password, clears the token and the expiry, saves and
    logs the user in.

    The effects of a handler are collected in an [Outcome]: the database
    after it, the responses sent in order, the mails sent, the user logged
    in and whether it ends normally.  Express allows one response per
    request; a second one is an error ([ERR_HTTP_HEADERS_SENT]) that the
    model keeps visible as a second element of [out_sent].  The token
    ([crypto.randomBytes]) and the clock ([Date.now()], in milliseconds)
    are arguments; the password hash of passport-local-mongoose is a
    function [hash] of the section [Flow].  [forgot] takes the [Host]
    header of the request, from which the link of the mail is built
    (lines 51-53).  [serializeUser] and [deserializeUser] are the session
    of [src/handlers/passport.js]: passport-local-mongoose keeps the
    [usernameField], the address, and finds the user by it on each
    request.

    Theorems: a password changes only through a matching, unexpired token
    and confirmed passwords; a successful reset clears the token of its
    user and touches no other user; a token issued by [forgot] works for
    one hour and not after; after a reset, login succeeds with the new
    password and fails with any other hash ([reset_then_login]); an
    invalid token makes [reset] and [update] send a response and go on
    (two responses, a dereference of [null]). *)

From Stdlib Require Import QArith ZArith Lia String.
From S2P Require Import Prelude Text Model Store.

Inductive Response :=
| Redirect (to : text)
| Render (view : text).

(** The options of [mail.send] (lines 54-59). *)
Record Mail := mkMail {
  mail_user : User;
  mail_filename : text;
  mail_subject : text;
  mail_resetUrl : text
}.

(** [`http://${req.headers.host}/account/reset/${user.resetPasswordToken}`]:
    the host is the one the request names. *)
Definition reset_url (host tok : text) : text :=
  txt "http://" ++ host ++ txt "/account/reset/" ++ tok.

Definition reset_mail (u : User) (url : text) : Mail :=
  mkMail u (txt "password-reset") (txt "Password Reset") url.

Record Outcome := mkOutcome {
  out_db : DB;
  out_sent : list Response;
  out_mail : list Mail;
  out_login : option oid;
  out_status : result AppError unit
}.

Definition reset_window : Z := 3600000.

(** [{resetPasswordToken: token, resetPasswordExpires: {$gt: now}}] *)
Definition token_valid (t : text) (now : Z) (u : User) : bool :=
  bool_decide (resetPasswordToken u = Some t) &&
  match resetPasswordExpires u with Some e => Z.ltb now e | None => false end.

Definition find_reset_user (db : DB) (t : text) (now : Z) : option User :=
  find (token_valid t now) (users db).

(** [User.findOne({email})] *)
Definition find_by_email (db : DB) (em : text) : option User :=
  find (fun u => bool_decide (email u = em)) (users db).

Definition set_reset (u : User) (tok : option text) (exp : option Z) (pw : option text) : User :=
  {| user_id := user_id u; email := email u; user_name := user_name u;
     resetPasswordToken := tok; resetPasswordExpires := exp; hearts := hearts u;
     user_password := pw |}.

Definition to_login := txt "/login"%string.

Section Flow.
Context (hash : text -> text).

Definition forgot (db : DB) (host em tok : text) (now : Z) : Outcome :=
  match find_by_email db em with
  | None => mkOutcome db [Redirect to_login] [] None (Ok tt)
  | Some u =>
      let u' := set_reset u (Some tok) (Some (now + reset_window)%Z) (user_password u) in
      mkOutcome (replace_user db u') [Redirect to_login] [reset_mail u' (reset_url host tok)] None (Ok tt)
  end.

(** No [return] after the redirect: the form is rendered as well. *)
Definition reset (db : DB) (t : text) (now : Z) : Outcome :=
  match find_reset_user db t now with
  | None => mkOutcome db [Redirect to_login; Render (txt "reset")] [] None (Ok tt)
  | Some _ => mkOutcome db [Render (txt "reset")] [] None (Ok tt)
  end.

Definition confirmedPasswords (pw confirm : text) : bool := bool_decide (pw = confirm).

(** No [return] after the redirect: [user.setPassword] is then read on
    [null], a [TypeError]. *)
Definition update (db : DB) (t : text) (now : Z) (pw : text) : Outcome :=
  match find_reset_user db t now with
  | None => mkOutcome db [Redirect to_login] [] None (Err NullDeref)
  | Some u =>
      let u' := set_reset u None None (Some (hash pw)) in
      mkOutcome (replace_user db u') [Redirect (txt "/")] [] (Some (user_id u')) (Ok tt)
  end.

(** [POST /account/reset/:token]: [confirmedPasswords], then [update]. *)
Definition resetPassword (db : DB) (t : text) (now : Z) (pw confirm : text) : Outcome :=
  if confirmedPasswords pw confirm then update db t now pw
  else mkOutcome db [Redirect (txt "back")] [] None (Ok tt).

(** The local strategy of passport-local-mongoose ([usernameField:
    "email"]): the user of the address, when its stored hash is the hash
    of the password given. *)
Definition authenticate (db : DB) (em pw : text) : option User :=
  match find_by_email db em with
  | Some u => if bool_decide (user_password u = Some (hash pw)) then Some u else None
  | None => None
  end.

(** [login]: [passport.authenticate("local", {failureRedirect: "/login",
    successRedirect: "/"})]; the first component is the session's user. *)
Definition login (db : DB) (em pw : text) : option oid * list Response :=
  match authenticate db em pw with
  | Some u => (Some (user_id u), [Redirect (txt "/")])
  | None => (None, [Redirect to_login])
  end.
End Flow.

(** [logout]: [req.logout()] clears the session, then a redirect. *)
Definition logout (session : option oid) : option oid * list Response :=
  (None, [Redirect (txt "/")]).

(** [isLoggedIn]: [true] is [next()]; otherwise a redirect to [/login]. *)
Definition isLoggedIn (session : option oid) : bool * list Response :=
  if session is Some _ then (true, []) else (false, [Redirect to_login]).

(** [handlers/passport.js]: [passport.serializeUser(User.serializeUser())]
    of passport-local-mongoose keeps the [usernameField], the address, in
    the session. *)
Definition serializeUser (u : User) : text := email u.

(** [passport.deserializeUser(User.deserializeUser())]: on every request,
    [findByUsername] on the address the session keeps gives [req.user]. *)
Definition deserializeUser (db : DB) (session : option text) : option User :=
  session ≫= find_by_email db.

(** ** Lemmas on the user collection *)

Lemma find_user_replace_ne db u' uid :
  user_id u' <> uid -> find_user (replace_user db u') uid = find_user db uid.
Proof.
  intros Hne. unfold find_user, replace_user. simpl.
  induction (users db) as [|v us IH]; simpl; [done|].
  destruct (Nat.eqb_spec (user_id v) (user_id u')) as [E|E]; simpl.
  - rewrite E. apply Nat.eqb_neq in Hne. by rewrite Hne, IH.
  - by rewrite IH.
Qed.

Lemma find_reset_user_Some db t now u :
  find_reset_user db t now = Some u ->
  u ∈ users db /\ resetPasswordToken u = Some t /\
  exists e, resetPasswordExpires u = Some e /\ (now < e)%Z.
Proof.
  unfold find_reset_user. intros Hf. apply find_some in Hf as [Hin Hv].
  apply andb_prop in Hv as [Ht He]. apply bool_decide_eq_true in Ht.
  split; [by apply list_elem_of_In|split; [done|]].
  destruct (resetPasswordExpires u) as [e|]; [|done]. apply Z.ltb_lt in He. eauto.
Qed.

Lemma find_some_id {A} (f : A -> oid) (l : list A) x :
  x ∈ l -> exists y, find (fun y => Nat.eqb (f y) (f x)) l = Some y /\ f y = f x.
Proof.
  induction l as [|y l IH]; [set_solver|]. rewrite elem_of_cons. intros Hx. simpl.
  destruct (Nat.eqb_spec (f y) (f x)) as [E|E]; [eauto|].
  destruct Hx as [->|Hx]; [done|auto].
Qed.

Lemma find_user_of_elem db u :
  u ∈ users db -> exists v, find_user db (user_id u) = Some v /\ user_id v = user_id u.
Proof. apply find_some_id. Qed.

(** After writing [u'] over a user of its id, [u'] is the only user a
    token [t] that no user held before can find. *)
Lemma find_reset_after_write db u u' t now :
  u ∈ users db -> user_id u = user_id u' ->
  (forall v, v ∈ users db -> resetPasswordToken v <> Some t) ->
  find_reset_user (replace_user db u') t now = if token_valid t now u' then Some u' else None.
Proof.
  intros Hu Hid Hfresh. unfold find_reset_user, replace_user. simpl.
  destruct (token_valid t now u') eqn:Hu'.
  - induction (users db) as [|v us IH]; [set_solver|]. simpl.
    destruct (Nat.eqb (user_id v) (user_id u')) eqn:E; [by rewrite Hu'|].
    assert (token_valid t now v = false) as ->.
    { unfold token_valid. rewrite bool_decide_eq_false_2; [done|]. apply Hfresh. set_solver. }
    apply IH; [|intros; apply Hfresh; set_solver].
    apply elem_of_cons in Hu as [->|]; [|done]. apply Nat.eqb_neq in E. congruence.
  - apply find_None_intro. intros w Hw%list_elem_of_fmap.
    destruct Hw as (v & -> & Hv). destruct (Nat.eqb _ _); [done|].
    unfold token_valid. rewrite bool_decide_eq_false_2; [done|]. by apply Hfresh.
Qed.

Lemma find_by_email_Some db em u :
  find_by_email db em = Some u -> u ∈ users db /\ email u = em.
Proof.
  unfold find_by_email. intros Hf. apply find_some in Hf as [Hin He].
  apply bool_decide_eq_true in He. split; [by apply list_elem_of_In|done].
Qed.

Lemma update_Some hash db t now pw u :
  find_reset_user db t now = Some u ->
  update hash db t now pw =
  mkOutcome (replace_user db (set_reset u None None (Some (hash pw)))) [Redirect (txt "/")] []
            (Some (user_id u)) (Ok tt).
Proof. unfold update. by intros ->. Qed.

Lemma update_None hash db t now pw :
  find_reset_user db t now = None ->
  update hash db t now pw = mkOutcome db [Redirect to_login] [] None (Err NullDeref).
Proof. unfold update. by intros ->. Qed.

Lemma forgot_Some db host em tok now u :
  find_by_email db em = Some u ->
  forgot db host em tok now =
  mkOutcome (replace_user db (set_reset u (Some tok) (Some (now + reset_window)%Z) (user_password u)))
            [Redirect to_login]
            [reset_mail (set_reset u (Some tok) (Some (now + reset_window)%Z) (user_password u))
                        (reset_url host tok)] None (Ok tt).
Proof. unfold forgot. by intros ->. Qed.

(** Writing over the user [findOne({email})] finds, with a document of
    the same id and address, makes [findOne] find the new document. *)
Lemma find_by_email_replace db em u u' :
  find_by_email db em = Some u -> user_id u' = user_id u -> email u' = em ->
  find_by_email (replace_user db u') em = Some u'.
Proof.
  unfold find_by_email, replace_user. simpl. intros Hf Hid Hem.
  induction (users db) as [|v us IH]; simpl in *; [done|].
  destruct (Nat.eqb_spec (user_id v) (user_id u')) as [E|E]; simpl.
  - by rewrite bool_decide_eq_true_2.
  - case_bool_decide as Hv; [|auto]. injection Hf as ->. congruence.
Qed.

(** The token [forgot] issues finds the written user while it is valid. *)
Lemma forgot_find_reset db host em tok now u n :
  find_by_email db em = Some u ->
  (forall v, v ∈ users db -> resetPasswordToken v <> Some tok) ->
  find_reset_user (out_db (forgot db host em tok now)) tok n =
  if Z.ltb n (now + reset_window) then
    Some (set_reset u (Some tok) (Some (now + reset_window)%Z) (user_password u))
  else None.
Proof.
  intros Hf Hfresh. rewrite (forgot_Some _ _ _ _ _ u) by done. simpl.
  destruct (find_by_email_Some _ _ _ Hf) as [Hin _].
  rewrite (find_reset_after_write _ u) by done.
  unfold token_valid. simpl. rewrite bool_decide_eq_true_2 by done. done.
Qed.

(** ** Theorems *)

(** C5: the reset form is the only way the flow changes a user: when
    [confirmedPasswords] and [update] change the record of user [uid] at
    all, the two passwords were equal and [uid] is the user that holds the
    token with an expiry after [now]. *)
Theorem password_change_needs_token hash db t now pw pc uid :
  find_user (out_db (resetPassword hash db t now pw pc)) uid <> find_user db uid ->
  pw = pc /\ exists u, find_reset_user db t now = Some u /\ user_id u = uid /\
    resetPasswordToken u = Some t /\ exists e, resetPasswordExpires u = Some e /\ (now < e)%Z.
Proof.
  unfold resetPassword, confirmedPasswords. case_bool_decide as Hpw; [|done].
  destruct (find_reset_user db t now) as [u|] eqn:Hf;
    [rewrite (update_Some _ _ _ _ _ u) by done|by rewrite update_None].
  simpl. intros Hch. split; [done|]. exists u.
  destruct (decide (user_id u = uid)) as [<-|Hne].
  - destruct (find_reset_user_Some _ _ _ _ Hf) as (_ & Ht & He). done.
  - by rewrite find_user_replace_ne in Hch.
Qed.

(** A successful [update] logs in the user [u] the token found, gives
    it the new password hash and clears its token and expiry, and leaves
    every other user as it was. *)
Theorem update_success hash db t now pw :
  out_status (update hash db t now pw) = Ok tt ->
  exists u u', find_reset_user db t now = Some u /\
    out_login (update hash db t now pw) = Some (user_id u) /\
    find_user (out_db (update hash db t now pw)) (user_id u) = Some u' /\
    user_password u' = Some (hash pw) /\ resetPasswordToken u' = None /\
    resetPasswordExpires u' = None /\
    forall uid, uid <> user_id u ->
      find_user (out_db (update hash db t now pw)) uid = find_user db uid.
Proof.
  destruct (find_reset_user db t now) as [u|] eqn:Hf; [|by rewrite update_None].
  rewrite (update_Some _ _ _ _ _ u) by done. intros _. simpl.
  destruct (find_reset_user_Some _ _ _ _ Hf) as (Hin & _).
  destruct (find_user_of_elem _ _ Hin) as (v & Hv & _).
  exists u, (set_reset u None None (Some (hash pw))). split_and!; try done.
  - exact (find_user_replace db v (set_reset u None None (Some (hash pw))) Hv).
  - intros uid Hne. by apply find_user_replace_ne.
Qed.

(** C31: a token works once: when no two users hold the token [t], no
    user holds it after a successful [update] with it, at any later time. *)
Theorem reset_token_single_use hash db t now pw :
  (forall v w, v ∈ users db -> w ∈ users db -> resetPasswordToken v = Some t ->
               resetPasswordToken w = Some t -> user_id v = user_id w) ->
  out_status (update hash db t now pw) = Ok tt ->
  forall now', find_reset_user (out_db (update hash db t now pw)) t now' = None.
Proof.
  intros Huniq. destruct (find_reset_user db t now) as [u|] eqn:Hf; [|by rewrite update_None].
  rewrite (update_Some _ _ _ _ _ u) by done. intros _ now'. simpl.
  destruct (find_reset_user_Some _ _ _ _ Hf) as (Hin & Ht & _).
  apply find_None_intro. intros w (v & -> & Hv)%list_elem_of_fmap. simpl.
  destruct (Nat.eqb_spec (user_id v) (user_id u)) as [E|E]; [done|].
  unfold token_valid. rewrite bool_decide_eq_false_2; [done|].
  intros Hvt. apply E. by apply Huniq.
Qed.

(** C30: [forgot] mails the fresh token [tok] to the user of the address,
    and that token resets the user's password for one hour ([3600000] ms)
    after [now] and not after: from then on [update] finds no user,
    redirects, fails on [null] and changes nothing. *)
Theorem forgot_token_window hash db host em tok now u now' pw :
  find_by_email db em = Some u ->
  (forall v, v ∈ users db -> resetPasswordToken v <> Some tok) ->
  let db' := out_db (forgot db host em tok now) in
  map (email ∘ mail_user) (out_mail (forgot db host em tok now)) = [em] /\
  map mail_resetUrl (out_mail (forgot db host em tok now)) = [reset_url host tok] /\
  ((now' < now + reset_window)%Z ->
     out_status (update hash db' tok now' pw) = Ok tt /\
     out_login (update hash db' tok now' pw) = Some (user_id u)) /\
  ((now + reset_window <= now')%Z ->
     update hash db' tok now' pw = mkOutcome db' [Redirect to_login] [] None (Err NullDeref)).
Proof.
  intros Hf Hfresh db'. destruct (find_by_email_Some _ _ _ Hf) as [_ Hem].
  split_and!.
  - rewrite (forgot_Some _ _ _ _ _ u) by done. simpl. by rewrite Hem.
  - by rewrite (forgot_Some _ _ _ _ _ u).
  - intros Hlt. subst db'. rewrite (update_Some _ _ _ _ _ (set_reset u (Some tok)
      (Some (now + reset_window)%Z) (user_password u))); [done|].
    rewrite (forgot_find_reset _ _ _ _ _ u) by done. by rewrite (proj2 (Z.ltb_lt _ _)).
  - intros Hge. apply update_None. subst db'.
    rewrite (forgot_find_reset _ _ _ _ _ u) by done. by rewrite (proj2 (Z.ltb_ge _ _)).
Qed.

(** C29: the reset flow composed with the login: after [forgot] issues a
    fresh token for the address [em] and the token is used within the
    hour to set the password [pw], logging in with [em] and [pw] opens a
    session for that user, and any password with another hash is refused. *)
Theorem reset_then_login hash db host em tok now u now' pw pw' :
  find_by_email db em = Some u ->
  (forall v, v ∈ users db -> resetPasswordToken v <> Some tok) ->
  (now' < now + reset_window)%Z ->
  let db' := out_db (update hash (out_db (forgot db host em tok now)) tok now' pw) in
  login hash db' em pw = (Some (user_id u), [Redirect (txt "/")]) /\
  (hash pw' <> hash pw -> login hash db' em pw' = (None, [Redirect to_login])).
Proof.
  intros Hf Hfresh Hlt db'. destruct (find_by_email_Some _ _ _ Hf) as [_ Hem].
  set (u1 := set_reset u (Some tok) (Some (now + reset_window)%Z) (user_password u)).
  set (u2 := set_reset u1 None None (Some (hash pw))).
  assert (find_by_email db' em = Some u2) as Hf2.
  { subst db'. rewrite (update_Some _ _ _ _ _ u1).
    - simpl. apply (find_by_email_replace _ _ u1); [|done|done].
      rewrite (forgot_Some _ _ _ _ _ u) by done. by apply (find_by_email_replace _ _ u).
    - rewrite (forgot_find_reset _ _ _ _ _ u) by done. by rewrite (proj2 (Z.ltb_lt _ _)). }
  unfold login, authenticate. rewrite Hf2. split.
  - by rewrite bool_decide_eq_true_2.
  - intros Hne. rewrite bool_decide_eq_false_2; [done|]. simpl. congruence.
Qed.

(** With a token no user holds unexpired, [reset] redirects to
    [/login] and then renders the form as well (two responses to one
    request), and [update] redirects and then fails on [null] without
    changing the database: neither handler returns after its redirect. *)
Theorem invalid_token_responses hash db t now pw :
  find_reset_user db t now = None ->
  out_sent (reset db t now) = [Redirect to_login; Render (txt "reset")] /\
  update hash db t now pw = mkOutcome db [Redirect to_login] [] None (Err NullDeref).
Proof. intros Hf. unfold reset. rewrite Hf. split; [done|by apply update_None]. Qed.

(** ** Witnesses *)

Definition demo_hash (p : text) : text := txt "h:" ++ p.

Definition demo_host : text := txt "localhost:7777".

Definition bob : User :=
  mkUser 7 (txt "bob@example.com") (txt "Bob") None None [] (Some (txt "h:old")).
Definition carol : User :=
  mkUser 8 (txt "carol@example.com") (txt "Carol") (Some (txt "abc")) (Some 5000%Z) []
         (Some (txt "h:x")).

Definition auth_db : DB :=
  {| stores := []; reviews := []; users := [bob; carol]; next_oid := 9 |}.

Lemma auth_users_cases v : v ∈ users auth_db -> v = bob \/ v = carol.
Proof. simpl. rewrite !elem_of_cons, elem_of_nil. tauto. Qed.

Lemma password_change_needs_token_witness :
  exists u, find_reset_user auth_db (txt "abc") 100 = Some u /\ user_id u = 8.
Proof.
  destruct (password_change_needs_token demo_hash auth_db (txt "abc") 100
              (txt "new") (txt "new") 8) as (_ & u & Hf & Hid & _).
  - vm_compute. congruence.
  - exists u. split; [exact Hf|exact Hid].
Defined.


Lemma reset_token_single_use_witness :
  find_reset_user (out_db (update demo_hash auth_db (txt "abc") 100 (txt "new"))) (txt "abc") 200 = None.
Proof.
  apply reset_token_single_use; [|reflexivity].
  intros v w Hv%auth_users_cases Hw%auth_users_cases.
  destruct Hv as [->| ->], Hw as [->| ->]; simpl; congruence.
Defined.

Lemma forgot_token_window_witness :
  out_status (update demo_hash (out_db (forgot auth_db demo_host (txt "bob@example.com") (txt "t1") 1000))
                     (txt "t1") 2000 (txt "pw")) = Ok tt /\
  update demo_hash (out_db (forgot auth_db demo_host (txt "bob@example.com") (txt "t1") 1000))
         (txt "t1") 3601000 (txt "pw") =
  mkOutcome (out_db (forgot auth_db demo_host (txt "bob@example.com") (txt "t1") 1000))
            [Redirect to_login] [] None (Err NullDeref).
Proof.
  destruct (forgot_token_window demo_hash auth_db demo_host (txt "bob@example.com") (txt "t1") 1000 bob 2000
              (txt "pw")) as (_ & _ & Hok & _); [reflexivity| |].
  { intros v [->| ->]%auth_users_cases; simpl; congruence. }
  destruct (forgot_token_window demo_hash auth_db demo_host (txt "bob@example.com") (txt "t1") 1000 bob 3601000
              (txt "pw")) as (_ & _ & _ & Hexp); [reflexivity| |].
  { intros v [->| ->]%auth_users_cases; simpl; congruence. }
  split; [apply Hok|apply Hexp]; unfold reset_window; lia.
Defined.


Lemma reset_then_login_witness :
  login demo_hash
    (out_db (update demo_hash (out_db (forgot auth_db demo_host (txt "bob@example.com") (txt "t1") 1000))
                    (txt "t1") 2000 (txt "pw")))
    (txt "bob@example.com") (txt "pw") = (Some 7, [Redirect (txt "/")]).
Proof.
  apply (reset_then_login demo_hash auth_db demo_host (txt "bob@example.com") (txt "t1") 1000 bob 2000
           (txt "pw") (txt "pw")); [reflexivity| |unfold reset_window; lia].
  intros v [->| ->]%auth_users_cases; simpl; congruence.
Defined.
