(* ===== verification/Users.v ===== *)
(** * Users: registration, account updates and the user collection

    [src/controllers/userController.js]: [loginForm] and [registerForm]
    (lines 6-18), [validateRegister] (lines 20-53), [register] (lines
    55-62, which calls [User.register] of passport-local-mongoose) and
    [updateAccount] (lines 68-81).  [src/models/User.js] declares the
    schema: [email] is [unique], [lowercase], [trim], checked by
    [validator.isEmail] and required; [name] is required and trimmed.

    [validator.isEmail] is library code: the class [EmailValidator] is its
    interface, and the theorems hold for any instance.  [normalizeEmail]
    with the options of line 26 lower-cases the address.
    [User.register] follows passport-local-mongoose: a missing username is
    an error, an existing username is [UserExistsError], a missing
    password is [MissingPasswordError]; then the password hash is set and
    the document saved, which runs the schema validation and the unique
    index.

    Theorems: every state reached by the handlers that write users
    (registration, account update, the reset flow, hearts) has distinct
    ids and distinct e-mail addresses ([users_reachable_unique]), and
    every user has a reset token exactly when it has its expiry
    ([user_reachable_reset_paired]); a registration stores a user that [findOne({email})] then finds; an
    address in use is refused; [validateRegister] reports a mismatched
    confirmation; the forms answer twice to a logged-in user.  The
    session of [passport.js] keeps the address: after [updateAccount]
    changes it, the session loads no user, and after someone registers
    the old address, it loads that user ([session_follows_address]).
    [gravatar] is the virtual of lines 39-42 with [md5] as an argument. *)

From Stdlib Require Import QArith ZArith Ascii String.
From S2P Require Import Prelude Text Model Store Hearts Auth.
Local Open Scope store_scope.

(** [validator.isEmail] *)
Class EmailValidator := isEmail : text -> bool.

(** The fields of the registration form. *)
Record RegisterForm := mkRegisterForm {
  form_name : text;
  form_email : text;
  form_password : text;
  form_confirm : text
}.

Definition msg_name : text := txt "You must supply a name!".
Definition msg_email : text := txt "That email is not valid".
Definition msg_password : text := txt "Password cannot be blank".
Definition msg_confirm : text := txt "Confirmed Password cannot be blank".
Definition msg_mismatch : text := txt "Oops! your passwords do not match".

(** The schema setters of [email] ([lowercase], [trim]) and [name]. *)
Definition email_setter (e : text) : text := trim (lower e).

(** [userSchema.virtual("gravatar")]: the image of the [md5] of the address. *)
Definition gravatar (md5 : text -> text) (u : User) : text :=
  txt "https://gravatar.com/avatar/" ++ md5 (email u) ++ txt "?s=200".

Definition fresh_user (id : oid) (nm em : text) : User :=
  mkUser id (email_setter em) (trim nm) None None [] None.

Definition with_account (u : User) (nm em : text) : User :=
  {| user_id := user_id u; email := email_setter em; user_name := trim nm;
     resetPasswordToken := resetPasswordToken u;
     resetPasswordExpires := resetPasswordExpires u; hearts := hearts u;
     user_password := user_password u |}.

Definition with_password (u : User) (h : text) : User :=
  set_reset u (resetPasswordToken u) (resetPasswordExpires u) (Some h).

(** Whether a user other than [except] has the address [e]: the
    [unique] index on [email]. *)
Definition email_taken (db : DB) (e : text) (except : option oid) : bool :=
  existsb (fun u => bool_decide (email u = e) && negb (bool_decide (Some (user_id u) = except)))
          (users db).

Section Accounts.
Context `{EV : EmailValidator} (hash : text -> text).

(** [validateRegister]: the messages of the failed checks in the order
    they run, or the form with the normalised address. *)
Definition validateRegister (f : RegisterForm) : list text + RegisterForm :=
  let errs :=
    (if bool_decide (form_name f = []) then [msg_name] else []) ++
    (if isEmail (form_email f) then [] else [msg_email]) ++
    (if bool_decide (form_password f = []) then [msg_password] else []) ++
    (if bool_decide (form_confirm f = []) then [msg_confirm] else []) ++
    (if bool_decide (form_confirm f = form_password f) then [] else [msg_mismatch]) in
  match errs with
  | [] => inr (mkRegisterForm (form_name f) (lower (form_email f))
                              (form_password f) (form_confirm f))
  | _ => inl errs
  end.

(** The validators of [email] and [name] ([required], [isEmail]), on
    the values after the setters. *)
Definition validate_fields (em nm : text) : result AppError unit :=
  let errs :=
    (if bool_decide (em = []) || negb (isEmail em) then [txt "email"] else []) ++
    (if bool_decide (nm = []) then [txt "name"] else []) in
  match errs with [] => Ok tt | _ => Err (ValidationError errs) end.

(** [User.register(new User({email, name}), password)] and its save. *)
Definition register (db : DB) (f : RegisterForm) : result AppError (DB * User) :=
  let u := fresh_user (next_oid db) (form_name f) (form_email f) in
  ensure (negb (bool_decide (email u = []))) else MissingUsernameError;;
  ensure (negb (email_taken db (email u) None)) else UserExistsError;;
  ensure (negb (bool_decide (form_password f = []))) else MissingPasswordError;;
  let u' := with_password u (hash (form_password f)) in
  validate_fields (email u') (user_name u');;
  mret ({| stores := stores db; reviews := reviews db; users := users db ++ [u'];
           next_oid := S (next_oid db) |}, u').

(** [User.findOneAndUpdate({_id: me}, {$set: {name, email}},
    {runValidators: true})]: the update validators run first; no user
    gives [null] and no change; the unique index refuses an address of
    another user. *)
Definition updateAccount (db : DB) (me : oid) (nm em : text) : result AppError DB :=
  validate_fields (email_setter em) (trim nm);;
  match find_user db me with
  | None => mret db
  | Some u =>
      ensure (negb (email_taken db (email_setter em) (Some me))) else DuplicateKeyError;;
      mret (replace_user db (with_account u nm em))
  end.
End Accounts.

(** [loginForm] and [registerForm]: no [return] after the redirect. *)
Definition accountForm (view : text) (logged_in : bool) : list Response :=
  (if logged_in then [Redirect (txt "back")] else []) ++ [Render view].

(** ** The handlers that write users *)

Inductive user_request :=
| UReg (f : RegisterForm)
| UAccount (me : oid) (nm em : text)
| UForgot (host em tok : text) (now : Z)
| UReset (tok : text) (now : Z) (pw : text)
| UHeart (me : User) (sid : oid).

Definition user_handle `{EmailValidator} (hash : text -> text) (db : DB) (r : user_request) : DB :=
  match r with
  | UReg f => match register hash db f with Ok (db', _) => db' | Err _ => db end
  | UAccount me nm em => match updateAccount db me nm em with Ok db' => db' | Err _ => db end
  | UForgot host em tok now => out_db (forgot db host em tok now)
  | UReset tok now pw => out_db (update hash db tok now pw)
  | UHeart me sid => (heartStore db me sid).1
  end.

Inductive user_reachable `{EmailValidator} (hash : text -> text) : DB -> Prop :=
| ureach_init : user_reachable hash empty_db
| ureach_step db r : user_reachable hash db -> user_reachable hash (user_handle hash db r).

(** The invariant of the user collection. *)
Definition users_inv (db : DB) : Prop :=
  NoDup (map user_id (users db)) /\ NoDup (map email (users db)) /\
  Forall (fun u => user_id u < next_oid db) (users db).

(** A user's reset state is never half written: the token and its
    expiry are set together and cleared together. *)
Definition reset_paired (u : User) : Prop :=
  is_Some (resetPasswordToken u) <-> is_Some (resetPasswordExpires u).

Definition reset_inv (db : DB) : Prop := Forall reset_paired (users db).

(** ** Lemmas on the user collection *)

Lemma email_taken_false db e ex :
  email_taken db e ex = false <-> forall v, v ∈ users db -> email v = e -> Some (user_id v) = ex.
Proof.
  unfold email_taken. rewrite <-not_true_iff_false, existsb_exists. split.
  - intros Hn v Hv He. destruct (decide (Some (user_id v) = ex)) as [|Hne]; [done|].
    exfalso. apply Hn. exists v. split; [by apply list_elem_of_In|].
    rewrite bool_decide_eq_true_2 by done. by rewrite bool_decide_eq_false_2.
  - intros Hall (v & Hv%list_elem_of_In & Hb). apply andb_prop in Hb as [He Hx].
    apply bool_decide_eq_true in He. rewrite (Hall v Hv He) in Hx.
    by rewrite bool_decide_eq_true_2 in Hx.
Qed.

Lemma replace_user_ids db u' :
  map user_id (users (replace_user db u')) = map user_id (users db).
Proof.
  unfold replace_user. simpl. rewrite map_map. apply map_ext. intros v.
  destruct (Nat.eqb_spec (user_id v) (user_id u')); congruence.
Qed.

(** Writing over a user keeps the invariant when the new document has the
    user's id and either its address or an address no other user has. *)
Lemma replace_user_inv db u u' :
  users_inv db -> u ∈ users db -> user_id u' = user_id u ->
  email u' = email u \/ email_taken db (email u') (Some (user_id u)) = false ->
  users_inv (replace_user db u').
Proof.
  intros (Hids & Hem & Hlt) Hu Hid Hnew. split_and!.
  - by rewrite replace_user_ids.
  - unfold replace_user. simpl. rewrite map_map.
    apply NoDup_map_inj_on; [apply NoDup_ListNoDup; eapply NoDup_map_inv; by apply NoDup_ListNoDup|].
    assert (forall w, w ∈ users db -> user_id w <> user_id u -> email w <> email u') as Hother.
    { intros w Hw Hne He. destruct Hnew as [Heu|Ht].
      - apply Hne. f_equal. apply (NoDup_map_same_key email (users db)); congruence.
      - apply email_taken_false with (v := w) in Ht; congruence. }
    intros x y Hx Hy.
    destruct (Nat.eqb_spec (user_id x) (user_id u')), (Nat.eqb_spec (user_id y) (user_id u'));
      intros Hxy.
    + apply (NoDup_map_same_key user_id (users db)); congruence.
    + exfalso. apply (Hother y); congruence.
    + exfalso. apply (Hother x); congruence.
    + by apply (NoDup_map_same_key email (users db)).
  - apply Forall_forall. intros w (v & <- & Hv)%list_elem_of_In%in_map_iff.
    apply list_elem_of_In in Hv. rewrite Forall_forall in Hlt.
    destruct (Nat.eqb _ _); [rewrite Hid|]; auto.
Qed.

Lemma users_inv_empty : users_inv empty_db.
Proof. split_and!; constructor. Qed.

Lemma register_Ok `{EmailValidator} hash db f db' u :
  register hash db f = Ok (db', u) ->
  email_taken db (email u) None = false /\
  u = with_password (fresh_user (next_oid db) (form_name f) (form_email f)) (hash (form_password f)) /\
  db' = {| stores := stores db; reviews := reviews db; users := users db ++ [u];
           next_oid := S (next_oid db) |}.
Proof.
  unfold register, guard_or.
  destruct (negb (bool_decide (email _ = []))); simpl; [|done].
  destruct (negb (email_taken _ _ _)) eqn:Ht; simpl; [|done].
  destruct (negb (bool_decide (form_password f = []))); simpl; [|done].
  destruct (validate_fields _ _) as [[]|]; simpl; [|done].
  intros Hr; ok_inv Hr. split; [|done]. by apply negb_true_iff in Ht.
Qed.

Lemma register_inv `{EmailValidator} hash db f db' u :
  users_inv db -> register hash db f = Ok (db', u) -> users_inv db'.
Proof.
  intros (Hids & Hem & Hlt) (Ht & -> & ->)%register_Ok. simpl.
  rewrite email_taken_false in Ht. rewrite Forall_forall in Hlt.
  split_and!; simpl; rewrite ?map_app.
  - apply NoDup_app. split_and!; [done| |by apply NoDup_singleton].
    intros i (v & <- & Hv)%list_elem_of_In%in_map_iff Hi%list_elem_of_singleton.
    apply list_elem_of_In, Hlt in Hv. simpl in Hi. lia.
  - apply NoDup_app. split_and!; [done| |by apply NoDup_singleton].
    intros e (v & <- & Hv)%list_elem_of_In%in_map_iff He%list_elem_of_singleton.
    apply list_elem_of_In in Hv. by specialize (Ht v Hv He).
  - apply Forall_app. split; [|constructor; [simpl; lia|done]].
    apply Forall_forall. intros v Hv. specialize (Hlt v Hv). lia.
Qed.

Lemma updateAccount_inv `{EmailValidator} db me nm em db' :
  users_inv db -> updateAccount db me nm em = Ok db' -> users_inv db'.
Proof.
  intros Hinv. unfold updateAccount, guard_or.
  destruct (validate_fields _ _) as [[]|]; simpl; [|done].
  destruct (find_user db me) as [u|] eqn:Hf; [|intros Hr; by ok_inv Hr].
  destruct (negb (email_taken _ _ _)) eqn:Ht; simpl; [|done].
  intros Hr; ok_inv Hr. apply find_user_Some in Hf as [Hu <-].
  apply (replace_user_inv _ u); [done..|]. right. by apply negb_true_iff in Ht.
Qed.

Lemma forgot_inv db host em tok now : users_inv db -> users_inv (out_db (forgot db host em tok now)).
Proof.
  intros Hinv. unfold forgot. destruct (find_by_email db em) as [u|] eqn:Hf; [|done].
  apply find_by_email_Some in Hf as [Hu _]. apply (replace_user_inv _ u); auto.
Qed.

Lemma update_inv hash db tok now pw : users_inv db -> users_inv (out_db (update hash db tok now pw)).
Proof.
  intros Hinv. unfold update. destruct (find_reset_user db tok now) as [u|] eqn:Hf; [|done].
  apply find_reset_user_Some in Hf as [Hu _]. apply (replace_user_inv _ u); auto.
Qed.

Lemma heartStore_inv db me sid : users_inv db -> users_inv (heartStore db me sid).1.
Proof.
  intros Hinv. unfold heartStore, heart_write.
  destruct (find_user db _) as [u|] eqn:Hf; [|done].
  apply find_user_Some in Hf as [Hu _]. apply (replace_user_inv _ u); auto.
Qed.

Lemma user_handle_inv `{EmailValidator} hash db r :
  users_inv db -> users_inv (user_handle hash db r).
Proof.
  intros Hinv. destruct r; simpl.
  - destruct (register hash db f) as [[db' u]|] eqn:E; [|done]. by eapply register_inv.
  - destruct (updateAccount db me nm em) as [db'|] eqn:E; [|done]. by eapply updateAccount_inv.
  - by apply forgot_inv.
  - by apply update_inv.
  - by apply heartStore_inv.
Qed.

Lemma updateAccount_found `{EmailValidator} db me nm em db1 u :
  find_user db me = Some u -> updateAccount db me nm em = Ok db1 ->
  db1 = replace_user db (with_account u nm em).
Proof.
  intros Hf. unfold updateAccount, guard_or.
  destruct (validate_fields _ _) as [[]|]; simpl; [|done]. rewrite Hf.
  destruct (negb _); simpl; [|done]. intros Hr. by ok_inv Hr.
Qed.

(** After a user's document takes another address, no user has the old
    one: addresses were distinct. *)
Lemma find_by_email_moved db u u' :
  users_inv db -> u ∈ users db -> user_id u' = user_id u -> email u' <> email u ->
  find_by_email (replace_user db u') (email u) = None.
Proof.
  intros (_ & Hem & _) Hu Hid Hne. unfold find_by_email. apply find_None_intro.
  intros w Hw. apply bool_decide_eq_false_2. intros Hwe.
  unfold replace_user in Hw. simpl in Hw.
  apply list_elem_of_In, in_map_iff in Hw as (v & <- & Hv). apply list_elem_of_In in Hv.
  destruct (Nat.eqb_spec (user_id v) (user_id u')) as [E|E]; [congruence|].
  assert (v = u) as -> by (by apply (NoDup_map_same_key email (users db))). congruence.
Qed.

Lemma replace_user_reset_inv db u' :
  reset_inv db -> reset_paired u' -> reset_inv (replace_user db u').
Proof. intros Hdb Hu. by apply Forall_map_replace. Qed.

Lemma set_reset_paired u tok exp pw :
  is_Some tok <-> is_Some exp -> reset_paired (set_reset u tok exp pw).
Proof. done. Qed.

Lemma reset_inv_elem db u : reset_inv db -> u ∈ users db -> reset_paired u.
Proof. intros Hdb Hu. unfold reset_inv in Hdb. rewrite list.Forall_forall in Hdb. auto. Qed.

Lemma user_handle_reset_inv `{EmailValidator} hash db r :
  reset_inv db -> reset_inv (user_handle hash db r).
Proof.
  intros Hdb. destruct r; simpl.
  - destruct (register hash db f) as [[db' u]|] eqn:E; [|done].
    apply register_Ok in E as (_ & -> & ->). apply Forall_app. split; [exact Hdb|].
    constructor; [|done]. unfold with_password. apply set_reset_paired. split; intros [? ?]; discriminate.
  - destruct (updateAccount db me nm em) as [db'|] eqn:E; [|done].
    destruct (find_user db me) as [u|] eqn:Hf.
    + rewrite (updateAccount_found _ _ _ _ _ u Hf E). apply replace_user_reset_inv; [done|].
      apply find_user_Some in Hf as [Hu _]. exact (reset_inv_elem db u Hdb Hu).
    + revert E. unfold updateAccount, guard_or. rewrite Hf.
      destruct (validate_fields _ _) as [[]|]; simpl; [|done]. intros E. by ok_inv E.
  - unfold forgot. destruct (find_by_email db em); [|done]. simpl.
    apply replace_user_reset_inv; [done|]. apply set_reset_paired. split; eauto.
  - unfold update. destruct (find_reset_user db tok now); [|done]. simpl.
    apply replace_user_reset_inv; [done|]. apply set_reset_paired. split; intros [? ?]; discriminate.
  - unfold heartStore, heart_write. destruct (find_user db _) as [u|] eqn:Hf; [|done]. simpl.
    apply replace_user_reset_inv; [done|]. apply find_user_Some in Hf as [Hu _].
    exact (reset_inv_elem db u Hdb Hu).
Qed.

(** ** Theorems *)

(** C6: every state reached from the empty database by registrations,
    account updates, password-reset requests and resets, and heart
    toggles has distinct user ids, distinct e-mail addresses, and ids
    below the next fresh id. *)
Theorem users_reachable_unique `{EmailValidator} hash db :
  user_reachable hash db -> users_inv db.
Proof. induction 1; [apply users_inv_empty|by apply user_handle_inv]. Qed.

(** C15: in every state reached by the user handlers, every user either
    has both a reset token and its expiry or neither: [forgot] sets the
    two together and [update] clears the two together, and no other
    handler writes them. *)
Theorem user_reachable_reset_paired `{EmailValidator} hash db :
  user_reachable hash db -> forall u, u ∈ users db ->
  (is_Some (resetPasswordToken u) <-> is_Some (resetPasswordExpires u)).
Proof.
  intros Hr. assert (reset_inv db) as Hdb.
  { induction Hr; [constructor|by apply user_handle_reset_inv]. }
  intros u Hu. exact (reset_inv_elem db u Hdb Hu).
Qed.

(** C34: a successful registration stores a fresh user with the
    lower-cased, trimmed address, the trimmed name, the hash of the
    password, no hearts and no reset token, and [findOne({email})] on
    that address then finds it. *)
Theorem register_success `{EmailValidator} hash db f db' u :
  register hash db f = Ok (db', u) ->
  find_by_email db' (email_setter (form_email f)) = Some u /\
  user_id u = next_oid db /\ user_name u = trim (form_name f) /\
  user_password u = Some (hash (form_password f)) /\
  hearts u = [] /\ resetPasswordToken u = None.
Proof.
  intros (Ht & -> & ->)%register_Ok. split; [|done].
  unfold find_by_email. simpl. rewrite find_app_None; simpl.
  - by rewrite bool_decide_eq_true_2.
  - apply find_None_intro. intros v Hv. apply bool_decide_eq_false_2. intros He.
    rewrite email_taken_false in Ht. by specialize (Ht v Hv He).
Qed.

(** Registration refuses, in this order, an empty address
    ([MissingUsernameError]), an address already registered
    ([UserExistsError]) and an empty password ([MissingPasswordError]),
    without writing anything. *)
Theorem register_errors `{EmailValidator} hash db f :
  (email_setter (form_email f) = [] -> register hash db f = Err MissingUsernameError) /\
  (email_setter (form_email f) <> [] -> email_taken db (email_setter (form_email f)) None = true ->
     register hash db f = Err UserExistsError) /\
  (email_setter (form_email f) <> [] -> email_taken db (email_setter (form_email f)) None = false ->
     form_password f = [] -> register hash db f = Err MissingPasswordError).
Proof.
  unfold register, guard_or, fresh_user. cbn [email]. split_and!.
  - intros He. by rewrite He.
  - intros He Ht. rewrite (bool_decide_eq_false_2 (email_setter _ = [])) by done.
    simpl. by rewrite Ht.
  - intros He Ht Hp. rewrite (bool_decide_eq_false_2 (email_setter _ = [])) by done.
    simpl. rewrite Ht. simpl. by rewrite Hp.
Qed.

(** [validateRegister] lets a form through exactly when the name,
    the password and its confirmation are non-empty, the address passes
    [isEmail] and the confirmation equals the password; the form passed
    on has the address lower-cased by [normalizeEmail]. *)
Theorem validateRegister_spec `{EmailValidator} f f' :
  validateRegister f = inr f' <->
  form_name f <> [] /\ isEmail (form_email f) = true /\ form_password f <> [] /\
  form_confirm f <> [] /\ form_confirm f = form_password f /\
  f' = mkRegisterForm (form_name f) (lower (form_email f)) (form_password f) (form_confirm f).
Proof.
  unfold validateRegister.
  destruct (isEmail (form_email f)); repeat case_bool_decide; simpl; naive_solver.
Qed.

(** C12: the session follows the address, not the account.  passport
    keeps the address in the session and [updateAccount] does not log
    the user in again: after a user moves to another address, the
    session loads no user, and once someone registers the old address,
    the session loads that other account. *)
Theorem session_follows_address `{EmailValidator} hash db me u nm em db1 f db2 c :
  users_inv db ->
  find_user db me = Some u ->
  updateAccount db me nm em = Ok db1 ->
  email_setter em <> email u ->
  deserializeUser db1 (Some (serializeUser u)) = None /\
  (register hash db1 f = Ok (db2, c) -> email_setter (form_email f) = email u ->
   deserializeUser db2 (Some (serializeUser u)) = Some c /\ user_id c <> user_id u).
Proof.
  intros Hinv Hf Hup Hne. destruct (find_user_Some _ _ _ Hf) as [Hu Hid].
  apply (updateAccount_found _ _ _ _ _ u Hf) in Hup. subst db1.
  assert (find_by_email (replace_user db (with_account u nm em)) (email u) = None) as Hnone
    by (apply find_by_email_moved; auto).
  unfold deserializeUser, serializeUser. simpl. split; [done|].
  intros (_ & -> & ->)%register_Ok Hfe. unfold find_by_email. simpl.
  rewrite find_app_None by exact Hnone. simpl. rewrite bool_decide_eq_true_2 by done.
  split; [done|]. destruct Hinv as (_ & _ & Hlt). rewrite list.Forall_forall in Hlt.
  specialize (Hlt u Hu). simpl. lia.
Qed.

(** ** Witnesses *)

(** A stand-in for [validator.isEmail]: the address contains [@]. *)
#[local] Instance at_validator : EmailValidator :=
  fun e => bool_decide (ascii_of_nat 64 ∈ e).

Definition ann_form : RegisterForm :=
  mkRegisterForm (txt "Ann") (txt " Ann@Example.com") (txt "pw") (txt "pw").

Definition ann_db : DB := user_handle demo_hash empty_db (UReg ann_form).

Lemma users_reachable_unique_witness : users_inv (user_handle demo_hash ann_db (UReg ann_form)).
Proof.
  apply (users_reachable_unique demo_hash).
  apply ureach_step, ureach_step, ureach_init.
Defined.

Lemma register_success_witness :
  exists db' u, register demo_hash empty_db ann_form = Ok (db', u) /\
                find_by_email db' (txt "ann@example.com") = Some u.
Proof.
  destruct (register demo_hash empty_db ann_form) as [[db' u]|] eqn:E; [|refute_eval E].
  exists db', u. split; [reflexivity|].
  destruct (register_success _ _ _ _ _ E) as [Hf _]. exact Hf.
Defined.

Definition eve_form : RegisterForm :=
  mkRegisterForm (txt "Eve") (txt "ann@example.com") (txt "pw2") (txt "pw2").

Definition ann_user : User :=
  with_password (fresh_user 0 (txt "Ann") (txt " Ann@Example.com")) (demo_hash (txt "pw")).

Lemma session_follows_address_witness :
  let db1 := user_handle demo_hash ann_db (UAccount 0 (txt "Ann") (txt "ann2@example.com")) in
  deserializeUser db1 (Some (txt "ann@example.com")) = None /\
  exists db2 c, register demo_hash db1 eve_form = Ok (db2, c) /\
    deserializeUser db2 (Some (txt "ann@example.com")) = Some c /\ user_id c <> 0.
Proof.
  intros db1.
  assert (users_inv ann_db) as Hinv by (apply user_handle_inv, users_inv_empty).
  destruct (register demo_hash db1 eve_form) as [[db2 c]|] eqn:E2; [|refute_eval E2].
  destruct (session_follows_address demo_hash ann_db 0 ann_user (txt "Ann") (txt "ann2@example.com")
              db1 eve_form db2 c Hinv) as [H1 H2].
  - vm_compute. reflexivity.
  - vm_compute. reflexivity.
  - vm_compute. discriminate.
  - split; [exact H1|]. exists db2, c. split; [reflexivity|].
    apply H2; [exact E2|vm_compute; reflexivity].
Defined.

Lemma user_reachable_reset_paired_witness :
  let db := user_handle demo_hash ann_db
              (UForgot demo_host (txt "ann@example.com") (txt "ab12") 1000%Z) in
  map (fun u => (resetPasswordToken u, resetPasswordExpires u)) (users db)
    = [(Some (txt "ab12"), Some 3601000%Z)] /\
  Forall (fun u => is_Some (resetPasswordToken u) <-> is_Some (resetPasswordExpires u)) (users db).
Proof.
  intros db. split; [vm_compute; reflexivity|].
  apply list.Forall_forall. intros u Hu.
  apply (user_reachable_reset_paired demo_hash db); [|exact Hu].
  apply ureach_step, ureach_step, ureach_init.
Defined.
