(* ===== verification/Mail.v ===== *)
(** * Mail: [src/handlers/mail.js] and the password-reset link

    [send] (mail.js, lines 27-39) renders the pug template
    [views/email/<filename>.pug] with the options, inlines its CSS with
    juice ([generateHTML], lines 19-26), derives the text part with
    html-to-text, and hands [mailOptions] (the fixed sender, [to] the
    address of [options.user], the subject, the HTML and the text) to the
    nodemailer transport of lines 9-16.  pug, juice and html-to-text are
    libraries: the class [MailRenderer] is their interface, and the
    theorems hold for every instance.  The transport is an outbox: the
    mail options handed to it, in order.

    [forgot] (Auth.v) issues [crypto.randomBytes(20).toString("hex")]
    (authController.js, line 47; [hex_token]) and mails the link
    [http://<Host header>/account/reset/<token>].  The route
    [/account/reset/:token] is declared in the repository's route file,
    outside [src/]: [reset_route] is modelled from Express's path
    matching, where a parameter is one non-empty segment.

    Theorems: a hex token has two lowercase hex digits per byte and no
    [/]; the reset mail goes to the address asked for, and its link
    leads, through the route, back to the token, with which [reset]
    shows the form within the hour; the link's host is the [Host] header
    of the request that asked for the reset ([reset_link_roundtrip]). *)

From Stdlib Require Import ZArith Ascii String Strings.Byte.
From S2P Require Import Prelude Text Model Store Auth.
Import Chars.

(** ** [mail.js] *)

(** [pug.renderFile], [juice] and [htmlToText.fromString]. *)
Class MailRenderer := {
  renderFile : text -> Mail -> text;
  juice : text -> text;
  htmlToText : text -> text
}.

(** The [mailOptions] of lines 30-36. *)
Record MailOptions := mkMailOptions {
  mo_from : text;
  mo_to : text;
  mo_subject : text;
  mo_html : text;
  mo_text : text
}.

Definition mail_from : text := txt "Pratik <pratikch1253@gmail.com>".

Section Send.
Context `{MailRenderer} (dirname : text).

(** [`${__dirname}/../views/email/${filename}.pug`] *)
Definition template_path (filename : text) : text :=
  dirname ++ txt "/../views/email/" ++ filename ++ txt ".pug".

Definition generateHTML (filename : text) (options : Mail) : text :=
  juice (renderFile (template_path filename) options).

Definition send (options : Mail) : MailOptions :=
  let html := generateHTML (mail_filename options) options in
  mkMailOptions mail_from (email (mail_user options)) (mail_subject options) html (htmlToText html).

(** What the transport receives from a handler: [send] of each of its
    mails, in order. *)
Definition deliver (out : Outcome) : list MailOptions := send <$> out_mail out.
End Send.

(** ** The token and the link *)

(** A nibble as a lowercase hex digit. *)
Definition hex_digit (n : nat) : ascii :=
  if Nat.ltb n 10 then ascii_of_nat (48 + n) else ascii_of_nat (87 + n).

Definition hex_byte (b : byte) : text :=
  [hex_digit (Byte.to_nat b / 16); hex_digit (Byte.to_nat b mod 16)].

(** [buf.toString("hex")] *)
Definition hex_token (bs : list byte) : text := bs ≫= hex_byte.

(** The host of an [http://host/...] link. *)
Definition url_host (url : text) : text := segment slash 2 url.

(** The path of an [http://host/...] link. *)
Definition url_path (url : text) : text := join_on slash ([] :: drop 3 (split_on slash url)).

(** Express's match of [/account/reset/:token]: the parameter is one
    non-empty segment. *)
Definition reset_route (path : text) : option text :=
  match split_on slash path with
  | [[]; a; r; (_ :: _) as t] =>
      if bool_decide (a = txt "account" /\ r = txt "reset") then Some t else None
  | _ => None
  end.

(** A lowercase hex digit. *)
Definition is_hex_lower (c : ascii) : bool := is_digit c || bool_decide (97 <= code c <= 102).

(** ** Lemmas *)

Lemma hex_digit_spec n : n < 16 -> is_hex_lower (hex_digit n) = true.
Proof. intros Hn. do 16 (destruct n as [|n]; [reflexivity|]). lia. Qed.

Lemma hex_lower_not_slash c : is_hex_lower c = true -> c <> slash.
Proof. by intros H ->. Qed.

Lemma hex_byte_spec b : Forall (fun c => is_hex_lower c = true) (hex_byte b).
Proof.
  pose proof (Byte.to_nat_bounded b) as Hb.
  repeat constructor; apply hex_digit_spec.
  - apply Nat.Div0.div_lt_upper_bound. lia.
  - apply Nat.mod_upper_bound. lia.
Qed.

(** [toString("hex")] writes two lowercase hex digits per byte. *)
Lemma hex_token_spec bs :
  length (hex_token bs) = 2 * length bs /\ Forall (fun c => is_hex_lower c = true) (hex_token bs).
Proof.
  induction bs as [|b bs [IHl IHf]]; [done|].
  change (hex_token (b :: bs)) with (hex_byte b ++ hex_token bs).
  rewrite length_app, IHl. split; [cbn [length hex_byte]; lia|]. apply Forall_app. split; [apply hex_byte_spec|done].
Qed.

Lemma hex_token_no_slash bs : slash ∉ hex_token bs.
Proof.
  intros Hin. destruct (hex_token_spec bs) as [_ Hf]. rewrite list.Forall_forall in Hf.
  exact (hex_lower_not_slash _ (Hf _ Hin) eq_refl).
Qed.

Lemma split_reset_url host tok :
  slash ∉ host -> slash ∉ tok ->
  split_on slash (reset_url host tok) = [txt "http:"; []; host; txt "account"; txt "reset"; tok].
Proof.
  intros Hh Ht. unfold reset_url. simpl. rewrite split_on_app by done. simpl.
  by rewrite split_on_free.
Qed.

Lemma reset_url_parts host tok :
  slash ∉ host -> slash ∉ tok -> tok <> [] ->
  url_host (reset_url host tok) = host /\ reset_route (url_path (reset_url host tok)) = Some tok.
Proof.
  intros Hh Ht Hne. unfold url_host, url_path, segment. rewrite split_reset_url by done.
  split; [done|]. unfold reset_route. simpl. rewrite split_on_free by done.
  destruct tok as [|c tok]; [done|]. reflexivity.
Qed.

(** ** Theorems *)

(** C11: the reset e-mail end to end.  [forgot] with a fresh hex token of
    20 random bytes hands the transport one mail, to the address asked
    for, rendered from the [password-reset] template with the link; the
    link's host is the [Host] header of the request, and its path matches
    [/account/reset/:token] with the token itself, which makes [reset]
    show the form (and nothing else) until one hour after [now].  Whoever
    names the host of the request chooses where the link points. *)
Theorem reset_link_roundtrip `{MailRenderer} dirname db host em bs now u n :
  length bs = 20 ->
  slash ∉ host ->
  find_by_email db em = Some u ->
  (forall v, v ∈ users db -> resetPasswordToken v <> Some (hex_token bs)) ->
  (n < now + reset_window)%Z ->
  let out := forgot db host em (hex_token bs) now in
  exists mail, out_mail out = [mail] /\
    deliver dirname out = [send dirname mail] /\
    mo_to (send dirname mail) = em /\
    mo_html (send dirname mail) = generateHTML dirname (txt "password-reset") mail /\
    url_host (mail_resetUrl mail) = host /\
    reset_route (url_path (mail_resetUrl mail)) = Some (hex_token bs) /\
    out_sent (reset (out_db out) (hex_token bs) n) = [Render (txt "reset")].
Proof.
  intros Hlen Hh Hf Hfresh Hn out. destruct (find_by_email_Some _ _ _ Hf) as [_ Hem].
  assert (hex_token bs <> []) as Hne.
  { intros E. pose proof (proj1 (hex_token_spec bs)) as Hl. rewrite E in Hl. simpl in Hl. lia. }
  destruct (reset_url_parts host (hex_token bs) Hh (hex_token_no_slash bs) Hne) as [Hhost Hroute].
  eexists. split; [subst out; by rewrite (forgot_Some _ _ _ _ _ u)|].
  split_and!; [|simpl; by rewrite Hem|done|done|done|].
  - subst out. unfold deliver. by rewrite (forgot_Some _ _ _ _ _ u).
  - unfold reset. subst out. rewrite (forgot_find_reset _ _ _ _ _ u) by done.
    by rewrite (proj2 (Z.ltb_lt _ _)).
Qed.

(** ** Witnesses *)

(** A renderer that writes the template path and the link. *)
Definition link_renderer : MailRenderer :=
  {| renderFile p m := p ++ mail_resetUrl m; juice h := h; htmlToText h := h |}.

Lemma reset_link_roundtrip_witness :
  exists mail,
    out_mail (forgot auth_db (txt "evil.example") (txt "bob@example.com")
                     (hex_token (repeat Byte.x2f 20)) 1000) = [mail] /\
    url_host (mail_resetUrl mail) = txt "evil.example" /\
    reset_route (url_path (mail_resetUrl mail)) = Some (hex_token (repeat Byte.x2f 20)).
Proof.
  destruct (@reset_link_roundtrip link_renderer (txt "/app/handlers") auth_db (txt "evil.example")
              (txt "bob@example.com") (repeat Byte.x2f 20) 1000 bob 2000)
    as (mail & H1 & _ & _ & _ & H5 & H6 & _).
  - reflexivity.
  - apply (bool_decide_unpack _). vm_compute. reflexivity.
  - reflexivity.
  - intros v [->| ->]%auth_users_cases; vm_compute; congruence.
  - unfold reset_window. lia.
  - exists mail. split_and!; assumption.
Defined.
