(* ===== verification/Upload.v ===== *)
(** * Upload: the photo of the store form

    [src/controllers/storeController.js]: [multerOptions.fileFilter]
    (lines 14-25) accepts a file whose [mimetype] starts with [image/] and
    refuses any other with an error; [upload] (line 36) runs multer on
    the single field [photo]; [resize] (lines 39-58) does nothing without
    a file, and otherwise names the photo [${uuid.v4()}.${extension}],
    where the extension is [mimetype.split("/")[1]].  It sets
    [req.body.photo] to that name, resizes the image with jimp and writes
    it to [./public/uploads/].  [createStore] then stores the body.

    multer's [memoryStorage] keeps the file in memory (line 16); [jimp.read]
    decodes the buffer or rejects, which fails the request after
    [req.body.photo] was set; [photo.resize(800, jimp.AUTO)] computes the
    height [height * 800 / width] and rounds both sides with
    [Math.round(x) || 1].  An image is its width and height: the pixels
    and the encoding are not modelled; [photo.write] is taken to succeed,
    though jimp fails on an extension it has no encoder for.
    [uuid.v4()] is an argument.  The
    mimetype comes from the client.  The route that chains [upload],
    [resize] and [createStore] is in the repository's route file, outside
    [src/]: [postStore] is modelled from the comment of line 38.

    Theorems: every path written stays in the uploads directory whatever
    the mimetype ([postStore_path_confined]); an accepted image is stored
    under its generated name; a refused file or an unreadable image
    writes nothing; the photo written is 800 pixels wide and keeps
    the aspect ratio to half a pixel ([postStore_resized]). *)

From Stdlib Require Import QArith ZArith String.
From S2P Require Import Prelude Text Model Slug Store.
Import Chars.

(** An image as jimp decodes it: its width and height in pixels. *)
Record Image := mkImage { img_width : Z; img_height : Z }.

(** [req.file] of [multer.memoryStorage()] (line 16): the mimetype the
    client sent and the buffer, as the image jimp decodes from it; [None]
    is a buffer no reader of jimp decodes. *)
Record UploadedFile := mkFile { mimetype : text; buffer : option Image }.

Definition image_prefix : text := txt "image/".

(** [file.mimetype.startsWith("image/")] *)
Definition fileFilter (f : UploadedFile) : bool :=
  bool_decide (image_prefix `prefix_of` mimetype f).

(** [multer(multerOptions).single("photo")]: no file passes through. *)
Definition upload (file : option UploadedFile) : result AppError (option UploadedFile) :=
  match file with
  | None => mret None
  | Some f => if fileFilter f then mret (Some f) else Err FileTypeError
  end.

Definition uploads_dir : text := txt "./public/uploads/".

(** [`${uuid.v4()}.${req.file.mimetype.split("/")[1]}`] *)
Definition photo_name (uuid : text) (f : UploadedFile) : text :=
  uuid ++ dot :: segment slash 1 (mimetype f).

Definition set_body_photo (body : StoreBody) (nm : text) : StoreBody :=
  {| body_name := body_name body; body_description := body_description body;
     body_tags := body_tags body; body_coordinates := body_coordinates body;
     body_address := body_address body; body_photo := Some nm;
     body_slug := body_slug body; body_author := body_author body |}.

(** [Math.round(p / q) || 1] for [p >= 0], [q > 0]: [Math.round] rounds
    half up, and a side rounded to zero becomes 1. *)
Definition round_or_1 (p q : Z) : Z :=
  (let r := (2 * p + q) / (2 * q) in if Z.eqb r 0 then 1 else r)%Z.

(** [image.resize(w, jimp.AUTO)]: jimp computes the height as
    [height * (w / width)], keeping the aspect ratio, then rounds both
    sides. *)
Definition jimp_resize_auto (w : Z) (img : Image) : Image :=
  mkImage (round_or_1 w 1) (round_or_1 (img_height img * w) (img_width img)).

Definition resize_width : Z := 800%Z.

(** [resize]: without a file, the body passes on; otherwise the photo's
    name goes into the body, [jimp.read] decodes the buffer (or rejects),
    and the image resized to [800 x AUTO] is written under that name. *)
Definition resize (uuid : text) (file : option UploadedFile) (body : StoreBody)
    : result AppError (StoreBody * list (text * Image)) :=
  match file with
  | None => mret (body, [])
  | Some f =>
      let nm := photo_name uuid f in
      match buffer f with
      | None => Err ImageReadError
      | Some img =>
          mret (set_body_photo body nm,
                [(uploads_dir ++ nm, jimp_resize_auto resize_width img)])
      end
  end.

(** The store form's route: [upload], [resize], then [createStore]; the
    files written, and the result of the creation. *)
Definition postStore (db : DB) (user now : nat) (uuid : text) (file : option UploadedFile)
    (body : StoreBody) : list (text * Image) * result AppError (DB * Store) :=
  match upload file with
  | Err e => ([], Err e)
  | Ok file' =>
      match resize uuid file' body with
      | Err e => ([], Err e)
      | Ok (body', written) => (written, createStore db user now body')
      end
  end.

(** ** Lemmas *)

Lemma photo_name_slash_free uuid f : slash ∉ uuid -> slash ∉ photo_name uuid f.
Proof.
  intros Hu. unfold photo_name. rewrite elem_of_app, elem_of_cons. intros [H|[H|H]].
  - done.
  - discriminate H.
  - revert H. apply segment_sep_free. vm_compute. set_solver.
Qed.

Lemma photo_name_image uuid ext buf :
  slash ∉ ext -> photo_name uuid (mkFile (image_prefix ++ ext) buf) = uuid ++ dot :: ext.
Proof.
  intros Hext. unfold photo_name, segment. simpl. by rewrite split_on_free.
Qed.

Lemma postStore_accepted db user now uuid f img body :
  fileFilter f = true -> buffer f = Some img ->
  postStore db user now uuid (Some f) body =
  ([(uploads_dir ++ photo_name uuid f, jimp_resize_auto resize_width img)],
   createStore db user now (set_body_photo body (photo_name uuid f))).
Proof.
  intros Hf Hb. unfold postStore, upload. rewrite Hf. cbn -[createStore resize]. unfold resize. by rewrite Hb.
Qed.

Lemma postStore_unreadable db user now uuid f body :
  fileFilter f = true -> buffer f = None ->
  postStore db user now uuid (Some f) body = ([], Err ImageReadError).
Proof.
  intros Hf Hb. unfold postStore, upload. rewrite Hf. cbn -[createStore resize]. unfold resize. by rewrite Hb.
Qed.

(** [Math.round(p / q) || 1] is at least 1, and unless it is the 1 that
    replaces a zero, it is within half of [p / q]. *)
Lemma round_or_1_spec (p q : Z) :
  (0 <= p)%Z -> (0 < q)%Z ->
  (1 <= round_or_1 p q /\ (Z.abs (2 * q * round_or_1 p q - 2 * p) <= q \/ round_or_1 p q = 1))%Z.
Proof.
  intros Hp Hq. unfold round_or_1. cbv zeta.
  destruct (Z.eqb_spec ((2 * p + q) / (2 * q)) 0) as [_|Hr]; [lia|].
  assert (0 <= (2 * p + q) / (2 * q))%Z by (apply Z.div_pos; lia).
  split; [lia|left]. Z.div_mod_to_equations. nia.
Qed.

(** ** Theorems *)

(** C9: whatever mimetype the client sends, [postStore] writes at most one
    file, and its path is [./public/uploads/] followed by a name without
    [/]: the photo cannot be written outside the uploads directory, as
    long as the generated uuid has no [/]. *)
Theorem postStore_path_confined db user now uuid file body :
  slash ∉ uuid ->
  length (postStore db user now uuid file body).1 <= 1 /\
  forall p im, (p, im) ∈ (postStore db user now uuid file body).1 ->
    exists nm, p = uploads_dir ++ nm /\ slash ∉ nm.
Proof.
  intros Hu. destruct file as [f|]; [|split; [simpl; lia|set_solver]].
  destruct (fileFilter f) eqn:Hf; [|unfold postStore, upload; rewrite Hf; split; [simpl; lia|set_solver]].
  destruct (buffer f) as [img|] eqn:Hb;
    [|rewrite postStore_unreadable by done; split; [simpl; lia|set_solver]].
  rewrite (postStore_accepted _ _ _ _ _ img) by done. simpl. split; [lia|].
  intros p im [= -> _]%list_elem_of_singleton. exists (photo_name uuid f).
  split; [done|by apply photo_name_slash_free].
Qed.

(** An image whose mimetype is [image/] followed by a subtype [ext]
    without [/] is stored under the name [uuid.ext]: when the creation
    succeeds, that name is the store's [photo] and the one file written. *)
Theorem postStore_photo db user now uuid ext img body w db' st :
  slash ∉ ext ->
  postStore db user now uuid (Some (mkFile (image_prefix ++ ext) (Some img))) body = (w, Ok (db', st)) ->
  w = [(uploads_dir ++ uuid ++ dot :: ext, jimp_resize_auto resize_width img)] /\
  photo st = Some (uuid ++ dot :: ext).
Proof.
  intros Hext. rewrite (postStore_accepted _ _ _ _ _ img) by (try apply bool_decide_eq_true_2; by try exists ext).
  rewrite photo_name_image by done. intros [= <- Hc].
  apply createStore_Ok in Hc as (_ & -> & _ & _). done.
Qed.

(** C35: the photo written is 800 pixels wide and at least 1 high, and its
    height keeps the aspect ratio of the upload to within half a pixel
    ([Math.round]), unless that rounds to 0 and jimp writes 1. *)
Theorem postStore_resized db user now uuid f img body :
  (0 < img_width img)%Z -> (0 <= img_height img)%Z ->
  buffer f = Some img ->
  forall p im, (p, im) ∈ (postStore db user now uuid (Some f) body).1 ->
  img_width im = resize_width /\ (1 <= img_height im)%Z /\
  ((Z.abs (2 * img_width img * img_height im - 2 * img_height img * resize_width) <= img_width img)%Z
   \/ img_height im = 1%Z).
Proof.
  intros Hw Hh Hb p im. destruct (fileFilter f) eqn:Hf;
    [|unfold postStore, upload; rewrite Hf; simpl; set_solver].
  rewrite (postStore_accepted _ _ _ _ _ img) by done.
  intros [= _ ->]%list_elem_of_singleton. simpl.
  split; [reflexivity|].
  destruct (round_or_1_spec (img_height img * resize_width) (img_width img)) as [H1 H2];
    unfold resize_width in *; [lia|lia|]. split; [exact H1|]. destruct H2; [left; lia|right; done].
Qed.

(** ** Witnesses *)

Definition demo_uuid : text := txt "1b9d6bcd".

Definition demo_image : Image := mkImage 1600%Z 1200%Z.

Lemma postStore_path_confined_witness :
  exists nm, map fst (postStore empty_db 1 10 demo_uuid
                        (Some (mkFile (txt "image/../../app.js") (Some demo_image)))
                        (form_body "Cafe")).1 = [uploads_dir ++ nm] /\ slash ∉ nm.
Proof.
  destruct (postStore_path_confined empty_db 1 10 demo_uuid
              (Some (mkFile (txt "image/../../app.js") (Some demo_image))) (form_body "Cafe")) as [_ Hp].
  - apply (bool_decide_unpack _). vm_compute. reflexivity.
  - destruct (Hp (uploads_dir ++ txt "1b9d6bcd...") (mkImage 800%Z 600%Z)) as (nm & Heq & Hnm).
    + vm_compute. left.
    + exists nm. split; [|exact Hnm]. rewrite <-Heq. vm_compute. reflexivity.
Defined.

Lemma postStore_resized_witness :
  (postStore empty_db 1 10 demo_uuid (Some (mkFile (txt "image/jpeg") (Some demo_image)))
     (form_body "Cafe")).1 = [(uploads_dir ++ txt "1b9d6bcd.jpeg", mkImage 800%Z 600%Z)] /\
  img_width (mkImage 800%Z 600%Z) = resize_width /\ (1 <= img_height (mkImage 800%Z 600%Z))%Z.
Proof.
  split; [vm_compute; reflexivity|].
  destruct (postStore_resized empty_db 1 10 demo_uuid (mkFile (txt "image/jpeg") (Some demo_image))
              demo_image (form_body "Cafe")) with (p := uploads_dir ++ txt "1b9d6bcd.jpeg")
              (im := mkImage 800%Z 600%Z) as (H1 & H2 & _).
  - vm_compute. reflexivity.
  - vm_compute. discriminate.
  - reflexivity.
  - vm_compute. left.
  - split; assumption.
Defined.
