(* ===== verification/Client.v ===== *)
(** * Client: the browser modules composed with the API they call

    [src/public/javascripts/modules/heart.js] posts the heart form with
    axios.  When the response arrives, it toggles the class
    [heart__button--hearted] with [classList.toggle] and shows
    [res.data.hearts.length] as the count.  The class is flipped whatever
    the server answered.  [src/public/javascripts/modules/map.js]
    ([loadPlaces]) asks [/api/stores/near?lat=..&lng=..]
    ([Queries.mapStores]).  It alerts when no place comes back, and
    otherwise puts one marker per place at [(lat, lng)] read from the
    place's [[lng, lat]] coordinates, extends a bounding box with each
    marker, and fits the map to it.

    The composed systems are explicit: a click is the server's
    [heartStore] on the user that the session loads from the database
    (passport's [deserializeUser]), followed by the client's response
    handler.  A double click sends both requests before either answer
    arrives, so both run on the same loaded user.  The map view is
    [loadPlaces] applied to the answer of [mapStores].

    Not modelled: the DOM and Google Maps objects; the [heart__button--float]
    animation; the wrap of [LatLngBounds] across the antimeridian (the box
    here is a plain latitude/longitude box); [autocomplete.js], which only
    copies a place's coordinates into two form fields and cancels the
    Enter key.

    Theorems: sequential clicks keep the button in step with the stored
    hearts ([clicks_in_sync]); a double click leaves the button showing
    the old state while the server has flipped it ([double_click_desync]);
    every marker of the map is a stored store within 10 km of the query
    point, at its own coordinates, inside the fitted box
    ([map_markers]). *)

From Stdlib Require Import QArith Qminmax String.
From S2P Require Import Prelude Text Model Store Queries Hearts.

(** ** [heart.js] *)

(** The state the page shows for one store: the class and the count. *)
Record HeartButton := mkButton { hearted : bool; count_shown : nat }.

(** The [.then] callback: the class is toggled first; a [null] user (no
    document for the session's id) makes [res.data.hearts] throw after
    the toggle, and the count stays. *)
Definition on_heart_response (b : HeartButton) (resp : option User) : HeartButton :=
  match resp with
  | Some u => mkButton (negb (hearted b)) (length (hearts u))
  | None => mkButton (negb (hearted b)) (count_shown b)
  end.

(** One click served alone: the session loads the user [uid], the server
    runs [heartStore], the client handles the answer.  Without a user the
    request fails and the [.catch] only logs. *)
Definition click (db : DB) (uid sid : oid) (b : HeartButton) : DB * HeartButton :=
  match find_user db uid with
  | None => (db, b)
  | Some me => let '(db', r) := heartStore db me sid in (db', on_heart_response b r)
  end.

Fixpoint clicks (n : nat) (db : DB) (uid sid : oid) (b : HeartButton) : DB * HeartButton :=
  match n with
  | 0 => (db, b)
  | S n => let '(db', b') := click db uid sid b in clicks n db' uid sid b'
  end.

(** Two clicks whose requests both load the user before either write;
    the answers arrive in order. *)
Definition double_click (db : DB) (uid sid : oid) (b : HeartButton) : DB * HeartButton :=
  match find_user db uid with
  | None => (db, b)
  | Some me =>
      let '(db1, r1) := heartStore db me sid in
      let '(db2, r2) := heartStore db1 me sid in
      (db2, on_heart_response (on_heart_response b r1) r2)
  end.

(** The button shows the stored state of user [uid] for store [sid]. *)
Definition in_sync (db : DB) (uid sid : oid) (b : HeartButton) : Prop :=
  exists u, find_user db uid = Some u /\
            hearted b = bool_decide (sid ∈ hearts u) /\ count_shown b = length (hearts u).

(** ** [map.js] *)

Record Marker := mkMarker { marker_lat : Q; marker_lng : Q; marker_place : MapStore }.

(** [const [placeLng, placeLat] = place.location.coordinates] *)
Definition place_marker (p : MapStore) : option Marker :=
  match coordinates (map_location p) with
  | lng :: lat :: _ => Some (mkMarker lat lng p)
  | _ => None
  end.

(** [LatLngBounds]: the latitude range and the longitude range. *)
Abbreviation box := ((Q * Q) * (Q * Q))%type.

(** [bounds.extend(position)] *)
Definition extend (b : option box) (m : Marker) : option box :=
  let la := marker_lat m in let ln := marker_lng m in
  match b with
  | None => Some ((la, la), (ln, ln))
  | Some ((a, a'), (c, c')) => Some ((Qmin a la, Qmax a' la), (Qmin c ln, Qmax c' ln))
  end.

Definition in_box (b : box) (m : Marker) : Prop :=
  (b.1.1 <= marker_lat m <= b.1.2)%Q /\ (b.2.1 <= marker_lng m <= b.2.2)%Q.

Inductive MapView :=
| AlertNoPlaces                                  (** [alert("no places found")] *)
| ShowMarkers (ms : list Marker) (bounds : box)  (** markers, then [fitBounds] *)
| BadPlace.                                      (** a place without two coordinates *)

(** [loadPlaces]' callback on the answer [places]. *)
Definition loadPlaces (places : list MapStore) : MapView :=
  match places with
  | [] => AlertNoPlaces
  | _ =>
      match mapM place_marker places with
      | Some ms => match foldl extend None ms with
                   | Some b => ShowMarkers ms b
                   | None => AlertNoPlaces
                   end
      | None => BadPlace
      end
  end.

(** The page asks for the places near [(lat, lng)]: the request names
    both parameters, the server reads them back by name. *)
Definition showNear `{GeoIndex} (db : DB) (lat lng : Q) : result AppError MapView :=
  places ← mapStores db (Some lng) (Some lat); mret (loadPlaces places).

(** ** Lemmas on the heart button *)

Lemma toggle_membership hs sid :
  bool_decide (sid ∈ apply_heart_op (heart_operator hs sid) sid hs) = negb (bool_decide (sid ∈ hs)).
Proof.
  pose proof (elem_of_toggle hs sid sid) as Ht. destruct (decide (sid ∈ hs)).
  - rewrite (bool_decide_eq_true_2 (sid ∈ hs)), bool_decide_eq_false_2; naive_solver.
  - rewrite (bool_decide_eq_false_2 (sid ∈ hs)), bool_decide_eq_true_2; naive_solver.
Qed.

Lemma click_in_sync db uid sid b :
  in_sync db uid sid b -> in_sync (click db uid sid b).1 uid sid (click db uid sid b).2.
Proof.
  intros (u & Hf & Hh & Hc). unfold click. rewrite Hf.
  destruct (find_user_Some _ _ _ Hf) as [_ <-].
  rewrite (heartStore_found _ _ _ u) by done. simpl.
  set (u' := set_hearts u (apply_heart_op (heart_operator (hearts u) sid) sid (hearts u))).
  exists u'. split; [exact (find_user_replace db u u' Hf)|]. simpl.
  by rewrite toggle_membership, Hh.
Qed.

(** ** Lemmas on the map *)

Lemma in_box_extend_new o m b : extend o m = Some b -> in_box b m.
Proof.
  unfold extend, in_box. destruct o as [[[a a'] [c c']]|]; intros [= <-]; simpl.
  - split; split; auto using Q.le_min_r, Q.le_max_r.
  - split; split; apply Qle_refl.
Qed.

Lemma in_box_extend_old b m m' b' : in_box b m -> extend (Some b) m' = Some b' -> in_box b' m.
Proof.
  destruct b as [[a a'] [c c']]. unfold in_box, extend. simpl.
  intros [[H1 H2] [H3 H4]] [= <-]. simpl. split; split.
  - eapply Qle_trans; [apply Q.le_min_l|done].
  - eapply Qle_trans; [exact H2|apply Q.le_max_l].
  - eapply Qle_trans; [apply Q.le_min_l|done].
  - eapply Qle_trans; [exact H4|apply Q.le_max_l].
Qed.

Lemma extend_is_Some o m : is_Some (extend o m).
Proof. unfold extend. destruct o as [[[? ?] [? ?]]|]; eauto. Qed.

(** Folding [extend] gives a box that holds every marker, and every
    marker of the starting box. *)
Lemma foldl_extend_box o ms b :
  foldl extend o ms = Some b ->
  (forall m, m ∈ ms -> in_box b m) /\ (forall b0 m, o = Some b0 -> in_box b0 m -> in_box b m).
Proof.
  revert o. induction ms as [|m ms IH]; intros o Hf; simpl in Hf.
  - subst o. split; [set_solver|]. by intros b0 m [= ->].
  - destruct (extend_is_Some o m) as [b1 Hb1]. rewrite Hb1 in Hf.
    destruct (IH _ Hf) as [Hin Hold]. split.
    + intros m' [->|Hm']%elem_of_cons; [|auto].
      eapply Hold; [done|]. by eapply in_box_extend_new.
    + intros b0 m' -> Hm'. eapply Hold; [done|]. by eapply in_box_extend_old.
Qed.

Lemma foldl_extend_Some o m ms : is_Some (foldl extend o (m :: ms)).
Proof.
  cbn [foldl]. destruct (extend_is_Some o m) as [b1 ->]. clear o. revert b1.
  induction ms as [|m' ms IH]; intros b1; cbn [foldl]; [eauto|].
  destruct (extend_is_Some (Some b1) m') as [b2 ->]. apply IH.
Qed.

(** A place of [mapStores]' answer gets the marker at its own point. *)
Lemma place_marker_select st q :
  store_point st = Some q -> place_marker (select_map st) = Some (mkMarker q.2 q.1 (select_map st)).
Proof.
  unfold store_point, place_marker. simpl.
  destruct (coordinates (location st)) as [|x [|y [|]]]; intros; simplify_eq; done.
Qed.

(** The answer made of selected stores with a point gives one marker per
    place, at the place's own point, all inside the fitted box. *)
Lemma loadPlaces_shows (P : Store -> (Q * Q) -> Prop) places :
  places <> [] ->
  (forall p, p ∈ places -> exists st q, p = select_map st /\ store_point st = Some q /\ P st q) ->
  exists ms b, loadPlaces places = ShowMarkers ms b /\ length ms = length places /\
    forall m, m ∈ ms -> in_box b m /\
      exists st q, P st q /\ store_point st = Some q /\ m = mkMarker q.2 q.1 (select_map st).
Proof.
  intros Hne Hp.
  assert (Forall (fun p => forall m, place_marker p = Some m ->
            exists st q, P st q /\ store_point st = Some q /\ m = mkMarker q.2 q.1 (select_map st))
            places) as Hall.
  { apply list.Forall_forall. intros p Hin m Hm.
    destruct (Hp p Hin) as (st & q & -> & Hq & HP).
    rewrite (place_marker_select _ q) in Hm by done. injection Hm as <-. eauto. }
  destruct (mapM_is_Some_2 place_marker places) as [ms Hms].
  { apply list.Forall_forall. intros p Hin.
    destruct (Hp p Hin) as (st & q & -> & Hq & _). simpl. rewrite (place_marker_select _ q); eauto. }
  apply mapM_Some_1 in Hms as H2. pose proof (Forall2_length _ _ _ H2) as Hlen.
  pose proof (Forall2_Forall_r _ _ _ _ H2 Hall) as Hms'.
  destruct places as [|p ps]; [done|]. destruct ms as [|m ms]; [done|].
  destruct (foldl_extend_Some None m ms) as [b Hb].
  exists (m :: ms), b. unfold loadPlaces. rewrite Hms, Hb. split_and!; [done..|].
  intros m' Hm'. split; [by apply (proj1 (foldl_extend_box _ _ _ Hb))|].
  rewrite list.Forall_forall in Hms'. by apply Hms'.
Qed.

(** ** Theorems *)

(** C22: sequential clicks on a heart keep the page in step with the
    datastore: when the button shows the stored state of the user for the
    store, it still does after any number of clicks, each answered before
    the next is sent. *)
Theorem clicks_in_sync n db uid sid b :
  in_sync db uid sid b -> in_sync (clicks n db uid sid b).1 uid sid (clicks n db uid sid b).2.
Proof.
  revert db b. induction n as [|n IH]; intros db b Hs; [done|]. simpl.
  pose proof (click_in_sync _ _ _ _ Hs) as H.
  destruct (click db uid sid b) as [db' b']. by apply IH.
Qed.

(** C8: a double click, both requests sent before either answer, leaves
    the page and the datastore apart: the class is toggled twice and
    shows the old state, while both requests applied the operator chosen
    from the same loaded user, so the store's membership has flipped. *)
Theorem double_click_desync db uid sid b :
  in_sync db uid sid b ->
  hearted (double_click db uid sid b).2 = hearted b /\
  exists u2, find_user (double_click db uid sid b).1 uid = Some u2 /\
             bool_decide (sid ∈ hearts u2) = negb (hearted b).
Proof.
  intros (u & Hf & Hh & _). destruct (find_user_Some _ _ _ Hf) as [_ <-].
  unfold double_click. rewrite Hf, (heartStore_found _ _ _ u) by done.
  set (op := heart_operator (hearts u) sid).
  set (u1 := set_hearts u (apply_heart_op op sid (hearts u))).
  pose proof (find_user_replace db u u1 Hf) as Hf1.
  rewrite (heartStore_found _ _ _ u1) by exact Hf1. simpl.
  split; [by destruct (hearted b)|].
  set (u2 := set_hearts u1 (apply_heart_op op sid (hearts u1))).
  exists u2. split; [exact (find_user_replace _ u1 u2 Hf1)|].
  simpl. subst op. rewrite apply_heart_op_idem, toggle_membership. by rewrite Hh.
Qed.

(** C24: the map page composed with [mapStores]: on a valid point the view
    is an alert exactly when no store lies within 10 km, and otherwise
    one to ten markers, each at the [(lat, lng)] of a stored store whose
    point is within 10 km of the query point, all inside the box the map
    is fitted to. *)
Theorem map_markers `{GeoIndex} db lat lng v :
  showNear db lat lng = Ok v ->
  (v = AlertNoPlaces /\ near_candidates (lng, lat) db = []) \/
  exists ms b, v = ShowMarkers ms b /\ 1 <= length ms <= 10 /\
    forall m, m ∈ ms -> in_box b m /\
      exists st q, (st ∈ stores db /\ (geo_distance q (lng, lat) <= max_distance)%Q) /\
        store_point st = Some q /\ m = mkMarker q.2 q.1 (select_map st).
Proof.
  unfold showNear, mapStores. destruct (valid_point _); [|done]. simpl. intros [= <-].
  pose proof (sort_take_topN dist_asc 10 (near_candidates (lng, lat) db)) as Ht.
  destruct (sort_take dist_asc 10 (near_candidates (lng, lat) db)) as [|c cs] eqn:Ec.
  - left. split; [done|]. destruct Ht as (_ & Hl & _). cbn [length] in Hl.
    apply length_zero_iff_nil. lia.
  - right. destruct (loadPlaces_shows
      (fun st q => st ∈ stores db /\ (geo_distance q (lng, lat) <= max_distance)%Q)
      (select_map ∘ snd <$> c :: cs)) as (ms & b & -> & Hlen & Hms); [done| |].
    + intros p (x & -> & Hx)%list_elem_of_fmap. destruct x as [d st].
      apply (topN_elem _ _ _ _ _ Ht) in Hx.
      apply elem_of_near_candidates in Hx as (Hst & q & Hq & -> & Hd). eauto 10.
    + exists ms, b. split; [done|]. split; [|done].
      apply topN_length_le in Ht. rewrite Hlen, length_fmap. cbn [length] in *. lia.
Qed.

(** ** Witnesses *)

Lemma ann_in_sync : in_sync hearts_db 5 1 (mkButton false 0).
Proof. exists ann. split_and!; reflexivity. Qed.

Lemma clicks_in_sync_witness :
  in_sync (clicks 3 hearts_db 5 1 (mkButton false 0)).1 5 1 (clicks 3 hearts_db 5 1 (mkButton false 0)).2.
Proof. apply clicks_in_sync, ann_in_sync. Defined.

Lemma double_click_desync_witness :
  hearted (double_click hearts_db 5 1 (mkButton false 0)).2 = false /\
  exists u2, find_user (double_click hearts_db 5 1 (mkButton false 0)).1 5 = Some u2 /\
             bool_decide (1 ∈ hearts u2) = true.
Proof. apply (double_click_desync hearts_db 5 1 (mkButton false 0)), ann_in_sync. Defined.

Lemma map_markers_witness :
  exists v, @showNear taxicab_index db_cafe2 (432 # 10) (-798 # 10) = Ok v /\
    exists ms b, v = ShowMarkers ms b /\ 1 <= length ms <= 10.
Proof.
  destruct (@showNear taxicab_index db_cafe2 (432 # 10) (-798 # 10)) as [v|e] eqn:E; [|refute_eval E].
  exists v. split; [reflexivity|].
  destruct (map_markers _ _ _ _ E) as [[_ Hnil]|(ms & b & -> & Hlen & _)]; [refute_eval Hnil|].
  exists ms, b. split; [reflexivity|exact Hlen].
Defined.
