(* ===== verification/MapPage.v ===== *)
(** * MapPage: the map page of [map.js] over time

    [src/public/javascripts/modules/map.js]: [makeMap] (lines 58-73)
    does nothing without a map element; otherwise it draws the map with
    [mapOptions] (lines 5-8: centre 43.2, -79.8, zoom 10), calls
    [loadPlaces(map)] for that default point and, on every
    [place_changed] of the address autocomplete, calls [loadPlaces] for
    the chosen place.  [loadPlaces] (lines 9-56) sends
    [axios.get(`/api/stores/near?lat=${lat}&lng=${lng}`)] and, when the
    answer arrives, alerts on an empty list, and otherwise adds one marker
    per place to the map, attaches the popup of lines 36-49 to each, and
    fits the map to the markers' bounds.  No marker is ever removed, and
    nothing relates an answer to the request that is the latest one.

    The page is a record: the markers on the map, the viewport, the
    number of alerts shown and the requests sent and not yet answered, in
    sending order.  Events are [place_changed] and the arrival of the
    answer to any pending request, in any order: the network does not keep
    the order of requests.  The server answers with [mapStores]
    (Queries.v) on a datastore that stays the same while the page is
    open.  A rejected request ([mapStores] refuses the point) has no
    [.catch]: nothing on the page changes.

    [src/public/javascripts/modules/autocomplete.js] is the address field
    of the store form: [place_changed] copies the place's coordinates into
    the hidden fields, and [keydown] cancels Enter, whose default action
    would submit the form.

    Theorems: every marker ever shown is a stored store within 10 km of a
    point the page asked for ([page_markers_near], by induction on the
    events); answers handled in sending order leave the map on the last
    place chosen, answers in the other order leave it on the first one,
    and the markers of both searches stay ([answer_order]); the popup
    shows the address typed in the store form without escaping
    ([popup_address_verbatim]); with the address field present no key
    submits the store form, whose fields hold the last place chosen
    ([autocomplete_run]). *)

From Stdlib Require Import QArith Qminmax String.
From S2P Require Import Prelude Text Model Store Queries Client.
Import Chars.

(** ** The page *)

(** [mapOptions]: the default centre and zoom. *)
Definition default_lat : Q := 432 # 10.
Definition default_lng : Q := -798 # 10.
Definition default_zoom : nat := 10.

(** What the map shows: its initial centre and zoom, or the bounds of
    the last [fitBounds]. *)
Inductive Viewport :=
| Centered (lat lng : Q) (zoom : nat)
| Fitted (b : box).

Record Page := mkPage {
  page_markers : list Marker;
  viewport : Viewport;
  alerts : nat;
  pending : list (Q * Q)
}.

Definition with_pending (l : list (Q * Q)) (pg : Page) : Page :=
  mkPage (page_markers pg) (viewport pg) (alerts pg) l.

(** [alert("no places found")] *)
Definition alert_none (pg : Page) : Page :=
  mkPage (page_markers pg) (viewport pg) (S (alerts pg)) (pending pg).

(** [new google.maps.Marker({ map, position })] for each new marker. *)
Definition add_markers (ms : list Marker) (pg : Page) : Page :=
  mkPage (page_markers pg ++ ms) (viewport pg) (alerts pg) (pending pg).

(** [map.setCenter(bounds.getCenter()); map.fitBounds(bounds)] *)
Definition fit (b : box) (pg : Page) : Page :=
  mkPage (page_markers pg) (Fitted b) (alerts pg) (pending pg).

(** [places.map(...)]: the markers made before the first place without
    two coordinates, and whether every place gave one; the destructuring
    of such a place throws and stops the callback. *)
Fixpoint make_markers (ps : list MapStore) : list Marker * bool :=
  match ps with
  | [] => ([], true)
  | p :: ps =>
      match place_marker p with
      | Some m => let '(ms, ok) := make_markers ps in (m :: ms, ok)
      | None => ([], false)
      end
  end.

(** The callback of [loadPlaces] on the answer [places]. *)
Definition on_places (places : list MapStore) (pg : Page) : Page :=
  match places with
  | [] => alert_none pg
  | _ =>
      let '(ms, ok) := make_markers places in
      let pg' := add_markers ms pg in
      if ok then match foldl extend None ms with
                 | Some b => fit b pg'
                 | None => pg'
                 end
      else pg'
  end.

(** [axios.get(`/api/stores/near?lat=${lat}&lng=${lng}`)] *)
Definition get_near (lat lng : Q) (pg : Page) : Page :=
  with_pending (pending pg ++ [(lat, lng)]) pg.

(** [makeMap(mapDiv)]: nothing without the element; otherwise the map
    with [mapOptions] and [loadPlaces(map)] for the default point. *)
Definition makeMap (mapDiv : bool) : option Page :=
  if mapDiv then Some (get_near default_lat default_lng
                          (mkPage [] (Centered default_lat default_lng default_zoom) 0 []))
  else None.

Inductive page_event :=
| PlaceChanged (lat lng : Q)
| Answer (i : nat).

Section Events.
Context `{GeoIndex} (db : DB).

(** One event: [place_changed] sends a request; the answer to the [i]-th
    pending request runs the callback, or nothing when it is refused. *)
Definition page_step (pg : Page) (e : page_event) : Page :=
  match e with
  | PlaceChanged lat lng => get_near lat lng pg
  | Answer i =>
      match pending pg !! i with
      | None => pg
      | Some (lat, lng) =>
          let pg' := with_pending (delete i (pending pg)) pg in
          match mapStores db (Some lng) (Some lat) with
          | Ok places => on_places places pg'
          | Err _ => pg'
          end
      end
  end.

Definition page_run (pg : Page) (es : list page_event) : Page := foldl page_step pg es.

End Events.

(** ** The popup of a marker *)

Definition quoted (s : text) : text := dquote :: s ++ [dquote].

(** A new line of the template literal, indented by [n] spaces. *)
Definition line (n : nat) (s : text) : text := newline :: repeat space n ++ s.

(** [${x}] of a value that may be [undefined]. *)
Definition show_undefined (x : option text) : text := default (txt "undefined") x.

(** [this.place.photo || "store.png"]: an absent or empty name is falsy. *)
Definition photo_or_default (p : option text) : text :=
  match p with
  | Some (c :: f) => c :: f
  | _ => txt "store.png"
  end.

(** The [html] of the marker's click listener. *)
Definition popup_html (p : MapStore) : text :=
  line 12 (txt "<div class=" ++ quoted (txt "popup") ++ txt ">") ++
  line 16 (txt "<a href=" ++ quoted (txt "/store/" ++ map_slug p) ++ txt ">") ++
  line 20 (txt "<img src=" ++ quoted (txt "/uploads/" ++ photo_or_default (map_photo p)) ++
           txt " alt=" ++ quoted (map_name p) ++ txt "/>") ++
  line 20 (txt "<p>" ++ map_name p ++ txt " - " ++ show_undefined (address (map_location p)) ++
           txt "</p>") ++
  line 20 (txt "</a>") ++
  line 12 (txt "</div>") ++
  line 8 [].

(** [infoWindow.setContent(html)] on a click on the [i]-th marker of the
    page; the listener stays on markers of earlier answers. *)
Definition marker_click (pg : Page) (i : nat) : option text :=
  m ← page_markers pg !! i; Some (popup_html (marker_place m)).

(** ** [autocomplete.js]: the address field of the store form *)

(** The hidden fields [lat] and [lng] of the form, and whether the form
    was submitted. *)
Record AddressForm := mkAddressForm {
  lat_value : option Q;
  lng_value : option Q;
  submitted : bool
}.

Inductive form_event :=
| AddressChosen (lat lng : Q)
| KeyDown (keyCode : nat).

(** The browser's default action for a key in a text field: Enter
    submits the form. *)
Definition key_default (keyCode : nat) (f : AddressForm) : AddressForm :=
  if Nat.eqb keyCode 13 then mkAddressForm (lat_value f) (lng_value f) true else f.

(** [autocomplete(input, latInput, lngInput)]: without the input no
    listener is attached; [place_changed] copies the place's coordinates,
    and [keydown] cancels Enter. *)
Definition autocomplete (input : bool) (f : AddressForm) (e : form_event) : AddressForm :=
  match e with
  | AddressChosen lat lng => if input then mkAddressForm (Some lat) (Some lng) (submitted f) else f
  | KeyDown k => if input && Nat.eqb k 13 then f else key_default k f
  end.

(** The last place chosen in a sequence of events. *)
Fixpoint last_choice (es : list form_event) : option (Q * Q) :=
  match es with
  | [] => None
  | AddressChosen lat lng :: es => Some (default (lat, lng) (last_choice es))
  | KeyDown _ :: es => last_choice es
  end.

(** ** Lemmas *)

(** A marker of the place [st] of [db], at its point [q], within 10 km of
    a point of [A]. *)
Definition near_marker `{GeoIndex} (db : DB) (A : Q * Q -> Prop) (m : Marker) : Prop :=
  exists st q lat lng, st ∈ stores db /\ store_point st = Some q /\
    m = mkMarker q.2 q.1 (select_map st) /\
    (geo_distance q (lng, lat) <= max_distance)%Q /\ A (lat, lng).

Lemma make_markers_mapM ps ms : mapM place_marker ps = Some ms -> make_markers ps = (ms, true).
Proof.
  revert ms. induction ps as [|p ps IH]; intros ms; simpl; [by intros [= <-]|].
  destruct (place_marker p) as [m|]; simpl; [|done].
  destruct (mapM place_marker ps) as [ms'|] eqn:E; simpl; [|done].
  intros [= <-]. by rewrite (IH ms').
Qed.

Lemma make_markers_elem ps ms ok m :
  make_markers ps = (ms, ok) -> m ∈ ms -> exists p, p ∈ ps /\ place_marker p = Some m.
Proof.
  revert ms ok. induction ps as [|p ps IH]; intros ms ok; simpl; [intros [= <- _]; set_solver|].
  destruct (place_marker p) as [m'|] eqn:Hp; [|intros [= <- _]; set_solver].
  destruct (make_markers ps) as [ms' ok'] eqn:E. intros [= <- _] [->|Hm]%elem_of_cons.
  - exists p. split; [left|done].
  - destruct (IH ms' ok' eq_refl Hm) as (p' & ? & ?). exists p'. split; [by right|done].
Qed.

(** The callback keeps the pending requests and only adds markers, each
    made from a place of the answer. *)
Lemma on_places_frame ps pg :
  pending (on_places ps pg) = pending pg /\
  exists ms, page_markers (on_places ps pg) = page_markers pg ++ ms /\
    forall m, m ∈ ms -> exists p, p ∈ ps /\ place_marker p = Some m.
Proof.
  unfold on_places. destruct ps as [|p ps]; [split; [done|exists []; rewrite app_nil_r; set_solver]|].
  destruct (make_markers (p :: ps)) as [ms ok] eqn:E.
  assert (forall m, m ∈ ms -> exists p', p' ∈ p :: ps /\ place_marker p' = Some m)
    by eauto using make_markers_elem.
  destruct ok; [destruct (foldl extend None ms)|]; split; eauto.
Qed.

Lemma on_places_show ps ms b pg :
  loadPlaces ps = ShowMarkers ms b -> on_places ps pg = fit b (add_markers ms pg).
Proof.
  unfold loadPlaces, on_places. destruct ps as [|p ps]; [done|].
  destruct (mapM place_marker (p :: ps)) as [ms'|] eqn:E; [|done].
  destruct (foldl extend None ms') as [b'|] eqn:Ef; [|done].
  intros [= <- <-]. by rewrite (make_markers_mapM _ _ E), Ef.
Qed.

Lemma showNear_show `{GeoIndex} db lat lng ms b :
  showNear db lat lng = Ok (ShowMarkers ms b) ->
  exists ps, mapStores db (Some lng) (Some lat) = Ok ps /\ loadPlaces ps = ShowMarkers ms b.
Proof.
  unfold showNear. destruct (mapStores db (Some lng) (Some lat)) as [ps|]; simpl; [|done].
  intros [= <-]. eauto.
Qed.

(** Every place of an answer is a stored store with a point within 10 km
    of the query point. *)
Lemma mapStores_places `{GeoIndex} db lng lat ps :
  mapStores db (Some lng) (Some lat) = Ok ps ->
  forall p, p ∈ ps -> exists st q, p = select_map st /\ st ∈ stores db /\
    store_point st = Some q /\ (geo_distance q (lng, lat) <= max_distance)%Q.
Proof.
  unfold mapStores. destruct (valid_point _); [|done]. intros [= <-] p Hp.
  apply list_elem_of_fmap in Hp as ([d st] & -> & Hx).
  apply (topN_elem _ _ _ _ _ (sort_take_topN _ _ _)) in Hx.
  apply elem_of_near_candidates in Hx as (Hst & q & Hq & -> & Hd). eauto 10.
Qed.

(** One event keeps every marker near a point of [A] when the pending
    requests and the place chosen are points of [A]. *)
Lemma page_step_inv `{GeoIndex} db (A : Q * Q -> Prop) pg e :
  (forall m, m ∈ page_markers pg -> near_marker db A m) ->
  (forall x, x ∈ pending pg -> A x) ->
  (forall lat lng, e = PlaceChanged lat lng -> A (lat, lng)) ->
  (forall m, m ∈ page_markers (page_step db pg e) -> near_marker db A m) /\
  (forall x, x ∈ pending (page_step db pg e) -> A x).
Proof.
  intros Hm Hp He. destruct e as [lat lng|i]; unfold page_step.
  - split; [done|]. intros x Hx. apply elem_of_app in Hx as [Hx|Hx]; [auto|]. apply list_elem_of_singleton in Hx. subst x. eauto.
  - destruct (pending pg !! i) as [[lat lng]|] eqn:Hi; [|done].
    assert (A (lat, lng)) by (apply Hp; by eapply list_elem_of_lookup_2).
    destruct (mapStores db (Some lng) (Some lat)) as [ps|] eqn:Ems;
      [|split; [exact Hm|intros x Hx%list_elem_of_delete_inv; auto]].
    destruct (on_places_frame ps (with_pending (delete i (pending pg)) pg)) as [-> (ms & -> & Hms)].
    split; [|intros x Hx%list_elem_of_delete_inv; auto].
    intros m [Hm'|Hm']%elem_of_app; [by apply Hm|].
    destruct (Hms m Hm') as (p & Hp' & Hpm).
    destruct (mapStores_places _ _ _ _ Ems p Hp') as (st & q & -> & Hst & Hq & Hd).
    rewrite (place_marker_select _ q Hq) in Hpm. injection Hpm as <-.
    exists st, q, lat, lng. done.
Qed.

Lemma page_run_inv `{GeoIndex} db (A : Q * Q -> Prop) es pg :
  (forall m, m ∈ page_markers pg -> near_marker db A m) ->
  (forall x, x ∈ pending pg -> A x) ->
  (forall lat lng, PlaceChanged lat lng ∈ es -> A (lat, lng)) ->
  forall m, m ∈ page_markers (page_run db pg es) -> near_marker db A m.
Proof.
  revert pg. induction es as [|e es IH]; intros pg Hm Hp He; [done|]. simpl.
  destruct (page_step_inv db A pg e Hm Hp) as [Hm' Hp'].
  { intros lat lng ->. apply He. by left. }
  apply IH; [done|done|]. intros lat lng Hin. apply He. by right.
Qed.

(** The answer to a pending request whose point has stores near it adds
    their markers and fits the map to them. *)
Lemma page_answer `{GeoIndex} db pg i lat lng ms b :
  pending pg !! i = Some (lat, lng) ->
  showNear db lat lng = Ok (ShowMarkers ms b) ->
  page_step db pg (Answer i) = mkPage (page_markers pg ++ ms) (Fitted b) (alerts pg) (delete i (pending pg)).
Proof.
  intros Hi Hs. destruct (showNear_show _ _ _ _ _ Hs) as (ps & Ems & Hl).
  unfold page_step. rewrite Hi, Ems. by rewrite (on_places_show _ _ _ _ Hl).
Qed.

(** The address of a place appears in its popup as it is. *)
Lemma popup_html_address p a :
  address (map_location p) = Some a -> exists pre post, popup_html p = pre ++ a ++ post.
Proof.
  intros Ha. unfold popup_html, show_undefined. rewrite Ha. cbn [default].
  exists (line 12 (txt "<div class=" ++ quoted (txt "popup") ++ txt ">") ++
          line 16 (txt "<a href=" ++ quoted (txt "/store/" ++ map_slug p) ++ txt ">") ++
          line 20 (txt "<img src=" ++ quoted (txt "/uploads/" ++ photo_or_default (map_photo p)) ++
                   txt " alt=" ++ quoted (map_name p) ++ txt "/>") ++
          newline :: repeat space 20 ++ txt "<p>" ++ map_name p ++ txt " - "),
         (txt "</p>" ++ line 20 (txt "</a>") ++ line 12 (txt "</div>") ++ line 8 []).
  rewrite <-!app_assoc. unfold line at 4. cbn [app]. rewrite <-!app_assoc. reflexivity.
Qed.

(** With the address field present, no key submits the form, and the
    hidden fields hold the last place chosen. *)
Lemma autocomplete_run f es :
  foldl (autocomplete true) f es =
  match last_choice es with
  | Some (lat, lng) => mkAddressForm (Some lat) (Some lng) (submitted f)
  | None => f
  end.
Proof.
  revert f. induction es as [|[lat lng|k] es IH]; intros f; simpl; [done| |].
  - rewrite IH. by destruct (last_choice es) as [[]|].
  - destruct (Nat.eqb_spec k 13); [by apply IH|]. unfold key_default.
    rewrite (proj2 (Nat.eqb_neq _ _)) by done. apply IH.
Qed.

(** ** Theorems *)

(** C25: whatever [place_changed] events and answers arrive, in whatever
    order, every marker on the map is the marker of a stored store, at
    the (lat, lng) of its own point, within 10 km of the default point or
    of a place the user chose. *)
Theorem page_markers_near `{GeoIndex} db es pg m :
  makeMap true = Some pg ->
  m ∈ page_markers (page_run db pg es) ->
  exists st q lat lng, st ∈ stores db /\ store_point st = Some q /\
    m = mkMarker q.2 q.1 (select_map st) /\
    (geo_distance q (lng, lat) <= max_distance)%Q /\
    ((lat, lng) = (default_lat, default_lng) \/ PlaceChanged lat lng ∈ es).
Proof.
  intros [= <-] Hm.
  refine (page_run_inv db (fun x => x = (default_lat, default_lng) \/ PlaceChanged x.1 x.2 ∈ es)
            es _ _ _ _ m Hm); [set_solver| |by right].
  intros x ->%list_elem_of_singleton. by left.
Qed.

(** C26: two places chosen one after the other, both with stores near
    them: when the answers arrive in the order of the requests the map is
    fitted to the second place's markers; when the second answer arrives
    first the map ends fitted to the first place, which the user has left.
    In both orders the markers of both searches stay on the map. *)
Theorem answer_order `{GeoIndex} db pg lat1 lng1 lat2 lng2 ms1 b1 ms2 b2 :
  pending pg = [] ->
  showNear db lat1 lng1 = Ok (ShowMarkers ms1 b1) ->
  showNear db lat2 lng2 = Ok (ShowMarkers ms2 b2) ->
  page_run db pg [PlaceChanged lat1 lng1; PlaceChanged lat2 lng2; Answer 0; Answer 0] =
    mkPage (page_markers pg ++ ms1 ++ ms2) (Fitted b2) (alerts pg) [] /\
  page_run db pg [PlaceChanged lat1 lng1; PlaceChanged lat2 lng2; Answer 1; Answer 0] =
    mkPage (page_markers pg ++ ms2 ++ ms1) (Fitted b1) (alerts pg) [].
Proof.
  intros Hp H1 H2. unfold page_run. cbn [foldl].
  set (pg2 := page_step db (page_step db pg (PlaceChanged lat1 lng1)) (PlaceChanged lat2 lng2)).
  assert (pending pg2 = [(lat1, lng1); (lat2, lng2)]) as Hp2 by (simpl; by rewrite Hp).
  split.
  - rewrite (page_answer db pg2 0 lat1 lng1 ms1 b1 ltac:(by rewrite Hp2) H1).
    erewrite page_answer; [|by rewrite Hp2|exact H2]. rewrite Hp2. simpl. by rewrite app_assoc.
  - rewrite (page_answer db pg2 1 lat2 lng2 ms2 b2 ltac:(by rewrite Hp2) H2).
    erewrite page_answer; [|by rewrite Hp2|exact H1]. rewrite Hp2. simpl. by rewrite app_assoc.
Qed.

(** C10: the address typed in the store form reaches the marker's popup
    unescaped: for every store created with an address, the popup's HTML,
    which [infoWindow.setContent] inserts as markup, holds the address as
    typed, whereas the name went through [striptags] on save. *)
Theorem popup_address_verbatim db user now body db' st a :
  createStore db user now body = Ok (db', st) ->
  body_address body = Some a ->
  exists pre post, popup_html (select_map st) = pre ++ a ++ post.
Proof.
  intros Hc Ha. apply popup_html_address.
  destruct (createStore_Ok _ _ _ _ _ _ Hc) as (_ & -> & _ & _).
  destruct (pre_save_fields db (store_of_body (next_oid db) user now body)) as (_ & _ & _ & Hl & _).
  unfold select_map. cbn [map_location]. by rewrite Hl.
Qed.

(** ** Witnesses *)

(** The page right after [makeMap]: the request for the default point. *)
Definition page0 : Page :=
  mkPage [] (Centered default_lat default_lng default_zoom) 0 [(default_lat, default_lng)].

(** A store about 60 km from the two of [db_cafe2], whose address holds
    markup. *)
Definition deli_body : StoreBody :=
  {| body_name := Some (txt "Deli"); body_description := None; body_tags := None;
     body_coordinates := Some [(-794 # 10)%Q; (437 # 10)%Q];
     body_address := Some (txt "<img src=x onerror=alert(1)>"); body_photo := None;
     body_slug := None; body_author := None |}.

Definition db_towns : DB := run db_cafe2 (ReqCreate 3 30 deli_body).

Lemma page_markers_near_witness :
  exists m, m ∈ page_markers (@page_run taxicab_index db_towns page0
                                [Answer 0; PlaceChanged (437 # 10) (-794 # 10); Answer 0]) /\
  exists st q lat lng, st ∈ stores db_towns /\ store_point st = Some q /\
    m = mkMarker q.2 q.1 (select_map st) /\
    (@geo_distance taxicab_index q (lng, lat) <= max_distance)%Q /\
    ((lat, lng) = (default_lat, default_lng) \/
     PlaceChanged lat lng ∈ [Answer 0; PlaceChanged (437 # 10) (-794 # 10); Answer 0]).
Proof.
  destruct (page_markers (@page_run taxicab_index db_towns page0
              [Answer 0; PlaceChanged (437 # 10) (-794 # 10); Answer 0])) as [|m ms] eqn:E;
    [refute_eval E|].
  exists m. split; [left|].
  apply (page_markers_near db_towns _ page0 m); [reflexivity|rewrite E; left].
Defined.

Lemma answer_order_witness :
  exists ms1 b1 ms2 b2,
    @showNear taxicab_index db_towns default_lat default_lng = Ok (ShowMarkers ms1 b1) /\
    @showNear taxicab_index db_towns (437 # 10) (-794 # 10) = Ok (ShowMarkers ms2 b2) /\
    @page_run taxicab_index db_towns page0
      [Answer 0; PlaceChanged default_lat default_lng; PlaceChanged (437 # 10) (-794 # 10);
       Answer 1; Answer 0] =
      mkPage (ms1 ++ ms2 ++ ms1) (Fitted b1) 0 [].
Proof.
  destruct (@showNear taxicab_index db_towns default_lat default_lng) as [[|ms1 b1|]|] eqn:E1;
    try refute_eval E1.
  destruct (@showNear taxicab_index db_towns (437 # 10) (-794 # 10)) as [[|ms2 b2|]|] eqn:E2;
    try refute_eval E2.
  exists ms1, b1, ms2, b2. split_and!; [reflexivity|reflexivity|].
  pose (pg := @page_step taxicab_index db_towns page0 (Answer 0)).
  assert (pg = mkPage ms1 (Fitted b1) 0 []) as Hpg.
  { subst pg. rewrite (page_answer db_towns page0 0 default_lat default_lng ms1 b1 eq_refl E1). done. }
  destruct (@answer_order taxicab_index db_towns pg default_lat default_lng (437 # 10) (-794 # 10) ms1 b1 ms2 b2)
    as [_ H2]; [by rewrite Hpg|exact E1|exact E2|].
  rewrite Hpg in H2. unfold page_run in *. cbn [foldl] in *. fold pg. rewrite Hpg, H2. reflexivity.
Defined.

Lemma popup_address_verbatim_witness :
  exists db' st, createStore db_cafe2 3 30 deli_body = Ok (db', st) /\
    exists pre post, popup_html (select_map st) = pre ++ txt "<img src=x onerror=alert(1)>" ++ post.
Proof.
  destruct (createStore db_cafe2 3 30 deli_body) as [[db' st]|e] eqn:E; [|refute_eval E].
  exists db', st. split; [reflexivity|].
  exact (popup_address_verbatim _ _ _ _ _ _ _ E eq_refl).
Defined.
