(* ===== verification/Pages.v ===== *)
(** * Pages: the handlers that only render a view

    [homePage] (storeController.js, lines 27-29), [addStore] (lines
    32-34), [mapPage] (lines 194-196), [hearts] (lines 211-220),
    [getTopStores] (lines 222-225) and [account] (userController.js, lines
    64-66) each call [res.render] with a view, a title and, for two of
    them, the data the view lists.  A [View] is that call: the template
    name and the locals.

    The page of hearted stores reads [req.user], which passport's
    [deserializeUser] loads from the datastore when the request starts
    (Auth.v).  [hearted_page_after_heart] composes a heart toggle with
    the next request of the same session: the store is on that page. *)

From Stdlib Require Import QArith String.
From S2P Require Import Prelude Text Model Store Hearts Auth TopStores Users.

(** [res.render(view, locals)]: the locals the templates of [src/] use. *)
Inductive View :=
| ViewPlain (view : text)
| ViewTitled (view title : text)
| ViewStores (view title : text) (sts : list Store)
| ViewTop (view title : text) (rows : list TopStore).

(** [res.render("index")] *)
Definition homePage : View := ViewPlain (txt "index").

(** [res.render("editStore", { title: "Add Store" })] *)
Definition addStore : View := ViewTitled (txt "editStore") (txt "Add Store").

(** [res.render("map", { title: "Map" })] *)
Definition mapPage : View := ViewTitled (txt "map") (txt "Map").

(** [res.render("account", { title: "Edit your account" })] *)
Definition account : View := ViewTitled (txt "account") (txt "Edit your account").

(** [hearts]: the stores whose id is in [req.user.hearts]. *)
Definition heartsPage (db : DB) (me : User) : View :=
  ViewStores (txt "heartedStores") (txt "Hearted Stores") (heartedStores db me).

(** [getTopStores]: the rows of [Store.getTopStores()]. *)
Definition topStoresPage (db : DB) : View :=
  ViewTop (txt "topStores") (txt "Top Stores") (getTopStores db).

(** The stores a page lists. *)
Definition listed (v : View) : list Store :=
  match v with ViewStores _ _ sts => sts | _ => [] end.

(** ** Lemmas *)

Lemma heartsPage_listed db me st :
  st ∈ listed (heartsPage db me) <-> st ∈ stores db /\ store_id st ∈ hearts me.
Proof. unfold listed, heartsPage, heartedStores. rewrite list_elem_of_filter. tauto. Qed.

(** With distinct user ids, the user found by id is the one of the
    collection with that id. *)
Lemma find_user_unique db u v :
  NoDup (map user_id (users db)) -> u ∈ users db -> find_user db (user_id u) = Some v -> v = u.
Proof.
  intros Hnd Hu (Hv & Hid)%find_user_Some. by apply (NoDup_map_same_key user_id (users db)).
Qed.

Lemma add_heart_elem hs sid : sid ∉ hs -> sid ∈ apply_heart_op (heart_operator hs sid) sid hs.
Proof.
  intros Hn. unfold heart_operator. rewrite bool_decide_eq_false_2 by done. simpl.
  rewrite bool_decide_eq_false_2 by done. set_solver.
Qed.

(** ** Theorems *)

(** C21: a logged-in user hearts a store that is not among their hearts;
    on the next request of the session, [deserializeUser] loads the
    user [heartStore] wrote, and the page of hearted stores lists the
    store. *)
Theorem hearted_page_after_heart db e me st db' u' :
  users_inv db ->
  deserializeUser db (Some e) = Some me ->
  st ∈ stores db -> store_id st ∉ hearts me ->
  heartStore db me (store_id st) = (db', Some u') ->
  deserializeUser db' (Some e) = Some u' /\ st ∈ listed (heartsPage db' u').
Proof.
  intros (Hnd & _ & _) Hme Hst Hn Hh. simpl in Hme.
  destruct (find_by_email_Some _ _ _ Hme) as [Hin Hem].
  apply heart_write_Some in Hh as (u & Hf & Hu' & -> & Hid).
  assert (u = me) as -> by exact (find_user_unique db me u Hnd Hin Hf).
  split.
  - simpl. apply (find_by_email_replace _ _ me); [done|done|]. by rewrite Hu'.
  - apply heartsPage_listed. split; [done|]. rewrite Hu'. by apply add_heart_elem.
Qed.

(** ** Witnesses *)

Definition pages_db : DB :=
  {| stores := stores (run empty_db (create_named 1 10 "Cafe")); reviews := [];
     users := [mkUser 1 (txt "ann@example.com") (txt "Ann") None None [] None];
     next_oid := 2 |}.

Lemma hearted_page_after_heart_witness :
  exists me st db' u',
    deserializeUser pages_db (Some (txt "ann@example.com")) = Some me /\
    heartStore pages_db me (store_id st) = (db', Some u') /\
    st ∈ listed (heartsPage db' u').
Proof.
  destruct (stores pages_db) as [|st ss] eqn:Hs; [discriminate Hs|].
  destruct (heartStore pages_db (mkUser 1 (txt "ann@example.com") (txt "Ann") None None [] None)
              (store_id st)) as [db' [u'|]] eqn:Hh; [|vm_compute in Hh; discriminate Hh].
  exists (mkUser 1 (txt "ann@example.com") (txt "Ann") None None [] None), st, db', u'.
  split_and!; [reflexivity|exact Hh|].
  apply (hearted_page_after_heart pages_db (txt "ann@example.com")
           (mkUser 1 (txt "ann@example.com") (txt "Ann") None None [] None) st db' u').
  - split_and!; vm_compute; repeat constructor; set_solver.
  - reflexivity.
  - rewrite Hs. left.
  - vm_compute. set_solver.
  - exact Hh.
Defined.
